(** * Quantum memory cell: a shallow embedding of [quantum_memory_cell.py]

    The development models [QuantumMemoryCell] (constructor, [write], [read],
    [forward], [__del__]) together with the stand-in classes the module
    defines itself ([BackendV2], [DummyJob], [DummyResult], [JobStatus]).

    Modelling conventions.
    - Python [int]s are [Z]; sizes that torch rejects when negative
      ([num_qubits], [classical_hidden_size]) are [nat].  A slot index
      stored in a torch tensor is a 64-bit integer: [torch.tensor] rejects
      a list with an element outside that range.
    - Floats are exact rationals [Q]: every double is a rational, and the
      rounding of arithmetic results is not modelled, but their range is:
      the division [prob1 / shots] and the store of its result in the
      float32 tensor [probs] raise when the quotient is too large.
      [np_pi] is the exact value of the double [np.pi].
    - A 2-D tensor is a record carrying its shape and its rows.
    - The engines the module only imports (Qiskit's transpiler and
      simulator, QuantumRingsLib, the cuQuantum simulator, the clock, the
      random generator) are an [environment]: every external call is logged
      in a trace, and the environment answers as a function of the trace so
      far, so it may be stateful in any deterministic way.  An external call
      either returns or raises an instance of [Exception].
    - Time is a clock counting ticks ([Z]); [job_timeout] and
      [job_poll_interval] are in ticks.  The time that passes between two
      readings of the clock is the time the calls in between take:
      [time.sleep(d)] advances the clock by [d] plus a non-negative
      oversleep, and [job.status()], on an external job as on the module's
      stand-in job, by a non-negative duration, both chosen by the
      environment.
    - A job status is the string the job reports; it is compared with the
      constants of the module's own [JobStatus] class, as the code does.
    - The mutable attribute [quantum_memory_states] of the cell lives in
      the state; the attributes set once by the constructor are the record
      [QuantumMemoryCell].
    - Effects are a state-and-exception monad [M]; the only unbounded loop
      (job polling) takes fuel and yields [Hang] when it runs out. *)

From Stdlib Require Import ZArith QArith Lia Ascii DecimalString.
From stdpp Require Import base list strings.

Open Scope Z_scope.

(** ** Python values *)

Inductive exn_class :=
| ValueError | ImportError | RuntimeError | TimeoutError | IndexError
| OtherError (name : string).

Record exn := mk_exn { exn_cls : exn_class; exn_msg : string }.

(** What an external call does: it returns or it raises. *)
Inductive reply (A : Type) :=
| Returns (a : A)
| Raises (e : exn).
Arguments Returns {A} a.
Arguments Raises {A} e.

(** [str(n)] for an [int]. *)
Definition str_Z (z : Z) : string := NilZero.string_of_int (Z.to_int z).
Definition str_nat (n : nat) : string := str_Z (Z.of_nat n).

(** Truthiness of an optional string argument ([None] and [''] are falsy). *)
Definition truthy_str (o : option string) : bool :=
  match o with
  | Some s => negb (String.eqb s "")
  | None => false
  end.

(** Truthiness of an attribute that is [None] or a list. *)
Definition truthy_list {A} (o : option (list A)) : bool :=
  match o with
  | Some (_ :: _) => true
  | _ => false
  end.

(** [x is None] *)
Definition is_None {A} (o : option A) : bool :=
  match o with
  | Some _ => false
  | None => true
  end.

(** A value a 64-bit tensor element can hold. *)
Definition fits_int64 (z : Z) : bool := (- 2 ^ 63 <=? z) && (z <? 2 ^ 63).

Definition int64_overflow : exn :=
  mk_exn RuntimeError "Overflow when unpacking long".

(** [torch.tensor(l)] for a list of Python [int]s: the 64-bit tensor of
    the same values, unless one of them does not fit. *)
Definition torch_tensor (l : list Z) : reply (list Z) :=
  if forallb fits_int64 l then Returns l else Raises int64_overflow.

(** ['0' * n] *)
Fixpoint str_repeat (s : string) (n : nat) : string :=
  match n with
  | O => ""
  | S n' => s +:+ str_repeat s n'
  end.

(** ** Tensors and [nn.Linear] *)

Record Tensor := mkTensor {
  t_rows : nat;
  t_cols : nat;
  t_data : list (list Q)
}.

Definition shape (t : Tensor) : nat * nat := (t_rows t, t_cols t).

(** The data of a tensor agrees with its shape. *)
Definition tensor_wf (t : Tensor) : bool :=
  Nat.eqb (length (t_data t)) (t_rows t)
  && forallb (fun r => Nat.eqb (length r) (t_cols t)) (t_data t).

Definition np_pi : Q := 884279719003555 # 281474976710656.

(** [torch.zeros(n)] *)
Definition torch_zeros (n : nat) : list Q := repeat 0%Q n.

(** [v.unsqueeze(0)] for a 1-D tensor. *)
Definition unsqueeze0 (v : list Q) : Tensor := mkTensor 1 (length v) [v].

(** [torch.empty(0, c)] *)
Definition torch_empty0 (c : nat) : Tensor := mkTensor 0 c [].

(** [torch.cat(ts, dim=0)] of a non-empty list of 2-D tensors: the column
    counts must agree. *)
Definition torch_cat (ts : list Tensor) : reply Tensor :=
  match ts with
  | [] => Raises (mk_exn RuntimeError "torch.cat(): expected a non-empty list of Tensors")
  | t :: _ =>
      if forallb (fun u => Nat.eqb (t_cols u) (t_cols t)) ts
      then Returns (mkTensor (list_sum (map t_rows ts)) (t_cols t)
                             (concat (map t_data ts)))
      else Raises (mk_exn RuntimeError "Sizes of tensors must match except in dimension 0")
  end.

Record Linear := mkLinear {
  in_features : nat;
  out_features : nat;
  weight : nat -> nat -> Q;        (* weight[j][k], shape (out, in) *)
  bias : nat -> Q
}.

Definition dot (w : nat -> Q) (x : list Q) : Q :=
  fold_right Qplus 0%Q (imap (fun k xk => (w k * xk)%Q) x).

(** [layer(x)] for a 2-D input. *)
Definition linear_forward (l : Linear) (x : Tensor) : reply Tensor :=
  if Nat.eqb (t_cols x) (in_features l)
  then Returns (mkTensor (t_rows x) (out_features l)
         (map (fun r => map (fun j => (dot (weight l j) r + bias l j)%Q)
                            (seq 0 (out_features l)))
              (t_data x)))
  else Raises (mk_exn RuntimeError "mat1 and mat2 shapes cannot be multiplied").

(** [t.view(r, 2) * np.pi], returned as the list of its [r] rows. *)
Fixpoint pairs (l : list Q) : list (Q * Q) :=
  match l with
  | a :: b :: l' => (a, b) :: pairs l'
  | _ => []
  end.

Definition view_pairs_times_pi (t : Tensor) (r : nat) : reply (list (Q * Q)) :=
  if Nat.eqb (t_rows t * t_cols t) (r * 2)
  then Returns (map (fun p => (fst p * np_pi, snd p * np_pi)%Q)
                    (pairs (concat (t_data t))))
  else Raises (mk_exn RuntimeError "shape is invalid for input size").

(** ** Circuits *)

Record Register := mkReg { reg_size : nat; reg_name : string }.

#[warnings="-register-all"]
Inductive Instruction :=
| ry (theta : Q) (reg : Register) (index : nat)
| rz (phi : Q) (reg : Register) (index : nat)
| gate (label : string) (definition : list Instruction) (qargs : Register)
| measure (qreg creg : Register).

Record QuantumCircuit := mkQC {
  qc_name : string;
  qregs : list Register;
  cregs : list Register;
  data : list Instruction
}.

Definition qc_num_qubits (qc : QuantumCircuit) : nat :=
  list_sum (map reg_size (qregs qc)).

(** Measurement counts: the items of a dict from bitstring to count. *)
Definition Counts := list (string * Z).

(** ** The module's own job classes *)

Module JobStatus.
Definition DONE : string := "DONE".
Definition ERROR : string := "ERROR".
Definition CANCELLED : string := "CANCELLED".
Definition RUNNING : string := "RUNNING".
Definition QUEUED : string := "QUEUED".
End JobStatus.

(** A job is either a handle into the external engine or a [DummyJob]
    with its fields [circuit], [shots], [_status], [_result]. *)
Inductive Job :=
| ExternalJob
| DummyJob (circuit : QuantumCircuit) (shots : Z) (_status : string)
           (_result : option Counts).

Definition DummyJob_status (circuit : QuantumCircuit) (shots : Z)
    (st : string) (res : option Counts) : string * Job :=
  let st' :=
    if String.eqb st JobStatus.QUEUED then JobStatus.RUNNING
    else if String.eqb st JobStatus.RUNNING then JobStatus.DONE
    else st in
  (st', DummyJob circuit shots st' res).

Definition DummyJob_result (circuit : QuantumCircuit) (shots : Z)
    (st : string) (res : option Counts) : reply Counts :=
  if negb (String.eqb st JobStatus.DONE)
  then Raises (mk_exn RuntimeError "Job not done.")
  else match res with
       | Some cnt => Returns cnt
       | None => Returns [(str_repeat "0" (qc_num_qubits circuit), shots)]
       end.

(** ** Backends and simulators *)

Inductive Backend :=
| AerSimulator
| ExternalQR (descr : string) (nq : option Z)
| DummyBackendV2 (num_qubits : nat).

Definition Backend_str (b : option Backend) : string :=
  match b with
  | None => "None"
  | Some AerSimulator => "AerSimulator"
  | Some (ExternalQR d _) => d
  | Some (DummyBackendV2 _) => "dummy_qr_cloud_backend"
  end.

(** A per-slot GPU simulator: its position in the pool and whether the
    object has a callable [release] attribute. *)
Record CuQuantumSimulator := mkSim { sim_id : nat; sim_has_release : bool }.

(** Availability flags computed when the module is imported. *)
Record imports := mkImports {
  HAS_QISKIT : bool;
  HAS_QUANTUM_RINGS : bool;
  HAS_CUQUANTUM : bool
}.

(** ** The outside world *)

Inductive event :=
| EvPrint (msg : string)
| EvRandn (rows cols : nat)
| EvSimNew (num_qubits : nat)
| EvProviderNew (token name : string)
| EvActiveAccount
| EvGetBackend (name : string)
| EvBackendV2New (num_qubits : nat)
| EvAerNew
| EvTranspile (qc : QuantumCircuit)
| EvRun (qc : QuantumCircuit) (shots : Z)
| EvStatus
| EvResult
| EvGetCounts
| EvSleep (secs : Z)
| EvSimReset (sim : nat)          (* sim.state.fill(0); sim.state[0] = 1.0 + 0.0j *)
| EvSimRy (sim : nat) (angle : Q) (qubit : nat)
| EvSimRz (sim : nat) (angle : Q) (qubit : nat)
| EvMeasureShots (sim : nat) (qubits : list nat) (shots : Z)
| EvRelease (sim : nat).

(** The trace lists the events latest first. *)
Definition trace_t := list event.

(** An event that reaches an execution engine. *)
Definition is_backend_event (e : event) : bool :=
  match e with
  | EvPrint _ | EvRandn _ _ | EvSleep _ => false
  | _ => true
  end.

Definition backend_calls (tr : trace_t) : list event :=
  List.filter is_backend_event tr.

Record environment := mkEnv {
  env_randn : trace_t -> nat -> Q;              (* the samples of one randn call *)
  env_sim_new : trace_t -> reply bool;          (* CuQuantumSimulator(n): has release? *)
  env_unit : trace_t -> reply unit;             (* calls made for their effect *)
  env_get_backend : trace_t -> reply (option (string * option Z));
  env_backend_v2 : trace_t -> reply (string * option Z);
  env_transpile : trace_t -> reply QuantumCircuit;
  env_status : trace_t -> reply string;
  env_counts : trace_t -> reply Counts;         (* get_counts, measure_shots *)
  env_latency : trace_t -> N                    (* time a status call or an oversleep takes *)
}.

Record state := mkState {
  quantum_memory_states : list (option QuantumCircuit);
  clock : Z;
  trace : trace_t
}.

Inductive outcome (A : Type) :=
| Ok (a : A)
| Raise (e : exn)
| Hang.
Arguments Ok {A} a.
Arguments Raise {A} e.
Arguments Hang {A}.

Definition M (A : Type) : Type := state -> outcome A * state.

Definition ret {A} (a : A) : M A := fun s => (Ok a, s).
Definition raise {A} (e : exn) : M A := fun s => (Raise e, s).
Definition hang {A} : M A := fun s => (Hang, s).

Definition bind {A B} (m : M A) (f : A -> M B) : M B :=
  fun s =>
    match m s with
    | (Ok a, s') => f a s'
    | (Raise e, s') => (Raise e, s')
    | (Hang, s') => (Hang, s')
    end.

#[global] Instance M_ret : MRet M := @ret.
#[global] Instance M_bind : MBind M := fun A B f m => bind m f.

(** [try: body except Exception as e: handler(e)] *)
Definition try_except {A} (body : M A) (handler : exn -> M A) : M A :=
  fun s =>
    match body s with
    | (Raise e, s') => handler e s'
    | r => r
    end.

Definition log (ev : event) : M unit :=
  fun s => (Ok tt, mkState (quantum_memory_states s) (clock s) (ev :: trace s)).

Definition print (msg : string) : M unit := log (EvPrint msg).

Definition lift {A} (r : reply A) : M A :=
  match r with
  | Returns a => ret a
  | Raises e => raise e
  end.

(** An external call: log the request, then ask the environment. *)
Definition call {A} (ev : event) (oracle : trace_t -> reply A) : M A :=
  fun s =>
    let s' := mkState (quantum_memory_states s) (clock s) (ev :: trace s) in
    lift (oracle (trace s')) s'.

Definition advance (d : Z) : M unit :=
  fun s => (Ok tt, mkState (quantum_memory_states s) (clock s + d) (trace s)).

Definition get_store : M (list (option QuantumCircuit)) :=
  fun s => (Ok (quantum_memory_states s), s).

Definition set_store (l : list (option QuantumCircuit)) : M unit :=
  fun s => (Ok tt, mkState l (clock s) (trace s)).

(** [time.time()] *)
Definition time_time : M Z := fun s => (Ok (clock s), s).

Section WithEnvironment.

Variable env : environment.
Variable mods : imports.

(** [torch.randn(r, c)] *)
Definition torch_randn (r c : nat) : M Tensor :=
  fun s =>
    let s' := mkState (quantum_memory_states s) (clock s) (EvRandn r c :: trace s) in
    (Ok (mkTensor r c
           (map (fun i => map (fun j => env_randn env (trace s') (i * c + j)%nat)
                              (seq 0 c))
                (seq 0 r))), s').

(** [time.sleep(secs)]: rejects a negative length, otherwise suspends for
    at least [secs]. *)
Definition time_sleep (secs : Z) : M unit :=
  if secs <? 0 then raise (mk_exn ValueError "sleep length must be non-negative")
  else
    _ ← log (EvSleep secs);
    s ← (fun s => (Ok (trace s), s));
    advance (secs + Z.of_N (env_latency env s)).

(** ** The cell *)

Record QuantumMemoryCell := mkCell {
  num_qubits : nat;
  memory_depth : Z;
  classical_hidden_size : nat;
  job_poll_interval : Z;
  job_timeout : Z;
  backend_mode : string;
  gpu_simulators : option (list CuQuantumSimulator);
  backend : option Backend;
  encoding_linear : Linear;
  decoding_linear : Linear
}.

(** The slot argument of [write] and [read], as their [isinstance] tests
    tell it apart: an [int]; a [torch.Tensor] of slot indices ([SlotSeq]),
    which is used as it is; or another sequence, a Python list
    ([SlotList]), which [torch.tensor] converts first.  The elements of a
    tensor are 64-bit by type: a [SlotSeq] is the list of the values of
    such a tensor. *)
Inductive SlotIndices :=
| SlotInt (z : Z)
| SlotSeq (l : list Z)
| SlotList (l : list Z).

Definition is_gpu (mode : string) : bool := String.eqb mode "gpu".
Definition is_qr_cloud (mode : string) : bool := String.eqb mode "qr-cloud".
Definition is_cpu_qiskit (mode : string) : bool := String.eqb mode "cpu-qiskit".

(** [[CuQuantumSimulator(n) for _ in range(depth)]], the [k]-th simulator
    built getting identity [k]. *)
Fixpoint new_simulators (nq : nat) (k : nat) (n : nat) : M (list CuQuantumSimulator) :=
  match n with
  | O => ret []
  | S n' =>
      has ← call (EvSimNew nq) (env_sim_new env);
      rest ← new_simulators nq (S k) n';
      ret (mkSim k has :: rest)
  end.

(** [BackendV2(None, num_qubits=nq)]: the library's class when it was
    imported, the module's stand-in otherwise. *)
Definition BackendV2 (nq : nat) : M Backend :=
  if HAS_QUANTUM_RINGS mods
  then
    b ← call (EvBackendV2New nq) (env_backend_v2 env);
    ret (ExternalQR (fst b) (snd b))
  else
    _ ← print ("Initialized Dummy QuantumRings BackendV2 for " +:+ str_nat nq +:+ " qubits.");
    ret (DummyBackendV2 nq).

Definition init_qr_provider (tok usr : option string) (bname : string)
    : M (option Backend) :=
  _ ← call (EvProviderNew (default "" tok) (default "" usr)) (env_unit env);
  _ ← call EvActiveAccount (env_unit env);
  b ← call (EvGetBackend bname) (env_get_backend env);
  let bk := option_map (fun p => ExternalQR (fst p) (snd p)) b in
  _ ← print ("[QuantumMemoryCell] QuantumRingsLib: Initialized backend '"
             +:+ Backend_str bk +:+ "'.");
  _ ← match bk with
      | Some (ExternalQR _ (Some n)) =>
          print ("                 Available qubits on backend: " +:+ str_Z n)
      | _ => ret tt
      end;
  ret bk.

Definition init_backend (nq : nat) (depth : Z) (mode : string)
    (tok usr : option string) (bname : string)
    : M (option (list CuQuantumSimulator) * option Backend) :=
  if is_gpu mode then
    if HAS_CUQUANTUM mods then
      _ ← print "[QuantumMemoryCell] Using cuQuantum GPU simulator.";
      sims ← new_simulators nq 0 (Z.to_nat depth);
      ret (Some sims, None)
    else raise (mk_exn RuntimeError "cuQuantum not found, but backend_mode='gpu' was requested.")
  else if is_qr_cloud mode then
    if HAS_QUANTUM_RINGS mods && truthy_str tok && truthy_str usr then
      bk ← try_except (init_qr_provider tok usr bname)
             (fun e =>
                _ ← print ("[QuantumMemoryCell] Error initializing QuantumRingsLib backend: "
                           +:+ exn_msg e +:+ ". Falling back to dummy QR backend.");
                b ← BackendV2 nq;
                ret (Some b));
      ret (None, bk)
    else
      _ ← print "[QuantumMemoryCell] QuantumRingsLib not found or credentials missing. Using dummy QR backend for 'qr-cloud' mode.";
      b ← BackendV2 nq;
      ret (None, Some b)
  else if is_cpu_qiskit mode then
    if HAS_QISKIT mods then
      _ ← print "[QuantumMemoryCell] Using Qiskit AerSimulator (CPU).";
      _ ← call EvAerNew (env_unit env);
      ret (None, Some AerSimulator)
    else
      _ ← print "[QuantumMemoryCell] Qiskit AerSimulator not available. Cannot use 'cpu-qiskit' mode.";
      raise (mk_exn ImportError "AerSimulator not found for 'cpu-qiskit' mode.")
  else raise (mk_exn ValueError ("Unsupported backend_mode: " +:+ mode)).

(** The constructor.  [enc_init] and [dec_init] are the parameter values
    that [nn.Linear] draws for the two layers. *)
Definition __init__ (nq : nat) (depth : Z) (hidden : nat) (mode : string)
    (tok usr : option string) (bname : string) (interval timeout : Z)
    (enc_init dec_init : (nat -> nat -> Q) * (nat -> Q))
    : M QuantumMemoryCell :=
  if negb (HAS_QISKIT mods) && negb (is_gpu mode)
  then raise (mk_exn ImportError "Qiskit is required for this backend_mode.")
  else
    _ ← print ("[QuantumMemoryCell] Initializing for backend_mode: " +:+ mode);
    sb ← init_backend nq depth mode tok usr bname;
    _ ← set_store (repeat None (Z.to_nat depth));
    _ ← print ("[QuantumMemoryCell] Initialized for " +:+ str_nat nq
               +:+ " qubits/slot, depth " +:+ str_Z depth +:+ ".");
    ret (mkCell nq depth hidden interval timeout mode (fst sb) (snd sb)
           (mkLinear hidden (nq * 2) (fst enc_init) (snd enc_init))
           (mkLinear nq hidden (fst dec_init) (snd dec_init))).

Definition _get_angles_single (c : QuantumMemoryCell) (item : Tensor)
    : M (list (Q * Q)) :=
  if negb (Nat.eqb (t_rows item) 1)
  then raise (mk_exn ValueError "_get_angles_single expects input of shape (1, classical_hidden_size)")
  else
    angles ← lift (linear_forward (encoding_linear c) item);
    lift (view_pairs_times_pi angles (num_qubits c)).

Definition in_bounds (c : QuantumMemoryCell) (slot_idx : Z) : bool :=
  (0 <=? slot_idx) && (slot_idx <? memory_depth c).

Definition out_of_bounds (slot_idx : Z) (i : nat) : exn :=
  mk_exn ValueError ("Slot index " +:+ str_Z slot_idx +:+ " for item "
                     +:+ str_nat i +:+ " out of bounds.").

(** [l[slot_idx]] for a slot index already known to be non-negative. *)
Definition index {A} (l : list A) (slot_idx : Z) : M A :=
  match l !! Z.to_nat slot_idx with
  | Some a => ret a
  | None => raise (mk_exn IndexError "list index out of range")
  end.

(** [self.quantum_memory_states[slot_idx] = v] *)
Definition store_set (slot_idx : Z) (v : option QuantumCircuit) : M unit :=
  st ← get_store;
  if (Z.to_nat slot_idx <? length st)%nat
  then set_store (<[Z.to_nat slot_idx := v]> st)
  else raise (mk_exn IndexError "list assignment index out of range").

Definition the_simulators (c : QuantumMemoryCell) : M (list CuQuantumSimulator) :=
  match gpu_simulators c with
  | Some sims => ret sims
  | None => raise (mk_exn (OtherError "TypeError") "'NoneType' object is not subscriptable")
  end.

(** The per-qubit loop of the GPU branch of [write]. *)
Fixpoint gpu_rotations (sim : CuQuantumSimulator) (angles : list (Q * Q))
    (qs : list nat) : M unit :=
  match qs with
  | [] => ret tt
  | q_idx :: qs' =>
      a ← index angles (Z.of_nat q_idx);
      _ ← call (EvSimRy (sim_id sim) (fst a) q_idx) (env_unit env);
      _ ← call (EvSimRz (sim_id sim) (snd a) q_idx) (env_unit env);
      gpu_rotations sim angles qs'
  end.

(** The per-qubit loop of the circuit branch of [write]. *)
Fixpoint circuit_rotations (qr : Register) (angles : list (Q * Q))
    (qs : list nat) : M (list Instruction) :=
  match qs with
  | [] => ret []
  | q_idx :: qs' =>
      a ← index angles (Z.of_nat q_idx);
      rest ← circuit_rotations qr angles qs';
      ret (ry (fst a) qr q_idx :: rz (snd a) qr q_idx :: rest)
  end.

(** The body of the loop of [write] for item [i]. *)
Definition write_item (c : QuantumMemoryCell) (hidden : Tensor) (i : nat)
    (slot_idx : Z) : M unit :=
  if negb (in_bounds c slot_idx) then raise (out_of_bounds slot_idx i)
  else
    row ← index (t_data hidden) (Z.of_nat i);
    angles ← _get_angles_single c (mkTensor 1 (t_cols hidden) [row]);
    if is_gpu (backend_mode c) then
      sims ← the_simulators c;
      sim ← index sims slot_idx;
      _ ← call (EvSimReset (sim_id sim)) (env_unit env);
      _ ← gpu_rotations sim angles (seq 0 (num_qubits c));
      store_set slot_idx None
    else
      let qr := mkReg (num_qubits c)
                  ("q_b" +:+ str_nat i +:+ "_s" +:+ str_Z slot_idx) in
      ops ← circuit_rotations qr angles (seq 0 (num_qubits c));
      store_set slot_idx
        (Some (mkQC ("qmem_b" +:+ str_nat i +:+ "_s" +:+ str_Z slot_idx)
                    [qr] [] ops)).

Fixpoint write_loop (c : QuantumMemoryCell) (hidden : Tensor) (i : nat)
    (idxs : list Z) : M unit :=
  match idxs with
  | [] => ret tt
  | slot_idx :: idxs' =>
      _ ← write_item c hidden i slot_idx;
      write_loop c hidden (S i) idxs'
  end.

(** The head of [write]: the slot argument as a tensor of indices. *)
Definition write_indices (slots : SlotIndices) (batch_size : nat)
    : reply (list Z) :=
  match slots with
  | SlotInt z => torch_tensor (repeat z batch_size)
  | SlotSeq l => Returns l
  | SlotList l => torch_tensor l
  end.

(** [write] from the length check on, for the tensor of indices. *)
Definition write_batch (c : QuantumMemoryCell) (hidden : Tensor)
    (idxs : list Z) : M unit :=
  let batch_size := t_rows hidden in
  if negb (Nat.eqb (length idxs) batch_size)
  then raise (mk_exn ValueError "memory_slot_indices_batch must be an int or a list/tensor of length batch_size.")
  else write_loop c hidden 0 idxs.

Definition write (c : QuantumMemoryCell) (hidden : Tensor)
    (slots : SlotIndices) : M unit :=
  idxs ← lift (write_indices slots (t_rows hidden));
  write_batch c hidden idxs.

(** *** Reading *)

(** [status in [JobStatus.DONE, JobStatus.ERROR, JobStatus.CANCELLED]] *)
Definition is_terminal (status : string) : bool :=
  String.eqb status JobStatus.DONE
  || String.eqb status JobStatus.ERROR
  || String.eqb status JobStatus.CANCELLED.

(** [self.backend.run(tqc, shots=shots)] *)
Definition backend_run (c : QuantumMemoryCell) (tqc : QuantumCircuit)
    (shots : Z) : M Job :=
  match backend c with
  | None => raise (mk_exn (OtherError "AttributeError") "'NoneType' object has no attribute 'run'")
  | Some (DummyBackendV2 _) =>
      _ ← print ("Dummy QR BackendV2: Running circuit with " +:+ str_Z shots +:+ " shots.");
      ret (DummyJob tqc shots JobStatus.QUEUED None)
  | Some _ =>
      _ ← call (EvRun tqc shots) (env_unit env);
      ret ExternalJob
  end.

(** [job.status()]: the new status and the job after the call.  The call
    takes time, whether it goes to an external job or runs the method of
    the module's [DummyJob]. *)
Definition job_status (job : Job) : M (string * Job) :=
  match job with
  | ExternalJob =>
      status ← call EvStatus (env_status env);
      tr ← (fun s => (Ok (trace s), s));
      _ ← advance (Z.of_N (env_latency env tr));
      ret (status, ExternalJob)
  | DummyJob circuit shots st res =>
      tr ← (fun s => (Ok (trace s), s));
      _ ← advance (Z.of_N (env_latency env tr));
      ret (DummyJob_status circuit shots st res)
  end.

(** [job.result().get_counts()] *)
Definition job_counts (job : Job) : M Counts :=
  match job with
  | ExternalJob =>
      _ ← call EvResult (env_unit env);
      call EvGetCounts (env_counts env)
  | DummyJob circuit shots st res => lift (DummyJob_result circuit shots st res)
  end.

Definition timed_out (i : nat) (slot_idx : Z) (status : string) : exn :=
  mk_exn TimeoutError ("Job (item " +:+ str_nat i +:+ ", slot " +:+ str_Z slot_idx
                       +:+ ") timed out. Status: " +:+ status).

Definition job_failed (i : nat) (slot_idx : Z) (status : string) : exn :=
  mk_exn RuntimeError ("Job (item " +:+ str_nat i +:+ ", slot " +:+ str_Z slot_idx
                       +:+ ") failed. Status: " +:+ status).

(** The [while True] loop of the qr-cloud branch: the status that ended
    it, and the job. *)
Fixpoint poll (fuel : nat) (c : QuantumMemoryCell) (i : nat) (slot_idx : Z)
    (start_time : Z) (job : Job) : M (string * Job) :=
  match fuel with
  | O => hang
  | S fuel' =>
      sj ← job_status job;
      if is_terminal (fst sj) then ret sj
      else
        now ← time_time;
        if job_timeout c <? now - start_time
        then raise (timed_out i slot_idx (fst sj))
        else
          _ ← time_sleep (job_poll_interval c);
          poll fuel' c i slot_idx start_time (snd sj)
  end.


(** The body of the [try] block of [read]. *)
Definition execute (fuel : nat) (c : QuantumMemoryCell) (i : nat)
    (slot_idx : Z) (measurement_qc : QuantumCircuit) (shots : Z) : M Counts :=
  tqc ← (if is_cpu_qiskit (backend_mode c)
         then call (EvTranspile measurement_qc) (env_transpile env)
         else ret measurement_qc);
  job ← backend_run c tqc shots;
  job ← (if is_qr_cloud (backend_mode c) then
           start_time ← time_time;
           sj ← poll fuel c i slot_idx start_time job;
           if negb (String.eqb (fst sj) JobStatus.DONE)
           then raise (job_failed i slot_idx (fst sj))
           else ret (snd sj)
         else ret job);
  job_counts job.

(** The inner loop over [counts.items()] for one qubit: [prob1]. *)
Definition count_ones (nq : nat) (counts : Counts) (qubit_idx : nat) : Z :=
  fold_left
    (fun prob1 kv =>
       if Nat.eqb (String.length (fst kv)) nq
          && bool_decide (String.get (nq - 1 - qubit_idx) (fst kv) = Some "1"%char)
       then prob1 + snd kv else prob1)
    counts 0.

(** "Process counts": the tensor [probs], as it is when every division
    and store of the loop succeeds; [probs_error] below tells whether one
    raises. *)
Definition compute_probs (nq : nat) (counts : Counts) (shots : Z) : list Q :=
  match counts with
  | [] => torch_zeros nq
  | _ =>
      map (fun qubit_idx =>
             if 0 <? shots
             then (inject_Z (count_ones nq counts qubit_idx) / inject_Z shots)%Q
             else 0%Q)
          (seq 0 nq)
  end.

(** The least magnitude that rounds to no double, and the largest
    float32. *)
Definition double_limit : Z := 2 ^ 1024 - 2 ^ 970.
Definition float32_max : Z := 2 ^ 128 - 2 ^ 104.

(** What [probs[qubit_idx] = prob1 / shots] raises, for [shots > 0]: the
    division of the two [int]s raises an [OverflowError] when the quotient
    is too large for a double, and the store in the float32 tensor [probs]
    a [RuntimeError] when it is too large for a float32 (the rounding at
    the two limits aside). *)
Definition float_store_error (prob1 shots : Z) : option exn :=
  if double_limit * shots <=? Z.abs prob1
  then Some (mk_exn (OtherError "OverflowError")
               "integer division result too large for a float")
  else if float32_max * shots <? Z.abs prob1
  then Some (mk_exn RuntimeError
               "value cannot be converted to type float without overflow")
  else None.

Fixpoint first_error (l : list (option exn)) : option exn :=
  match l with
  | [] => None
  | Some e :: _ => Some e
  | None :: l' => first_error l'
  end.

(** The exception the loop over the qubits of "Process counts" raises, if
    any: that of the first qubit whose probability cannot be stored. *)
Definition probs_error (nq : nat) (counts : Counts) (shots : Z) : option exn :=
  match counts with
  | [] => None
  | _ =>
      if 0 <? shots
      then first_error
             (map (fun qubit_idx =>
                     float_store_error (count_ones nq counts qubit_idx) shots)
                  (seq 0 nq))
      else None
  end.

(** "Process counts", then the decoding layer.  Nothing here is inside a
    [try]. *)
Definition decode (c : QuantumMemoryCell) (counts : Counts) (shots : Z)
    : M Tensor :=
  match probs_error (num_qubits c) counts shots with
  | Some e => raise e
  | None =>
      lift (linear_forward (decoding_linear c)
              (unsqueeze0 (compute_probs (num_qubits c) counts shots)))
  end.

Definition empty_blueprint (c : QuantumMemoryCell) (i : nat) (slot_idx : Z)
    : QuantumCircuit :=
  mkQC ("qmem_empty_b" +:+ str_nat i +:+ "_s" +:+ str_Z slot_idx)
       [mkReg (num_qubits c)
              ("q_empty_b" +:+ str_nat i +:+ "_s" +:+ str_Z slot_idx)]
       [] [].

(** The measurement circuit of a blueprint.  The blueprints in the store
    are built by [write] from [ry] and [rz] only, for which [to_gate]
    succeeds; the branch that rebuilds the operations one by one after a
    failed [to_gate] is therefore not modelled. *)
Definition measurement_circuit (c : QuantumMemoryCell) (i : nat)
    (slot_idx : Z) (qc_blueprint : QuantumCircuit) : QuantumCircuit :=
  let qr_meas := mkReg (num_qubits c)
                   ("q_meas_b" +:+ str_nat i +:+ "_s" +:+ str_Z slot_idx) in
  let cr_meas := mkReg (num_qubits c)
                   ("c_meas_b" +:+ str_nat i +:+ "_s" +:+ str_Z slot_idx) in
  mkQC (qc_name qc_blueprint +:+ "_meas") [qr_meas] [cr_meas]
       ((if HAS_QISKIT mods
         then [gate ("bp_b" +:+ str_nat i +:+ "_s" +:+ str_Z slot_idx)
                    (data qc_blueprint) qr_meas]
         else [])
        ++ [measure qr_meas cr_meas]).

Definition item_error (c : QuantumMemoryCell) (i : nat) (slot_idx : Z)
    (e : exn) : string :=
  "Error for item " +:+ str_nat i +:+ ", slot " +:+ str_Z slot_idx
  +:+ " (mode: " +:+ backend_mode c +:+ "): " +:+ exn_msg e.

Definition no_blueprint_warning (c : QuantumMemoryCell) (slot_idx : Z) : string :=
  "Warning: No circuit blueprint for slot " +:+ str_Z slot_idx +:+ " in mode "
  +:+ backend_mode c +:+ ". Using empty circuit.".

(** The [except] handler of [read]: a diagnostic, then the fallback row. *)
Definition item_fallback (c : QuantumMemoryCell) (i : nat) (slot_idx : Z)
    (e : exn) : M (Tensor + Counts) :=
  _ ← print (item_error c i slot_idx e);
  row ← torch_randn 1 (classical_hidden_size c);
  ret (inl row).

(** The circuit branch of the loop body once the blueprint is chosen:
    [inl row] when the handler produced the fallback row and the loop
    continues, [inr counts] when the [try] block completed. *)
Definition run_blueprint (fuel : nat) (c : QuantumMemoryCell) (shots : Z)
    (i : nat) (slot_idx : Z) (qc_blueprint : QuantumCircuit)
    : M (Tensor + Counts) :=
  try_except
    (counts ← execute fuel c i slot_idx
                (measurement_circuit c i slot_idx qc_blueprint) shots;
     ret (inr counts))
    (item_fallback c i slot_idx).

(** The blueprint of the slot, or the empty circuit with a warning. *)
Definition the_blueprint (c : QuantumMemoryCell) (i : nat) (slot_idx : Z)
    : M QuantumCircuit :=
  st ← get_store;
  slot ← index st slot_idx;
  match slot with
  | Some qc => ret qc
  | None =>
      _ ← print (no_blueprint_warning c slot_idx);
      ret (empty_blueprint c i slot_idx)
  end.

(** [sim.measure_shots(list(range(num_qubits)), shots=shots)] on the
    simulator of the slot. *)
Definition gpu_measure (c : QuantumMemoryCell) (shots : Z) (slot_idx : Z)
    : M (Tensor + Counts) :=
  sims ← the_simulators c;
  sim ← index sims slot_idx;
  counts ← call (EvMeasureShots (sim_id sim) (seq 0 (num_qubits c)) shots)
                (env_counts env);
  ret (inr counts).

(** The body of the loop of [read] for item [i]: the row appended to
    [batch_outputs]. *)
Definition read_item (fuel : nat) (c : QuantumMemoryCell) (shots : Z)
    (i : nat) (slot_idx : Z) : M Tensor :=
  if negb (in_bounds c slot_idx) then raise (out_of_bounds slot_idx i)
  else
    r ← (if is_gpu (backend_mode c) then gpu_measure c shots slot_idx
         else
           qc_blueprint ← the_blueprint c i slot_idx;
           run_blueprint fuel c shots i slot_idx qc_blueprint);
    match r with
    | inl row => ret row
    | inr counts => decode c counts shots
    end.

Fixpoint read_loop (fuel : nat) (c : QuantumMemoryCell) (shots : Z) (i : nat)
    (idxs : list Z) : M (list Tensor) :=
  match idxs with
  | [] => ret []
  | slot_idx :: idxs' =>
      row ← read_item fuel c shots i slot_idx;
      rest ← read_loop fuel c shots (S i) idxs';
      ret (row :: rest)
  end.

Definition batch_of (slots : SlotIndices) : list Z :=
  match slots with
  | SlotInt z => [z]
  | SlotSeq l => l
  | SlotList l => l
  end.

(** The head of [read]: the slot argument as a tensor of indices. *)
Definition read_indices (slots : SlotIndices) : reply (list Z) :=
  match slots with
  | SlotSeq l => Returns l
  | _ => torch_tensor (batch_of slots)
  end.

(** [read] once the slot argument is a tensor of indices. *)
Definition read_batch (fuel : nat) (c : QuantumMemoryCell) (idxs : list Z)
    (shots : Z) : M Tensor :=
  let batch_size := length idxs in
  if negb (is_gpu (backend_mode c)) && is_None (backend c)
  then
    _ ← print ("ERROR: Qiskit-based backend not available for mode '"
               +:+ backend_mode c +:+ "'.");
    torch_randn batch_size (classical_hidden_size c)
  else if is_gpu (backend_mode c) && is_None (gpu_simulators c)
  then
    _ ← print "ERROR: GPU simulators not available for mode 'gpu'.";
    torch_randn batch_size (classical_hidden_size c)
  else
    batch_outputs ← read_loop fuel c shots 0 idxs;
    match batch_outputs with
    | [] => ret (torch_empty0 (classical_hidden_size c))
    | _ => lift (torch_cat batch_outputs)
    end.

Definition read (fuel : nat) (c : QuantumMemoryCell) (slots : SlotIndices)
    (shots : Z) : M Tensor :=
  idxs ← lift (read_indices slots);
  read_batch fuel c idxs shots.

Definition forward (fuel : nat) (c : QuantumMemoryCell) (hidden : Tensor)
    (slots : SlotIndices) (shots_for_read : Z) : M Tensor :=
  _ ← write c hidden slots;
  read fuel c slots shots_for_read.

(** *** Teardown *)

Fixpoint release_all (sims : list CuQuantumSimulator) : M unit :=
  match sims with
  | [] => ret tt
  | sim :: sims' =>
      _ ← (if sim_has_release sim
           then call (EvRelease (sim_id sim)) (env_unit env)
           else ret tt);
      release_all sims'
  end.

Definition __del__ (c : QuantumMemoryCell) : M unit :=
  if is_gpu (backend_mode c) && truthy_list (gpu_simulators c)
  then
    _ ← release_all (default [] (gpu_simulators c));
    print "[QuantumMemoryCell] Released cuQuantum simulators."
  else ret tt.

End WithEnvironment.

Arguments torch_randn env r c s : simpl never.

(** ** Well-formed cells *)

(** A computation that leaves the slot store as it found it. *)
Definition preserves_store {A} (m : M A) : Prop :=
  forall s, quantum_memory_states (snd (m s)) = quantum_memory_states s.

(** A computation that never raises. *)
Definition never_raises {A} (m : M A) (s : state) : Prop :=
  forall e, fst (m s) <> Raise e.

(** A row of the batch output: shape [(1, hidden)], data of that shape. *)
Definition is_row (hidden : nat) (t : Tensor) : Prop :=
  shape t = (1%nat, hidden) /\ tensor_wf t = true.


(** What the constructor establishes about the attributes it sets: the
    layer sizes, the mode, the engine the mode needs, and the size of the
    simulator pool. *)
Definition cell_ok (mods : imports) (c : QuantumMemoryCell) : bool :=
  Nat.eqb (in_features (encoding_linear c)) (classical_hidden_size c)
  && Nat.eqb (out_features (encoding_linear c)) (num_qubits c * 2)
  && Nat.eqb (in_features (decoding_linear c)) (num_qubits c)
  && Nat.eqb (out_features (decoding_linear c)) (classical_hidden_size c)
  && (if is_gpu (backend_mode c)
      then match gpu_simulators c with
           | Some sims => Nat.eqb (length sims) (Z.to_nat (memory_depth c))
           | None => false
           end
      else HAS_QISKIT mods
           && (is_qr_cloud (backend_mode c) || is_cpu_qiskit (backend_mode c))).

(** The slot store has one entry per slot. *)
Definition store_ok (c : QuantumMemoryCell) (s : state) : bool :=
  Nat.eqb (length (quantum_memory_states s)) (Z.to_nat (memory_depth c)).

(** A computation that keeps one store entry per slot. *)
Definition keeps_store_ok {A} (c : QuantumMemoryCell) (m : M A) : Prop :=
  forall s, store_ok c s = true -> store_ok c (snd (m s)) = true.

(** Where an exception that leaves the decoding comes from: a probability
    that no float holds. *)
Definition decoding_error (c : QuantumMemoryCell) (shots : Z) (e : exn) : Prop :=
  exists counts, probs_error (num_qubits c) counts shots = Some e.

(** The learned linear encoding of an input row. *)
Definition encoded (c : QuantumMemoryCell) (v : list Q) (j : nat) : Q :=
  (dot (weight (encoding_linear c) j) v + bias (encoding_linear c) j)%Q.

(** The angles [_get_angles_single] returns for an input row. *)
Definition encoded_angles (c : QuantumMemoryCell) (v : list Q) : list (Q * Q) :=
  map (fun p => (fst p * np_pi, snd p * np_pi)%Q)
      (pairs (map (encoded c v) (seq 0 (num_qubits c * 2)))).

Definition blueprint_register (c : QuantumMemoryCell) (i : nat) (slot_idx : Z)
    : Register :=
  mkReg (num_qubits c) ("q_b" +:+ str_nat i +:+ "_s" +:+ str_Z slot_idx).

(** The blueprint [write] stores for item [i] of a batch, slot [slot_idx]
    and input row [v]. *)
Definition blueprint_of (c : QuantumMemoryCell) (i : nat) (slot_idx : Z)
    (v : list Q) : QuantumCircuit :=
  mkQC ("qmem_b" +:+ str_nat i +:+ "_s" +:+ str_Z slot_idx)
    [blueprint_register c i slot_idx] []
    (concat
       (imap (fun q_idx a =>
                [ry (fst a) (blueprint_register c i slot_idx) q_idx;
                 rz (snd a) (blueprint_register c i slot_idx) q_idx])
             (encoded_angles c v))).

(** A batch of one row. *)
Definition single (c : QuantumMemoryCell) (v : list Q) : Tensor :=
  mkTensor 1 (classical_hidden_size c) [v].

Definition with_store (s : state) (st : list (option QuantumCircuit)) : state :=
  mkState st (clock s) (trace s).

(** The handle that the mode of the cell works through is there. *)
Definition handle_present (c : QuantumMemoryCell) : bool :=
  if is_gpu (backend_mode c) then negb (is_None (gpu_simulators c))
  else negb (is_None (backend c)).

(** The release events of a pool, latest first. *)
Definition released (sims : list CuQuantumSimulator) : list event :=
  rev (map (fun sim => EvRelease (sim_id sim))
           (List.filter sim_has_release sims)).

Definition with_trace (s : state) (tr : trace_t) : state :=
  mkState (quantum_memory_states s) (clock s) tr.

(** ** Example configurations *)

Definition ex_init : (nat -> nat -> Q) * (nat -> Q) :=
  (fun j k => inject_Z (Z.of_nat (j + k)), fun j => inject_Z (Z.of_nat j)).

Definition ex_state0 : state := mkState [] 0 [].

(** Every engine installed. *)
Definition ex_all : imports := mkImports true true true.

(** Qiskit installed, QuantumRingsLib and cuQuantum missing. *)
Definition ex_qiskit_only : imports := mkImports true false false.

(** An environment whose calls all succeed, whose jobs report [status],
    and where a status call or an oversleep takes one tick. *)
Definition ex_env (status : string) (counts : Counts) : environment :=
  mkEnv (fun _ k => inject_Z (Z.of_nat k))
        (fun _ => Returns true)
        (fun _ => Returns tt)
        (fun _ => Returns None)
        (fun _ => Returns ("qr_backend", None))
        (fun tr => match tr with
                   | EvTranspile qc :: _ => Returns qc
                   | _ => Raises (mk_exn RuntimeError "no circuit")
                   end)
        (fun _ => Returns status)
        (fun _ => Returns counts)
        (fun _ => 1%N).

Definition ex_boom : exn := mk_exn RuntimeError "engine failure".

(** As [ex_env], but the simulator of slot 1 fails to measure and to
    release, and the second submitted circuit is rejected. *)
Definition ex_env_failing (counts : Counts) : environment :=
  mkEnv (fun _ k => inject_Z (Z.of_nat k))
        (fun _ => Returns true)
        (fun tr => match tr with
                   | EvRelease 1 :: _ => Raises ex_boom
                   | EvRun _ _ :: rest =>
                       if Nat.eqb (length (List.filter
                                     (fun e => match e with EvRun _ _ => true | _ => false end)
                                     rest)) 1
                       then Raises ex_boom else Returns tt
                   | _ => Returns tt
                   end)
        (fun _ => Returns None)
        (fun _ => Returns ("qr_backend", None))
        (fun tr => match tr with
                   | EvTranspile qc :: _ => Returns qc
                   | _ => Raises (mk_exn RuntimeError "no circuit")
                   end)
        (fun _ => Returns JobStatus.DONE)
        (fun tr => match tr with
                   | EvMeasureShots 1 _ _ :: _ => Raises ex_boom
                   | _ => Returns counts
                   end)
        (fun _ => 1%N).

Definition ex_counts : Counts := [("00", 50); ("01", 30); ("10", 20)].

(** The constructor run on the example sizes, from the initial state. *)
Definition ex_cell (env : environment) (mods : imports) (depth : Z)
    (mode : string) (tok usr : option string) (interval timeout : Z)
    : outcome QuantumMemoryCell * state :=
  __init__ env mods 2 depth 4 mode tok usr "scarlet_quantum_rings"
           interval timeout ex_init ex_init ex_state0.

(** ** The surrounding model: [hybrid_ctm.py] *)

(** [torch.relu(t)] and [nn.ReLU()]. *)
Definition relu (t : Tensor) : Tensor :=
  mkTensor (t_rows t) (t_cols t)
    (map (map (fun x => if Qle_bool 0 x then x else 0%Q)) (t_data t)).

(** [torch.cat((a, b), dim=1)]: the row counts must agree. *)
Definition torch_cat1 (a b : Tensor) : reply Tensor :=
  if Nat.eqb (t_rows a) (t_rows b)
  then Returns (mkTensor (t_rows a) (t_cols a + t_cols b)
                  (zip_with (fun r1 r2 => r1 ++ r2) (t_data a) (t_data b)))
  else Raises (mk_exn RuntimeError "Sizes of tensors must match except in dimension 1").

Module HybridCTM.

(** The attributes the constructor sets.  [output_gate_and_transform] is
    the sequence [gate_in], [ReLU], [gate_out].  The attribute
    [current_hidden_state] is only ever assigned (the hidden batch that
    [forward] also returns) and never read, so it is not a field. *)
Record model := mkModel {
  input_size : nat;
  hidden_size : nat;
  output_size : nat;
  num_memory_slots : Z;
  input_layer : Linear;
  query_generator : Linear;
  quantum_memory : QuantumMemoryCell;
  gate_in : Linear;
  gate_out : Linear
}.

(** The parameter values [nn.Linear] draws for the six layers. *)
Record initial_weights := mkWeights {
  w_input : (nat -> nat -> Q) * (nat -> Q);
  w_query : (nat -> nat -> Q) * (nat -> Q);
  w_encoding : (nat -> nat -> Q) * (nat -> Q);
  w_decoding : (nat -> nat -> Q) * (nat -> Q);
  w_gate_in : (nat -> nat -> Q) * (nat -> Q);
  w_gate_out : (nat -> nat -> Q) * (nat -> Q)
}.

(** The constructor; [memory_depth_per_slot] is accepted and unused. *)
Definition __init__ (env : environment) (mods : imports)
    (input hidden output : nat) (slots : Z) (num_qubits_per_slot : nat)
    (memory_depth_per_slot : Z) (mode : string) (tok usr : option string)
    (bname : string) (qr_job_poll_interval qr_job_timeout : Z)
    (w : initial_weights) : M model :=
  cell ← __init__ env mods num_qubits_per_slot slots hidden mode
           tok usr bname qr_job_poll_interval qr_job_timeout
           (w_encoding w) (w_decoding w);
  ret (mkModel input hidden output slots
         (mkLinear input hidden (fst (w_input w)) (snd (w_input w)))
         (mkLinear hidden hidden (fst (w_query w)) (snd (w_query w)))
         cell
         (mkLinear (hidden * 2) hidden (fst (w_gate_in w)) (snd (w_gate_in w)))
         (mkLinear hidden output (fst (w_gate_out w)) (snd (w_gate_out w)))).

(** [forward(x_batch, memory_slot_indices_batch)]: the final output and
    the hidden batch. *)
Definition forward (env : environment) (mods : imports) (fuel : nat)
    (m : model) (x_batch : Tensor) (slots : SlotIndices)
    : M (Tensor * Tensor) :=
  processed_input ← lift (linear_forward (input_layer m) x_batch);
  let current_hidden_state_batch := relu processed_input in
  memory_output_batch ← forward env mods fuel (quantum_memory m)
                          current_hidden_state_batch slots 1024;
  combined ← lift (torch_cat1 current_hidden_state_batch memory_output_batch);
  gated ← lift (linear_forward (gate_in m) combined);
  final_output_batch ← lift (linear_forward (gate_out m) (relu gated));
  ret (final_output_batch, current_hidden_state_batch).

(** What the constructor establishes about the layer sizes. *)
Definition model_ok (mods : imports) (m : model) : bool :=
  cell_ok mods (quantum_memory m)
  && Nat.eqb (classical_hidden_size (quantum_memory m)) (hidden_size m)
  && Nat.eqb (in_features (input_layer m)) (input_size m)
  && Nat.eqb (out_features (input_layer m)) (hidden_size m)
  && Nat.eqb (in_features (gate_in m)) (hidden_size m * 2)
  && Nat.eqb (out_features (gate_in m)) (hidden_size m)
  && Nat.eqb (in_features (gate_out m)) (hidden_size m)
  && Nat.eqb (out_features (gate_out m)) (output_size m).

End HybridCTM.

(** The example model: 3 inputs, 4 hidden units, 2 outputs, 2 slots of
    2 qubits. *)
Definition ex_weights : HybridCTM.initial_weights :=
  HybridCTM.mkWeights ex_init ex_init ex_init ex_init ex_init ex_init.

Definition ex_model (env : environment) (mods : imports) (mode : string)
    : outcome HybridCTM.model * state :=
  HybridCTM.__init__ env mods 3 4 2 2 2 1 mode None None
    "scarlet_quantum_rings" 5 300 ex_weights ex_state0.

(** ** Effect bounds *)

(** Every run of the computation relates the state before to the state
    after by [R]; unless [may_hang] is set, it also comes back. *)
Definition steps (R : state -> state -> Prop) (may_hang : bool) {A}
    (m : M A) : Prop :=
  forall s, R s (snd (m s)) /\ (may_hang = false -> fst (m s) <> Hang).

(** The events added to the trace all satisfy [P]. *)
Definition emitted (P : event -> bool) (s s' : state) : Prop :=
  exists evs, trace s' = evs ++ trace s /\ forallb P evs = true.

Definition same_clock (s s' : state) : Prop := clock s' = clock s.

Definition is_polling_event (e : event) : bool :=
  match e with
  | EvStatus | EvSleep _ => true
  | _ => false
  end.

(** The calls through which [write] drives a GPU simulator. *)
Definition is_simulator_write (e : event) : bool :=
  match e with
  | EvSimReset _ | EvSimRy _ _ _ | EvSimRz _ _ _ => true
  | _ => false
  end.

(** The events [read] can add: diagnostics, random rows, and the calls
    that execute a measurement. *)
Definition is_read_event (e : event) : bool :=
  match e with
  | EvPrint _ | EvRandn _ _ | EvTranspile _ | EvRun _ _ | EvStatus
  | EvResult | EvGetCounts | EvSleep _ | EvMeasureShots _ _ _ => true
  | _ => false
  end.

(** The events [read] can add when it does not poll. *)
Definition is_direct_read_event (e : event) : bool :=
  is_read_event e && negb (is_polling_event e).

Definition no_event (e : event) : bool := false.

(** The events of a GPU write to simulator [sim] with the given angles,
    latest first. *)
Definition gpu_write_events (sim : nat) (angles : list (Q * Q)) : list event :=
  rev (EvSimReset sim
       :: concat (imap (fun q_idx a => [EvSimRy sim (fst a) q_idx;
                                        EvSimRz sim (snd a) q_idx]) angles)).



(** The counts a [DummyJob] reports. *)
Definition dummy_counts (nq : nat) (shots : Z) : Counts :=
  [(str_repeat "0" nq, shots)].

(** The sum of the values of a counts table. *)
Definition total_counts (counts : Counts) : Z :=
  fold_right Z.add 0 (map snd counts).

(** * Properties *)

(** ** The monad *)

Ltac unfold_monad :=
  unfold mbind, mret, M_bind, M_ret, try_except, print, call, lift, log,
    advance, get_store, set_store, time_time, bind, ret, raise, hang in *.

Lemma bind_Ok {A B} (m : M A) (f : A -> M B) s a s' :
  m s = (Ok a, s') -> (x ← m; f x) s = f a s'.
Proof. intros H. unfold_monad. now rewrite H. Qed.

Lemma bind_Raise {A B} (m : M A) (f : A -> M B) s e s' :
  m s = (Raise e, s') -> (x ← m; f x) s = (Raise e, s').
Proof. intros H. unfold_monad. now rewrite H. Qed.

Lemma bind_Hang {A B} (m : M A) (f : A -> M B) s s' :
  m s = (Hang, s') -> (x ← m; f x) s = (Hang, s').
Proof. intros H. unfold_monad. now rewrite H. Qed.

Lemma bind_inv_Ok {A B} (m : M A) (f : A -> M B) s b s' :
  (x ← m; f x) s = (Ok b, s') ->
  exists a s1, m s = (Ok a, s1) /\ f a s1 = (Ok b, s').
Proof.
  unfold_monad. destruct (m s) as [[a|e|] s1]; intros H; try discriminate.
  eauto.
Qed.

(** ** The slot argument *)

Lemma read_tensor env mods fuel c l shots s :
  read env mods fuel c (SlotSeq l) shots s = read_batch env mods fuel c l shots s.
Proof.
  unfold read. cbn [read_indices lift]. unfold_monad.
  now destruct (read_batch _ _ _ _ _ _ _) as [[t|e|] s'].
Qed.

Lemma write_tensor env c hidden l s :
  write env c hidden (SlotSeq l) s = write_batch env c hidden l s.
Proof.
  unfold write. cbn [write_indices lift]. unfold_monad.
  now destruct (write_batch _ _ _ _ _) as [[t|e|] s'].
Qed.

Lemma torch_tensor_fits l :
  forallb fits_int64 l = true -> torch_tensor l = Returns l.
Proof. intros H. unfold torch_tensor. now rewrite H. Qed.

Lemma torch_tensor_overflow l :
  forallb fits_int64 l = false -> torch_tensor l = Raises int64_overflow.
Proof. intros H. unfold torch_tensor. now rewrite H. Qed.

Lemma read_indices_cases slots :
  read_indices slots = Returns (batch_of slots)
  \/ read_indices slots = Raises int64_overflow.
Proof.
  destruct slots as [z|l|l]; cbn [read_indices batch_of]; [| now left |];
    unfold torch_tensor; destruct (forallb _ _); auto.
Qed.

Lemma write_indices_cases slots n :
  (exists l, write_indices slots n = Returns l)
  \/ write_indices slots n = Raises int64_overflow.
Proof.
  destruct slots as [z|l|l]; cbn [write_indices]; [| left; eauto |];
    unfold torch_tensor; destruct (forallb _ _); eauto.
Qed.

Lemma read_converted env mods fuel c slots l shots s :
  read_indices slots = Returns l ->
  read env mods fuel c slots shots s = read_batch env mods fuel c l shots s.
Proof.
  intros H. unfold read. rewrite H. cbn [lift]. unfold_monad.
  now destruct (read_batch _ _ _ _ _ _ _) as [[t|e|] s'].
Qed.

Lemma read_not_converted env mods fuel c slots shots s :
  read_indices slots = Raises int64_overflow ->
  read env mods fuel c slots shots s = (Raise int64_overflow, s).
Proof. intros H. unfold read. now rewrite H. Qed.

Lemma read_inv_Ok env mods fuel c slots shots s t s' :
  read env mods fuel c slots shots s = (Ok t, s') ->
  read_batch env mods fuel c (batch_of slots) shots s = (Ok t, s').
Proof.
  intros H. destruct (read_indices_cases slots) as [Hc | Hc].
  - now rewrite (read_converted _ _ _ _ _ _ _ _ Hc) in H.
  - now rewrite read_not_converted in H.
Qed.

Lemma write_converted env c hidden slots l s :
  write_indices slots (t_rows hidden) = Returns l ->
  write env c hidden slots s = write_batch env c hidden l s.
Proof.
  intros H. unfold write. rewrite H. cbn [lift]. unfold_monad.
  now destruct (write_batch _ _ _ _ _) as [[t|e|] s'].
Qed.

Lemma write_not_converted env c hidden slots s :
  write_indices slots (t_rows hidden) = Raises int64_overflow ->
  write env c hidden slots s = (Raise int64_overflow, s).
Proof. intros H. unfold write. now rewrite H. Qed.

(** ** Probabilities *)

Lemma map_const_repeat {A B} (x : B) (l : list A) :
  map (fun _ => x) l = repeat x (length l).
Proof. induction l as [|a l IH]; simpl; [reflexivity | now rewrite IH]. Qed.

Lemma compute_probs_length nq counts shots :
  length (compute_probs nq counts shots) = nq.
Proof.
  unfold compute_probs, torch_zeros.
  destruct counts; [apply repeat_length |].
  rewrite length_map. apply length_seq.
Qed.

Lemma compute_probs_no_shots nq counts shots :
  shots <= 0 -> compute_probs nq counts shots = torch_zeros nq.
Proof.
  intros Hs. unfold compute_probs, torch_zeros.
  destruct counts as [|kv counts]; [reflexivity |].
  assert ((0 <? shots) = false) as -> by lia.
  rewrite map_const_repeat. now rewrite length_seq.
Qed.

Lemma probs_error_no_shots nq counts shots :
  shots <= 0 -> probs_error nq counts shots = None.
Proof.
  intros Hs. unfold probs_error. destruct counts; [reflexivity |].
  now assert ((0 <? shots) = false) as -> by lia.
Qed.

Lemma float_limits : 2 <= float32_max /\ 2 <= double_limit.
Proof. split; vm_compute; discriminate. Qed.

Lemma float_store_error_within prob1 shots :
  0 < shots -> Z.abs prob1 <= shots -> float_store_error prob1 shots = None.
Proof.
  intros Hs Hp. destruct float_limits as [H32 H64]. unfold float_store_error.
  assert ((double_limit * shots <=? Z.abs prob1) = false) as -> by nia.
  now assert ((float32_max * shots <? Z.abs prob1) = false) as -> by nia.
Qed.

Lemma first_error_none (l : list (option exn)) :
  Forall (fun o => o = None) l -> first_error l = None.
Proof. induction 1 as [|o l -> _ IH]; [reflexivity | exact IH]. Qed.

Lemma decode_without_error c counts shots :
  probs_error (num_qubits c) counts shots = None ->
  decode c counts shots
  = lift (linear_forward (decoding_linear c)
            (unsqueeze0 (compute_probs (num_qubits c) counts shots))).
Proof. intros H. unfold decode. now rewrite H. Qed.

Lemma count_ones_acc nq q (l : Counts) : forall acc,
  fold_left
    (fun prob1 kv =>
       if Nat.eqb (String.length (fst kv)) nq
          && bool_decide (String.get (nq - 1 - q) (fst kv) = Some "1"%char)
       then prob1 + snd kv else prob1) l acc
  = acc + count_ones nq l q.
Proof.
  unfold count_ones. induction l as [|kv l IH]; intros acc; cbn [fold_left].
  - lia.
  - rewrite IH. symmetry. rewrite IH. destruct (_ && _); lia.
Qed.

Lemma count_ones_cons nq kv l q :
  count_ones nq (kv :: l) q = count_ones nq [kv] q + count_ones nq l q.
Proof.
  unfold count_ones at 1 2. cbn [fold_left]. rewrite count_ones_acc. lia.
Qed.

Lemma count_ones_app nq l1 l2 q :
  count_ones nq (l1 ++ l2) q = count_ones nq l1 q + count_ones nq l2 q.
Proof.
  induction l1 as [|kv l1 IH]; [reflexivity |].
  cbn [app]. rewrite count_ones_cons, (count_ones_cons nq kv l1), IH. lia.
Qed.

Lemma count_ones_perm nq l1 l2 q :
  Permutation l1 l2 -> count_ones nq l1 q = count_ones nq l2 q.
Proof.
  induction 1 as [|kv l1 l2 _ IH|kv1 kv2 l|l1 l2 l3 _ IH1 _ IH2].
  - reflexivity.
  - rewrite count_ones_cons, (count_ones_cons nq kv l2). lia.
  - rewrite (count_ones_cons nq kv2 (kv1 :: l)), (count_ones_cons nq kv1 l),
      (count_ones_cons nq kv1 (kv2 :: l)), (count_ones_cons nq kv2 l).
    lia.
  - lia.
Qed.

Lemma count_ones_single nq key n q :
  count_ones nq [(key, n)] q
  = if Nat.eqb (String.length key) nq
       && bool_decide (String.get (nq - 1 - q) key = Some "1"%char)
    then n else 0.
Proof. unfold count_ones. cbn. now destruct (_ && _). Qed.

Lemma count_ones_between nq (counts : Counts) q :
  Forall (fun kv => 0 <= snd kv) counts ->
  0 <= count_ones nq counts q <= total_counts counts.
Proof.
  unfold total_counts.
  induction 1 as [|kv l Hkv _ IH]; [cbn; lia |].
  destruct kv as [key n].
  rewrite count_ones_cons, count_ones_single. cbn [map fold_right].
  cbn [fst snd] in *. destruct (_ && _); lia.
Qed.

Lemma probs_error_measured nq (counts : Counts) shots :
  Forall (fun kv => 0 <= snd kv) counts ->
  total_counts counts <= shots ->
  probs_error nq counts shots = None.
Proof.
  intros Hpos Htot. unfold probs_error.
  destruct counts as [|kv counts]; [reflexivity |].
  destruct (0 <? shots) eqn:Hs; [| reflexivity].
  apply first_error_none. apply List.Forall_forall. intros o Ho.
  apply in_map_iff in Ho. destruct Ho as [q [<- _]].
  pose proof (count_ones_between nq (kv :: counts) q Hpos).
  apply float_store_error_within; lia.
Qed.

(** C8.  With [shots = 0], whatever the counts, every per-qubit
    probability computed by [read] is the rational [0], and the decoder is
    applied to the all-zero probability vector. *)
Theorem zero_shots_all_zero_probabilities :
  forall (c : QuantumMemoryCell) (nq : nat) (counts : Counts),
    compute_probs nq counts 0 = repeat 0%Q nq
    /\ decode c counts 0
       = lift (linear_forward (decoding_linear c)
                 (unsqueeze0 (repeat 0%Q (num_qubits c)))).
Proof.
  intros c nq counts. split.
  - apply compute_probs_no_shots. lia.
  - rewrite decode_without_error by (apply probs_error_no_shots; lia).
    rewrite compute_probs_no_shots by lia. reflexivity.
Qed.

(** C2, as the code computes it.  For the counts table
    [{"00": 50, "01": 30, "10": 20}] with two qubits and 100 shots, qubit 0
    is read from the rightmost character: only ["01"] counts for it, so its
    probability is 30/100 = 0.3; qubit 1 is read from the leftmost
    character and gets 20/100 = 0.2. *)
Theorem crafted_counts_probabilities :
  count_ones 2 ex_counts 0 = 30
  /\ count_ones 2 ex_counts 1 = 20
  /\ Forall2 Qeq (compute_probs 2 ex_counts 100) [3 # 10; 1 # 5]%Q.
Proof.
  split; [reflexivity |]. split; [reflexivity |].
  repeat constructor; reflexivity.
Qed.

(** C2 as stated fails: the probability of qubit 0 is not 0.5. *)
Lemma crafted_counts_qubit0_not_half :
  exists p : Q, compute_probs 2 ex_counts 100 !! 0%nat = Some p
                /\ ~ (p == 1 # 2)%Q.
Proof.
  exists (30 # 100)%Q. split; [reflexivity |].
  intros H. discriminate H.
Qed.

(** ** Construction *)

(** C3, as the code behaves.  The constructor raises for a non-GPU mode
    without Qiskit, for the GPU mode without cuQuantum, and for an
    unsupported mode.  The qr-cloud mode with Qiskit installed never fails
    for want of QuantumRingsLib or of credentials: without the library the
    cell is built around the module's stand-in [BackendV2], and with the
    library but without token or user name around the backend that
    [BackendV2(None, num_qubits)] returns. *)
Theorem constructor_configuration_errors :
  forall env mods nq depth hidden mode tok usr bname interval timeout ei di s,
    let init := __init__ env mods nq depth hidden mode tok usr bname
                         interval timeout ei di s in
    (is_gpu mode = false -> HAS_QISKIT mods = false ->
     init = (Raise (mk_exn ImportError "Qiskit is required for this backend_mode."), s))
    /\ (is_gpu mode = true -> HAS_CUQUANTUM mods = false ->
        exists s',
          init = (Raise (mk_exn RuntimeError
                    "cuQuantum not found, but backend_mode='gpu' was requested."), s'))
    /\ (is_gpu mode = false -> is_qr_cloud mode = false ->
        is_cpu_qiskit mode = false -> HAS_QISKIT mods = true ->
        exists s',
          init = (Raise (mk_exn ValueError ("Unsupported backend_mode: " +:+ mode)), s'))
    /\ (is_qr_cloud mode = true -> HAS_QISKIT mods = true ->
        HAS_QUANTUM_RINGS mods = false ->
        exists c s',
          init = (Ok c, s') /\ backend c = Some (DummyBackendV2 nq))
    /\ (is_qr_cloud mode = true -> HAS_QISKIT mods = true ->
        HAS_QUANTUM_RINGS mods = true ->
        truthy_str tok && truthy_str usr = false ->
        forall b, (forall tr, env_backend_v2 env tr = Returns b) ->
        exists c s',
          init = (Ok c, s') /\ backend c = Some (ExternalQR (fst b) (snd b))).
Proof.
  intros env mods nq depth hidden mode tok usr bname interval timeout ei di s init.
  subst init. unfold __init__, init_backend, BackendV2.
  repeat split.
  - intros -> ->. reflexivity.
  - intros Hg Hc. rewrite Hg, Hc, andb_false_r.
    unfold_monad. cbn. eauto.
  - intros Hg Hq Hcpu Hk. rewrite Hg, Hq, Hcpu, Hk.
    unfold_monad. cbn. eauto.
  - intros Hq Hk Hr.
    assert (is_gpu mode = false) as Hg.
    { unfold is_gpu, is_qr_cloud in *. apply String.eqb_eq in Hq. now subst. }
    rewrite Hg, Hq, Hk, Hr. unfold_monad. cbn. eauto.
  - intros Hq Hk Hr Hcred b Hb.
    assert (is_gpu mode = false) as Hg.
    { unfold is_gpu, is_qr_cloud in *. apply String.eqb_eq in Hq. now subst. }
    rewrite Hg, Hq, Hk, Hr. cbn [negb andb].
    rewrite Hcred. unfold_monad. cbn. rewrite Hb. cbn. eauto.
Qed.

Lemma constructor_configuration_errors_witness :
  exists c s',
    ex_cell (ex_env JobStatus.DONE ex_counts) ex_qiskit_only 1 "qr-cloud"
            None None 5 300 = (Ok c, s')
    /\ backend c = Some (DummyBackendV2 2).
Proof.
  apply (constructor_configuration_errors
           (ex_env JobStatus.DONE ex_counts) ex_qiskit_only 2 1 4 "qr-cloud"
           None None "scarlet_quantum_rings" 5 300 ex_init ex_init ex_state0);
    reflexivity.
Defined.

(** C3 as stated fails: with Qiskit installed and QuantumRingsLib missing,
    constructing a qr-cloud cell without credentials raises nothing and
    yields a cell whose backend is the stand-in [BackendV2]. *)
Lemma qr_cloud_without_library_builds_dummy_backend :
  match ex_cell (ex_env JobStatus.DONE ex_counts) ex_qiskit_only 1 "qr-cloud"
                None None 5 300 with
  | (Ok c, _) => backend c = Some (DummyBackendV2 2)
  | _ => False
  end.
Proof. reflexivity. Qed.

(** ** Teardown *)

Lemma release_all_app env pre post s :
  release_all env (pre ++ post) s
  = match release_all env pre s with
    | (Ok _, s1) => release_all env post s1
    | r => r
    end.
Proof.
  revert s. induction pre as [|sim pre IH]; intros s; [reflexivity |].
  cbn [app release_all]. unfold_monad.
  destruct (sim_has_release sim); cbn.
  - destruct (env_unit env _) as [[]|e]; cbn; [apply IH | reflexivity].
  - apply IH.
Qed.

Lemma release_all_succeeds env sims s :
  (forall tr k, env_unit env (EvRelease k :: tr) = Returns tt) ->
  release_all env sims s = (Ok tt, with_trace s (released sims ++ trace s)).
Proof.
  intros Hok. revert s. induction sims as [|sim sims IH]; intros s.
  - destruct s; reflexivity.
  - cbn [release_all]. unfold released. cbn [List.filter].
    destruct (sim_has_release sim); unfold_monad; cbn.
    + rewrite Hok. cbn. rewrite IH. unfold with_trace, released. cbn.
      now rewrite <- app_assoc.
    + apply IH.
Qed.

(** C9, as the code behaves.  Discarding a cell whose pool is [None] or
    empty releases nothing and does not raise.  Discarding a GPU cell
    calls [release] once on each simulator of the pool that has one, in
    pool order, provided every call returns.  A release that raises is not
    suppressed: the exception leaves [__del__] at once, after the releases
    of the simulators before it. *)
Theorem teardown_releases_until_first_failure :
  forall env c s,
    (truthy_list (gpu_simulators c) = false -> __del__ env c s = (Ok tt, s))
    /\ (forall sims,
          is_gpu (backend_mode c) = true -> gpu_simulators c = Some sims ->
          sims <> [] ->
          (forall tr k, env_unit env (EvRelease k :: tr) = Returns tt) ->
          __del__ env c s
          = (Ok tt, with_trace s
                      (EvPrint "[QuantumMemoryCell] Released cuQuantum simulators."
                       :: released sims ++ trace s)))
    /\ (forall pre sim post s1 e,
          is_gpu (backend_mode c) = true ->
          gpu_simulators c = Some (pre ++ sim :: post) ->
          release_all env pre s = (Ok tt, s1) ->
          sim_has_release sim = true ->
          env_unit env (EvRelease (sim_id sim) :: trace s1) = Raises e ->
          __del__ env c s
          = (Raise e, with_trace s1 (EvRelease (sim_id sim) :: trace s1))).
Proof.
  intros env c s. unfold __del__. repeat split.
  - intros ->. now rewrite andb_false_r.
  - intros sims Hg Hs Hne Hok. rewrite Hg, Hs.
    destruct sims as [|sim sims]; [congruence |]. cbn [truthy_list andb].
    change (default [] (Some ?x)) with x.
    erewrite bind_Ok by (apply release_all_succeeds; exact Hok).
    reflexivity.
  - intros pre sim post s1 e Hg Hs Hpre Hrel He. rewrite Hg, Hs.
    assert (truthy_list (Some (pre ++ sim :: post)) = true) as ->
      by (destruct pre; reflexivity).
    cbn [andb]. apply bind_Raise. change (default [] (Some ?x)) with x.
    rewrite release_all_app, Hpre. cbn [release_all]. rewrite Hrel.
    apply bind_Raise. unfold_monad. cbn. rewrite He. reflexivity.
Qed.

Lemma teardown_releases_until_first_failure_witness :
  match ex_cell (ex_env JobStatus.DONE ex_counts) ex_all 2 "gpu" None None 5 300 with
  | (Ok c, s) =>
      __del__ (ex_env JobStatus.DONE ex_counts) c s
      = (Ok tt, with_trace s
                  (EvPrint "[QuantumMemoryCell] Released cuQuantum simulators."
                   :: EvRelease 1 :: EvRelease 0 :: trace s))
  | _ => False
  end.
Proof.
  destruct (ex_cell _ _ _ _ _ _ _ _) as [[c|e|] s] eqn:E;
    try (vm_compute in E; discriminate E).
  vm_compute in E. injection E as <- <-.
  match goal with
  | |- __del__ ?env ?c ?s = _ =>
      apply (proj1 (proj2 (teardown_releases_until_first_failure env c s))
               [mkSim 0 true; mkSim 1 true]);
        [reflexivity | reflexivity | discriminate | reflexivity]
  end.
Defined.

(** C9 as stated fails: when the release of the simulator of slot 1
    raises, [__del__] raises too and the simulator of slot 2 is never
    released. *)
Lemma release_failure_aborts_teardown :
  match ex_cell (ex_env JobStatus.DONE ex_counts) ex_all 3 "gpu" None None 5 300 with
  | (Ok c, s) =>
      exists s',
        __del__ (ex_env_failing ex_counts) c s = (Raise ex_boom, s')
        /\ In (EvRelease 0) (trace s')
        /\ In (EvRelease 1) (trace s')
        /\ ~ In (EvRelease 2) (trace s')
  | _ => False
  end.
Proof.
  cbn. eexists. split; [reflexivity |]. cbn.
  repeat split; [tauto | tauto |].
  intros H. repeat (destruct H as [H|H]; [discriminate H |]). exact H.
Qed.

(** ** The slot store is read-only for [read] *)

Lemma preserves_ret {A} (a : A) : preserves_store (ret a).
Proof. intros s. reflexivity. Qed.

Lemma preserves_raise {A} e : preserves_store (@raise A e).
Proof. intros s. reflexivity. Qed.

Lemma preserves_hang {A} : preserves_store (@hang A).
Proof. intros s. reflexivity. Qed.

Lemma preserves_lift {A} (r : reply A) : preserves_store (lift r).
Proof. intros s. destruct r; reflexivity. Qed.

Lemma preserves_bind {A B} (m : M A) (f : A -> M B) :
  preserves_store m -> (forall a, preserves_store (f a)) ->
  preserves_store (x ← m; f x).
Proof.
  intros Hm Hf s. specialize (Hm s). unfold_monad.
  destruct (m s) as [[a|e|] s1]; cbn in *; try assumption.
  now rewrite Hf.
Qed.

Lemma preserves_try {A} (m : M A) (h : exn -> M A) :
  preserves_store m -> (forall e, preserves_store (h e)) ->
  preserves_store (try_except m h).
Proof.
  intros Hm Hh s. specialize (Hm s). unfold_monad.
  destruct (m s) as [[a|e|] s1]; cbn in *; try assumption.
  now rewrite Hh.
Qed.

Lemma preserves_print msg : preserves_store (print msg).
Proof. intros s. reflexivity. Qed.

Lemma preserves_log ev : preserves_store (log ev).
Proof. intros s. reflexivity. Qed.

Lemma preserves_call {A} ev (oracle : trace_t -> reply A) :
  preserves_store (call ev oracle).
Proof. intros s. unfold call. now destruct (oracle _). Qed.

Lemma preserves_advance d : preserves_store (advance d).
Proof. intros s. reflexivity. Qed.

Lemma preserves_get_store : preserves_store get_store.
Proof. intros s. reflexivity. Qed.

Lemma preserves_time_time : preserves_store time_time.
Proof. intros s. reflexivity. Qed.

Lemma preserves_trace : preserves_store (fun s => (Ok (trace s), s)).
Proof. intros s. reflexivity. Qed.

Lemma preserves_randn env r c : preserves_store (torch_randn env r c).
Proof. intros s. reflexivity. Qed.

Lemma preserves_index {A} (l : list A) z : preserves_store (index l z).
Proof. intros s. unfold index. now destruct (l !! _). Qed.

Create HintDb preserves.
#[local] Hint Resolve preserves_ret preserves_raise preserves_hang preserves_lift
  preserves_print preserves_log preserves_call preserves_advance
  preserves_get_store preserves_time_time preserves_trace preserves_randn
  preserves_index : preserves.

(** Walk through a computation built from binds, handlers and tests. *)
Ltac preserves_tac :=
  repeat first
    [ progress intros
    | apply preserves_bind
    | apply preserves_try
    | solve [auto with preserves]
    | match goal with
      | |- preserves_store (if ?b then _ else _) => destruct b
      | |- preserves_store (match ?x with _ => _ end) => destruct x
      end ].

Lemma preserves_time_sleep env secs : preserves_store (time_sleep env secs).
Proof. unfold time_sleep. preserves_tac. Qed.

Lemma preserves_job_status env job : preserves_store (job_status env job).
Proof. unfold job_status. preserves_tac. Qed.

Lemma preserves_job_counts env job : preserves_store (job_counts env job).
Proof. unfold job_counts. preserves_tac. Qed.

Lemma preserves_backend_run env c tqc shots :
  preserves_store (backend_run env c tqc shots).
Proof. unfold backend_run. preserves_tac. Qed.

#[local] Hint Resolve preserves_time_sleep preserves_job_status
  preserves_job_counts preserves_backend_run : preserves.

Lemma preserves_poll env fuel c i slot_idx start job :
  preserves_store (poll env fuel c i slot_idx start job).
Proof.
  revert job. induction fuel as [|fuel IH]; intros job; cbn [poll].
  - apply preserves_hang.
  - preserves_tac.
Qed.

#[local] Hint Resolve preserves_poll : preserves.

Lemma preserves_execute env fuel c i slot_idx qc shots :
  preserves_store (execute env fuel c i slot_idx qc shots).
Proof. unfold execute. preserves_tac. Qed.

#[local] Hint Resolve preserves_execute : preserves.

Lemma preserves_read_item env mods fuel c shots i slot_idx :
  preserves_store (read_item env mods fuel c shots i slot_idx).
Proof.
  unfold read_item, gpu_measure, the_blueprint, run_blueprint, item_fallback,
    the_simulators, decode.
  preserves_tac.
Qed.

Lemma preserves_read_loop env mods fuel c shots i idxs :
  preserves_store (read_loop env mods fuel c shots i idxs).
Proof.
  revert i. induction idxs as [|slot_idx idxs IH]; intros i; cbn [read_loop].
  - apply preserves_ret.
  - pose proof (preserves_read_item env mods fuel c shots i slot_idx).
    preserves_tac.
Qed.

(** ** Shapes *)

Lemma torch_randn_spec env r c s :
  exists t,
    torch_randn env r c s = (Ok t, with_trace s (EvRandn r c :: trace s))
    /\ shape t = (r, c) /\ tensor_wf t = true.
Proof.
  unfold torch_randn. eexists. split; [reflexivity |]. split; [reflexivity |].
  unfold tensor_wf. cbn. rewrite length_map, length_seq, Nat.eqb_refl. cbn.
  apply forallb_forall. intros row Hrow. apply in_map_iff in Hrow.
  destruct Hrow as [i [<- _]]. rewrite length_map, length_seq.
  apply Nat.eqb_refl.
Qed.

Lemma linear_forward_row (l : Linear) (v : list Q) :
  length v = in_features l ->
  exists t, linear_forward l (unsqueeze0 v) = Returns t
            /\ is_row (out_features l) t.
Proof.
  intros Hlen. unfold linear_forward, unsqueeze0. cbn.
  rewrite Hlen, Nat.eqb_refl. eexists. split; [reflexivity |].
  split; [reflexivity |]. unfold tensor_wf. cbn.
  now rewrite length_map, length_seq, Nat.eqb_refl.
Qed.

Lemma cell_ok_decoder mods c :
  cell_ok mods c = true ->
  in_features (decoding_linear c) = num_qubits c
  /\ out_features (decoding_linear c) = classical_hidden_size c.
Proof.
  unfold cell_ok. intros H.
  repeat (apply andb_prop in H; destruct H as [H ?]).
  split; now apply Nat.eqb_eq.
Qed.

Lemma cell_ok_encoder mods c :
  cell_ok mods c = true ->
  in_features (encoding_linear c) = classical_hidden_size c
  /\ out_features (encoding_linear c) = (num_qubits c * 2)%nat.
Proof.
  unfold cell_ok. intros H.
  repeat (apply andb_prop in H; destruct H as [H ?]).
  split; now apply Nat.eqb_eq.
Qed.

Lemma cell_ok_qiskit mods c :
  cell_ok mods c = true -> is_gpu (backend_mode c) = false ->
  HAS_QISKIT mods = true.
Proof.
  unfold cell_ok. intros H Hg. rewrite Hg in H.
  apply andb_prop in H. destruct H as [_ H].
  apply andb_prop in H. now destruct H as [H _].
Qed.

Lemma decode_row mods c counts shots s :
  cell_ok mods c = true ->
  probs_error (num_qubits c) counts shots = None ->
  exists t, decode c counts shots s = (Ok t, s)
            /\ linear_forward (decoding_linear c)
                 (unsqueeze0 (compute_probs (num_qubits c) counts shots))
               = Returns t
            /\ is_row (classical_hidden_size c) t.
Proof.
  intros Hok Herr. destruct (cell_ok_decoder _ _ Hok) as [Hin Hout].
  destruct (linear_forward_row (decoding_linear c)
              (compute_probs (num_qubits c) counts shots)) as [t [Ht Hrow]].
  { now rewrite compute_probs_length. }
  exists t. rewrite decode_without_error by exact Herr.
  rewrite Ht, <- Hout. auto.
Qed.

Lemma decode_raises c counts shots e s :
  probs_error (num_qubits c) counts shots = Some e ->
  decode c counts shots s = (Raise e, s).
Proof. intros H. unfold decode. now rewrite H. Qed.

Lemma decode_inv_Ok mods c counts shots s t s' :
  cell_ok mods c = true ->
  decode c counts shots s = (Ok t, s') ->
  probs_error (num_qubits c) counts shots = None
  /\ s' = s /\ is_row (classical_hidden_size c) t.
Proof.
  intros Hok H.
  destruct (probs_error (num_qubits c) counts shots) as [e|] eqn:Herr.
  { now rewrite (decode_raises _ _ _ _ _ Herr) in H. }
  destruct (decode_row mods c counts shots s Hok Herr) as [t' [Ht [_ Hrow]]].
  rewrite Ht in H. injection H as <- <-. auto.
Qed.

Lemma run_blueprint_cases env mods fuel c shots i slot_idx qc s :
  run_blueprint env mods fuel c shots i slot_idx qc s
  = match execute env fuel c i slot_idx
            (measurement_circuit mods c i slot_idx qc) shots s with
    | (Ok counts, s') => (Ok (inr counts), s')
    | (Raise e, s') => item_fallback env c i slot_idx e s'
    | (Hang, s') => (Hang, s')
    end.
Proof.
  unfold run_blueprint. unfold_monad.
  now destruct (execute _ _ _ _ _ _ _ _) as [[counts|e|] s'].
Qed.

Lemma item_fallback_spec env c i slot_idx e s :
  exists row,
    item_fallback env c i slot_idx e s
    = (Ok (inl row),
       with_trace s (EvRandn 1 (classical_hidden_size c)
                     :: EvPrint (item_error c i slot_idx e) :: trace s))
    /\ is_row (classical_hidden_size c) row.
Proof.
  unfold item_fallback.
  destruct (torch_randn_spec env 1 (classical_hidden_size c)
              (with_trace s (EvPrint (item_error c i slot_idx e) :: trace s)))
    as [row [Hrow Hshape]].
  exists row. split; [| exact Hshape].
  unfold_monad. cbn. unfold with_trace in Hrow. cbn in Hrow.
  now rewrite Hrow.
Qed.

Lemma read_item_row env mods fuel c shots i slot_idx s row s' :
  cell_ok mods c = true ->
  read_item env mods fuel c shots i slot_idx s = (Ok row, s') ->
  is_row (classical_hidden_size c) row.
Proof.
  intros Hok. unfold read_item.
  destruct (negb (in_bounds c slot_idx)); [discriminate |].
  intros H. apply bind_inv_Ok in H. destruct H as [r [s1 [Hr Hdec]]].
  destruct r as [row1 | counts].
  - injection Hdec as <- <-.
    destruct (is_gpu (backend_mode c)).
    + unfold gpu_measure in Hr.
      apply bind_inv_Ok in Hr. destruct Hr as [sims [s2 [_ Hr]]].
      apply bind_inv_Ok in Hr. destruct Hr as [sim [s3 [_ Hr]]].
      apply bind_inv_Ok in Hr. destruct Hr as [cnt [s4 [_ Hr]]].
      discriminate Hr.
    + apply bind_inv_Ok in Hr. destruct Hr as [qc [s2 [_ Hr]]].
      rewrite run_blueprint_cases in Hr.
      destruct (execute _ _ _ _ _ _ _ _) as [[counts|e|] s3]; try discriminate.
      destruct (item_fallback_spec env c i slot_idx e s3) as [row [Hf Hrow]].
      rewrite Hf in Hr. now injection Hr as <- <-.
  - now destruct (decode_inv_Ok _ _ _ _ _ _ _ Hok Hdec) as [_ [_ Hrow]].
Qed.

Lemma read_loop_rows env mods fuel c shots idxs :
  cell_ok mods c = true ->
  forall i s outs s',
    read_loop env mods fuel c shots i idxs s = (Ok outs, s') ->
    length outs = length idxs /\ Forall (is_row (classical_hidden_size c)) outs.
Proof.
  intros Hok. induction idxs as [|slot_idx idxs IH]; intros i s outs s' H.
  - injection H as <- <-. split; [reflexivity | constructor].
  - cbn [read_loop] in H.
    apply bind_inv_Ok in H. destruct H as [row [s1 [Hrow H]]].
    apply bind_inv_Ok in H. destruct H as [rest [s2 [Hrest H]]].
    injection H as <- <-.
    destruct (IH _ _ _ _ Hrest) as [Hlen Hall].
    split; [cbn; now rewrite Hlen |].
    constructor; [| exact Hall]. eapply read_item_row; eassumption.
Qed.

Lemma torch_cat_rows hidden (outs : list Tensor) :
  outs <> [] -> Forall (is_row hidden) outs ->
  exists t, torch_cat outs = Returns t
            /\ shape t = (length outs, hidden) /\ tensor_wf t = true.
Proof.
  intros Hne Hall.
  assert (forallb (fun u => Nat.eqb (t_cols u) hidden) outs = true) as Hcols.
  { apply forallb_forall. intros u Hu.
    rewrite Forall_forall in Hall. destruct (Hall u) as [Hs _].
    { now apply list_elem_of_In. }
    unfold shape in Hs. injection Hs as _ ->. apply Nat.eqb_refl. }
  assert (list_sum (map t_rows outs) = length outs) as Hrows.
  { clear Hne Hcols. induction Hall as [|u outs [Hs _] _ IH]; [reflexivity |].
    unfold shape in Hs. injection Hs as Hr _.
    unfold list_sum in *. cbn [map fold_right length]. now rewrite Hr, IH. }
  assert (length (concat (map t_data outs)) = length outs
          /\ forallb (fun r => Nat.eqb (length r) hidden)
               (concat (map t_data outs)) = true) as [Hlen Hdata].
  { clear Hne Hcols Hrows.
    induction Hall as [|u outs [Hs Hwf] _ [IH1 IH2]]; [split; reflexivity |].
    unfold shape in Hs. injection Hs as Hr Hc. unfold tensor_wf in Hwf.
    apply andb_prop in Hwf. destruct Hwf as [Hl Hf].
    apply Nat.eqb_eq in Hl. rewrite Hr in Hl. rewrite Hc in Hf.
    cbn [map concat]. rewrite length_app, forallb_app, Hl, IH1, Hf, IH2.
    split; reflexivity. }
  destruct outs as [|t outs]; [congruence |].
  unfold torch_cat.
  assert (t_cols t = hidden) as Ht.
  { cbn in Hcols. apply andb_prop in Hcols. now apply Nat.eqb_eq. }
  rewrite Ht, Hcols. eexists. split; [reflexivity |].
  unfold shape, tensor_wf. cbn [t_rows t_cols t_data].
  rewrite Hrows, Hlen, Hdata, Nat.eqb_refl. auto.
Qed.

Lemma print_then_randn env msg r c s :
  exists t,
    (_ ← print msg; torch_randn env r c) s
    = (Ok t, with_trace s (EvRandn r c :: EvPrint msg :: trace s))
    /\ shape t = (r, c) /\ tensor_wf t = true.
Proof.
  destruct (torch_randn_spec env r c (with_trace s (EvPrint msg :: trace s)))
    as [t [Ht Hshape]].
  exists t. split; [| exact Hshape].
  unfold_monad. cbn. unfold with_trace in Ht. cbn in Ht. now rewrite Ht.
Qed.

(** C7.  Whenever [read] returns a tensor, in any backend mode and
    whether the items were decoded, fell back on an error, or the backend
    handle was absent, the tensor has shape
    [(batch size, classical_hidden_size)] and data of that shape.  For an
    empty batch [read] does return, with shape
    [(0, classical_hidden_size)], and no call reaches a backend. *)
Theorem read_output_shape :
  forall env mods fuel c slots shots s,
    cell_ok mods c = true ->
    (forall t s',
        read env mods fuel c slots shots s = (Ok t, s') ->
        shape t = (length (batch_of slots), classical_hidden_size c)
        /\ tensor_wf t = true)
    /\ (batch_of slots = [] ->
        exists t s',
          read env mods fuel c slots shots s = (Ok t, s')
          /\ shape t = (0%nat, classical_hidden_size c)
          /\ backend_calls (trace s') = backend_calls (trace s)).
Proof.
  intros env mods fuel c slots shots s Hok. split.
  - intros t s' H. apply read_inv_Ok in H. unfold read_batch in H.
    destruct (negb (is_gpu (backend_mode c)) && is_None (backend c)).
    { destruct (print_then_randn env
                  ("ERROR: Qiskit-based backend not available for mode '"
                   +:+ backend_mode c +:+ "'.")
                  (length (batch_of slots)) (classical_hidden_size c) s)
        as [t' [Ht' Hshape]].
      rewrite Ht' in H. now injection H as <- <-. }
    destruct (is_gpu (backend_mode c) && is_None (gpu_simulators c)).
    { destruct (print_then_randn env
                  "ERROR: GPU simulators not available for mode 'gpu'."
                  (length (batch_of slots)) (classical_hidden_size c) s)
        as [t' [Ht' Hshape]].
      rewrite Ht' in H. now injection H as <- <-. }
    apply bind_inv_Ok in H. destruct H as [outs [s1 [Hloop H]]].
    destruct (read_loop_rows _ _ _ _ _ _ Hok _ _ _ _ Hloop) as [Hlen Hall].
    destruct outs as [|row outs].
    + injection H as <- <-. rewrite <- Hlen. split; reflexivity.
    + destruct (torch_cat_rows (classical_hidden_size c) (row :: outs))
        as [t' [Ht' [Hshape Hwf]]]; [discriminate | exact Hall |].
      rewrite Ht' in H. injection H as <- <-.
      rewrite <- Hlen. auto.
  - intros Hnil. rewrite (read_converted _ _ _ _ _ []).
    2:{ destruct slots as [z|l|l]; cbn [batch_of] in Hnil; [discriminate | |];
          subst l; reflexivity. }
    unfold read_batch.
    destruct (negb (is_gpu (backend_mode c)) && is_None (backend c)).
    { destruct (print_then_randn env
                  ("ERROR: Qiskit-based backend not available for mode '"
                   +:+ backend_mode c +:+ "'.")
                  0 (classical_hidden_size c) s) as [t' [Ht' [Hshape _]]].
      exists t'. eexists. split; [exact Ht' |]. split; [exact Hshape |].
      reflexivity. }
    destruct (is_gpu (backend_mode c) && is_None (gpu_simulators c)).
    { destruct (print_then_randn env
                  "ERROR: GPU simulators not available for mode 'gpu'."
                  0 (classical_hidden_size c) s) as [t' [Ht' [Hshape _]]].
      exists t'. eexists. split; [exact Ht' |]. split; [exact Hshape |].
      reflexivity. }
    exists (torch_empty0 (classical_hidden_size c)), s.
    split; [reflexivity |]. split; reflexivity.
Qed.

(** Build the example cell, then work on the cell itself. *)
Ltac build_cell :=
  match goal with
  | |- context [ex_cell ?env ?mods ?depth ?mode ?tok ?usr ?iv ?tmo] =>
      let E := fresh "E" in
      destruct (ex_cell env mods depth mode tok usr iv tmo) as [[?c|?e|] ?s] eqn:E;
      try (vm_compute in E; discriminate E);
      vm_compute in E; injection E as <- <-
  end.

Lemma read_output_shape_witness :
  match ex_cell (ex_env JobStatus.DONE ex_counts) ex_all 3 "cpu-qiskit"
                None None 5 300 with
  | (Ok c, s) =>
      exists t s',
        read (ex_env_failing ex_counts) ex_all 10 c (SlotSeq [0; 1; 2]) 100 s
        = (Ok t, s')
        /\ shape t = (3%nat, 4%nat) /\ tensor_wf t = true
  | _ => False
  end.
Proof.
  build_cell.
  match goal with
  | |- exists t s', read ?env ?mods ?fuel ?c ?slots ?shots ?s = _ /\ _ =>
      destruct (read env mods fuel c slots shots s) as [[t|e|] s'] eqn:R;
      try (vm_compute in R; discriminate R);
      exists t, s'; split; [reflexivity |];
      exact (proj1 (read_output_shape env mods fuel c slots shots s eq_refl) t s' R)
  end.
Defined.

(** ** The loop of [read] *)

Lemma read_loop_app env mods fuel c shots xs ys :
  forall i s,
    read_loop env mods fuel c shots i (xs ++ ys) s
    = match read_loop env mods fuel c shots i xs s with
      | (Ok outs1, s1) =>
          match read_loop env mods fuel c shots (i + length xs) ys s1 with
          | (Ok outs2, s2) => (Ok (outs1 ++ outs2), s2)
          | (Raise e, s2) => (Raise e, s2)
          | (Hang, s2) => (Hang, s2)
          end
      | (Raise e, s1) => (Raise e, s1)
      | (Hang, s1) => (Hang, s1)
      end.
Proof.
  induction xs as [|x xs IH]; intros i s.
  - cbn [app read_loop length]. unfold ret at 1. rewrite Nat.add_0_r.
    now destruct (read_loop _ _ _ _ _ _ ys s) as [[outs|e|] s2].
  - cbn [app read_loop length]. unfold_monad.
    destruct (read_item env mods fuel c shots i x s) as [[row|e|] s1];
      try reflexivity.
    rewrite IH. replace (i + S (length xs))%nat with (S i + length xs)%nat by lia.
    destruct (read_loop env mods fuel c shots (S i) xs s1) as [[outs1|e|] s2];
      try reflexivity.
    now destruct (read_loop _ _ _ _ _ _ ys s2) as [[outs2|e|] s3].
Qed.

Lemma read_item_out_of_bounds env mods fuel c shots i slot_idx s :
  in_bounds c slot_idx = false ->
  read_item env mods fuel c shots i slot_idx s
  = (Raise (out_of_bounds slot_idx i), s).
Proof. intros H. unfold read_item. now rewrite H. Qed.

Lemma in_bounds_lookup {A} c (l : list A) slot_idx :
  in_bounds c slot_idx = true -> length l = Z.to_nat (memory_depth c) ->
  exists a, l !! Z.to_nat slot_idx = Some a.
Proof.
  unfold in_bounds. intros Hb Hlen.
  apply andb_prop in Hb. destruct Hb as [H0 H1].
  apply lookup_lt_is_Some. lia.
Qed.

Lemma the_blueprint_lookup c i slot_idx s slot :
  quantum_memory_states s !! Z.to_nat slot_idx = Some slot ->
  the_blueprint c i slot_idx s
  = match slot with
    | Some qc => (Ok qc, s)
    | None => (Ok (empty_blueprint c i slot_idx),
               with_trace s (EvPrint (no_blueprint_warning c slot_idx)
                             :: trace s))
    end.
Proof.
  intros Hslot. unfold the_blueprint, index. unfold_monad. cbn.
  rewrite Hslot. destruct slot; reflexivity.
Qed.

Lemma decode_raises_only_range mods c counts shots s e :
  cell_ok mods c = true ->
  fst (decode c counts shots s) = Raise e -> decoding_error c shots e.
Proof.
  intros Hok H.
  destruct (probs_error (num_qubits c) counts shots) as [e'|] eqn:Herr.
  - rewrite (decode_raises _ _ _ _ _ Herr) in H. injection H as <-.
    now exists counts.
  - destruct (decode_row mods c counts shots s Hok Herr) as [t [Ht _]].
    now rewrite Ht in H.
Qed.

Lemma read_item_decodes env mods fuel c shots i slot_idx s qc s2 counts s3 :
  is_gpu (backend_mode c) = false -> in_bounds c slot_idx = true ->
  the_blueprint c i slot_idx s = (Ok qc, s2) ->
  execute env fuel c i slot_idx (measurement_circuit mods c i slot_idx qc)
    shots s2 = (Ok counts, s3) ->
  read_item env mods fuel c shots i slot_idx s = decode c counts shots s3.
Proof.
  intros Hg Hx Hbp Hexec. unfold read_item. rewrite Hx, Hg. cbn [negb].
  erewrite bind_Ok.
  2:{ erewrite bind_Ok by exact Hbp.
      rewrite run_blueprint_cases, Hexec. reflexivity. }
  reflexivity.
Qed.

Lemma read_item_falls_back env mods fuel c shots i slot_idx s qc s2 e s3 :
  is_gpu (backend_mode c) = false -> in_bounds c slot_idx = true ->
  the_blueprint c i slot_idx s = (Ok qc, s2) ->
  execute env fuel c i slot_idx (measurement_circuit mods c i slot_idx qc)
    shots s2 = (Raise e, s3) ->
  exists row,
    item_fallback env c i slot_idx e s3
    = (Ok (inl row),
       with_trace s3 (EvRandn 1 (classical_hidden_size c)
                      :: EvPrint (item_error c i slot_idx e) :: trace s3))
    /\ is_row (classical_hidden_size c) row
    /\ read_item env mods fuel c shots i slot_idx s
       = (Ok row,
          with_trace s3 (EvRandn 1 (classical_hidden_size c)
                         :: EvPrint (item_error c i slot_idx e) :: trace s3)).
Proof.
  intros Hg Hx Hbp Hexec.
  destruct (item_fallback_spec env c i slot_idx e s3) as [row [Hf Hrow]].
  exists row. split; [exact Hf |]. split; [exact Hrow |].
  unfold read_item. rewrite Hx, Hg. cbn [negb].
  erewrite bind_Ok.
  2:{ erewrite bind_Ok by exact Hbp.
      rewrite run_blueprint_cases, Hexec. exact Hf. }
  reflexivity.
Qed.

Lemma read_item_hangs env mods fuel c shots i slot_idx s qc s2 s3 :
  is_gpu (backend_mode c) = false -> in_bounds c slot_idx = true ->
  the_blueprint c i slot_idx s = (Ok qc, s2) ->
  execute env fuel c i slot_idx (measurement_circuit mods c i slot_idx qc)
    shots s2 = (Hang, s3) ->
  read_item env mods fuel c shots i slot_idx s = (Hang, s3).
Proof.
  intros Hg Hx Hbp Hexec. unfold read_item. rewrite Hx, Hg. cbn [negb].
  apply bind_Hang. erewrite bind_Ok by exact Hbp.
  now rewrite run_blueprint_cases, Hexec.
Qed.

(** In the circuit modes an item whose slot is there raises only from the
    decoding: what the [try] block raises ends in the fallback row. *)
Lemma read_item_raises_at env mods fuel c shots i slot_idx s slot e :
  cell_ok mods c = true -> is_gpu (backend_mode c) = false ->
  in_bounds c slot_idx = true ->
  quantum_memory_states s !! Z.to_nat slot_idx = Some slot ->
  fst (read_item env mods fuel c shots i slot_idx s) = Raise e ->
  decoding_error c shots e.
Proof.
  intros Hok Hg Hb Hslot.
  assert (exists qc s1, the_blueprint c i slot_idx s = (Ok qc, s1))
    as [qc [s1 Hbp]].
  { rewrite (the_blueprint_lookup c i slot_idx s slot Hslot).
    destruct slot; eauto. }
  destruct (execute env fuel c i slot_idx
              (measurement_circuit mods c i slot_idx qc) shots s1)
    as [[counts|e0|] s2] eqn:Hexec.
  - rewrite (read_item_decodes _ _ _ _ _ _ _ _ _ _ _ _ Hg Hb Hbp Hexec).
    apply (decode_raises_only_range mods); exact Hok.
  - destruct (read_item_falls_back _ _ _ _ _ _ _ _ _ _ _ _ Hg Hb Hbp Hexec)
      as [row [_ [_ Hitem]]].
    rewrite Hitem. discriminate.
  - rewrite (read_item_hangs _ _ _ _ _ _ _ _ _ _ _ Hg Hb Hbp Hexec).
    discriminate.
Qed.

Lemma read_item_raises env mods fuel c shots i slot_idx s e :
  cell_ok mods c = true -> is_gpu (backend_mode c) = false ->
  store_ok c s = true -> in_bounds c slot_idx = true ->
  fst (read_item env mods fuel c shots i slot_idx s) = Raise e ->
  decoding_error c shots e.
Proof.
  intros Hok Hg Hs Hb. unfold store_ok in Hs. apply Nat.eqb_eq in Hs.
  destruct (in_bounds_lookup c _ _ Hb Hs) as [slot Hslot].
  eapply read_item_raises_at; eassumption.
Qed.

Lemma store_ok_preserved {A} (m : M A) c s :
  preserves_store m -> store_ok c s = true -> store_ok c (snd (m s)) = true.
Proof. intros Hm Hs. unfold store_ok in *. now rewrite Hm. Qed.

Lemma read_loop_raises env mods fuel c shots idxs :
  cell_ok mods c = true -> is_gpu (backend_mode c) = false ->
  forallb (in_bounds c) idxs = true ->
  forall i s e, store_ok c s = true ->
    fst (read_loop env mods fuel c shots i idxs s) = Raise e ->
    decoding_error c shots e.
Proof.
  intros Hok Hg. induction idxs as [|x idxs IH]; intros Hall i s e Hs.
  - discriminate.
  - cbn in Hall. apply andb_prop in Hall. destruct Hall as [Hx Hall].
    cbn [read_loop]. unfold_monad.
    pose proof (read_item_raises env mods fuel c shots i x s e Hok Hg Hs Hx) as Hit.
    pose proof (store_ok_preserved _ c s
                  (preserves_read_item env mods fuel c shots i x) Hs) as Hs1.
    destruct (read_item env mods fuel c shots i x s) as [[row|e0|] s1];
      cbn in *; [| intros [= ->]; now apply Hit | discriminate].
    pose proof (IH Hall (S i) s1 e Hs1) as Hrest.
    destruct (read_loop env mods fuel c shots (S i) idxs s1) as [[outs|e1|] s2];
      cbn in *; [discriminate | exact Hrest | discriminate].
Qed.

Lemma read_with_handle env mods fuel c idxs shots s :
  is_gpu (backend_mode c) = false -> is_None (backend c) = false ->
  read_batch env mods fuel c idxs shots s
  = match read_loop env mods fuel c shots 0 idxs s with
    | (Ok [], s') => (Ok (torch_empty0 (classical_hidden_size c)), s')
    | (Ok outs, s') => lift (torch_cat outs) s'
    | (Raise e, s') => (Raise e, s')
    | (Hang, s') => (Hang, s')
    end.
Proof.
  intros Hg Hb. unfold read_batch. rewrite Hg, Hb. cbn [negb andb]. unfold_monad.
  destruct (read_loop _ _ _ _ _ _ _ _) as [[[|row outs]|e|] s']; reflexivity.
Qed.

(** X19.  What the handler of [read] does cover.  In the cpu-qiskit and
    qr-cloud modes, for a batch of valid slots, an exception raised inside
    the [try] block of one item (transpilation, submission, polling,
    fetching the counts) never leaves [read]: that item contributes the
    random fallback row of shape [(1, classical_hidden_size)] and nothing
    else changes, the rows of the items before it are kept, the items
    after it are processed by the same loop, and the result is the
    concatenation in batch order.  An item whose [try] block completes is
    decoded from its own counts.  The only exception that can leave [read]
    comes from after the [try] block: the conversion of a probability that
    no float holds. *)
Theorem try_block_errors_are_isolated :
  forall env mods fuel c shots pre slot_idx post s,
    cell_ok mods c = true ->
    is_gpu (backend_mode c) = false ->
    is_None (backend c) = false ->
    store_ok c s = true ->
    forallb (in_bounds c) (pre ++ slot_idx :: post) = true ->
    (forall e,
        fst (read env mods fuel c (SlotSeq (pre ++ slot_idx :: post)) shots s)
        = Raise e ->
        decoding_error c shots e)
    /\ (forall outs1 s1 qc s2 e s3,
        read_loop env mods fuel c shots 0 pre s = (Ok outs1, s1) ->
        the_blueprint c (length pre) slot_idx s1 = (Ok qc, s2) ->
        execute env fuel c (length pre) slot_idx
          (measurement_circuit mods c (length pre) slot_idx qc) shots s2
        = (Raise e, s3) ->
        exists row s4,
          item_fallback env c (length pre) slot_idx e s3 = (Ok (inl row), s4)
          /\ is_row (classical_hidden_size c) row
          /\ match read_loop env mods fuel c shots (S (length pre)) post s4 with
             | (Ok outs3, s5) =>
                 exists t,
                   torch_cat (outs1 ++ row :: outs3) = Returns t
                   /\ read env mods fuel c (SlotSeq (pre ++ slot_idx :: post))
                        shots s = (Ok t, s5)
             | (Hang, s5) =>
                 read env mods fuel c (SlotSeq (pre ++ slot_idx :: post))
                   shots s = (Hang, s5)
             | (Raise e', s5) =>
                 read env mods fuel c (SlotSeq (pre ++ slot_idx :: post))
                   shots s = (Raise e', s5)
                 /\ decoding_error c shots e'
             end)
    /\ (forall i x s1 qc s2 counts s3,
          in_bounds c x = true ->
          the_blueprint c i x s1 = (Ok qc, s2) ->
          execute env fuel c i x (measurement_circuit mods c i x qc) shots s2
          = (Ok counts, s3) ->
          read_item env mods fuel c shots i x s1 = decode c counts shots s3).
Proof.
  intros env mods fuel c shots pre slot_idx post s Hok Hg Hb Hs Hall.
  pose proof (read_loop_raises env mods fuel c shots _ Hok Hg Hall 0%nat s) as Hloop.
  assert (forall outs s',
            read_loop env mods fuel c shots 0 (pre ++ slot_idx :: post) s
            = (Ok outs, s') ->
            exists t, torch_cat outs = Returns t
                      /\ read env mods fuel c (SlotSeq (pre ++ slot_idx :: post))
                           shots s = (Ok t, s')) as Hcat.
  { intros outs s' Hrun.
    destruct (read_loop_rows _ _ _ _ _ _ Hok _ _ _ _ Hrun) as [Hlen Hrows].
    destruct (torch_cat_rows (classical_hidden_size c) outs) as [t [Ht _]];
      [| exact Hrows |].
    { intros ->. rewrite length_app in Hlen. cbn in Hlen. lia. }
    exists t. split; [exact Ht |].
    rewrite read_tensor, read_with_handle by assumption. rewrite Hrun.
    destruct outs; [rewrite length_app in Hlen; cbn in Hlen; lia |].
    now rewrite Ht. }
  split; [| split].
  3:{ intros i x s1 qc s2 counts s3 Hx Hbp Hexec.
      eapply read_item_decodes; eassumption. }
  - intros e. rewrite read_tensor, read_with_handle by assumption.
    destruct (read_loop _ _ _ _ _ _ _ _) as [[outs|e0|] s'] eqn:Hrun; cbn.
    + destruct (Hcat _ _ eq_refl) as [t [Ht _]].
      destruct outs; [discriminate |]. rewrite Ht. discriminate.
    + intros [= ->]. now apply (Hloop e Hs).
    + discriminate.
  - intros outs1 s1 qc s2 e s3 Hpre Hbp Hexec.
    assert (in_bounds c slot_idx = true) as Hx.
    { rewrite forallb_app in Hall. apply andb_prop in Hall.
      destruct Hall as [_ Hall]. cbn in Hall.
      now apply andb_prop in Hall. }
    destruct (read_item_falls_back _ _ _ _ _ _ _ _ _ _ _ _ Hg Hx Hbp Hexec)
      as [row [Hf [Hrow Hitem]]].
    exists row. eexists. split; [exact Hf |]. split; [exact Hrow |].
    assert (read_loop env mods fuel c shots 0 (pre ++ slot_idx :: post) s
            = match read_loop env mods fuel c shots (S (length pre)) post
                      (with_trace s3
                         (EvRandn 1 (classical_hidden_size c)
                          :: EvPrint (item_error c (length pre) slot_idx e)
                          :: trace s3)) with
              | (Ok outs3, s5) => (Ok (outs1 ++ row :: outs3), s5)
              | (Raise e0, s5) => (Raise e0, s5)
              | (Hang, s5) => (Hang, s5)
              end) as Hwhole.
    { rewrite read_loop_app, Hpre. cbn [Nat.add read_loop].
      erewrite bind_Ok by exact Hitem. unfold_monad.
      now destruct (read_loop _ _ _ _ _ _ post _) as [[outs3|e0|] s5]. }
    rewrite Hwhole in Hloop, Hcat.
    rewrite read_tensor, read_with_handle by assumption. rewrite Hwhole.
    destruct (read_loop env mods fuel c shots (S (length pre)) post _)
      as [[outs3|e0|] s5].
    + destruct (Hcat _ _ eq_refl) as [t [Ht _]].
      exists t. split; [exact Ht |].
      destruct outs1; cbn [app] in *; now rewrite Ht.
    + split; [reflexivity |]. now apply (Hloop e0 Hs).
    + reflexivity.
Qed.

Lemma try_block_errors_are_isolated_witness :
  match ex_cell (ex_env JobStatus.DONE ex_counts) ex_all 3 "cpu-qiskit"
                None None 5 300 with
  | (Ok c, s) =>
      (forall e,
          fst (read (ex_env_failing ex_counts) ex_all 10 c (SlotSeq [0; 1; 2])
                 100 s) = Raise e ->
          decoding_error c 100 e)
      /\ exists outs1 s1 qc s2 s3,
          read_loop (ex_env_failing ex_counts) ex_all 10 c 100 0 [0] s
          = (Ok outs1, s1)
          /\ the_blueprint c 1 1 s1 = (Ok qc, s2)
          /\ execute (ex_env_failing ex_counts) 10 c 1 1
               (measurement_circuit ex_all c 1 1 qc) 100 s2
             = (Raise ex_boom, s3)
  | _ => False
  end.
Proof.
  build_cell. split.
  - match goal with
    | |- forall e, fst (read ?env ?mods ?fuel ?c _ ?shots ?s) = _ -> _ =>
        apply (proj1 (try_block_errors_are_isolated env mods fuel c shots
                        [0] 1 [2] s eq_refl eq_refl eq_refl eq_refl eq_refl))
    end.
  - eexists _, _, _, _, _.
    split; [vm_compute; reflexivity |].
    split; vm_compute; reflexivity.
Defined.

(** C1 as stated fails in the GPU mode: when [measure_shots] raises for
    the second item of a three-item batch, [read] raises that exception to
    its caller and the third item is never measured. *)
Lemma gpu_measurement_failure_aborts_batch :
  match ex_cell (ex_env JobStatus.DONE ex_counts) ex_all 3 "gpu" None None 5 300 with
  | (Ok c, s) =>
      exists s',
        read (ex_env_failing ex_counts) ex_all 10 c (SlotSeq [0; 1; 2]) 100 s
        = (Raise ex_boom, s')
        /\ In (EvMeasureShots 1 [0; 1]%nat 100) (trace s')
        /\ ~ In (EvMeasureShots 2 [0; 1]%nat 100) (trace s')
  | _ => False
  end.
Proof.
  build_cell. eexists. split; [vm_compute; reflexivity |].
  split; [left; reflexivity |].
  intros H. cbn in H.
  repeat (destruct H as [H|H]; [discriminate H |]). exact H.
Qed.

(** ** Slot validation *)

Lemma write_loop_app env c hidden xs ys :
  forall i s,
    write_loop env c hidden i (xs ++ ys) s
    = match write_loop env c hidden i xs s with
      | (Ok _, s1) => write_loop env c hidden (i + length xs) ys s1
      | r => r
      end.
Proof.
  induction xs as [|x xs IH]; intros i s.
  - cbn [app write_loop length]. unfold ret. now rewrite Nat.add_0_r.
  - cbn [app write_loop length]. unfold_monad.
    destruct (write_item env c hidden i x s) as [[[]|e|] s1]; try reflexivity.
    rewrite IH. now replace (i + S (length xs))%nat with (S i + length xs)%nat by lia.
Qed.

Lemma read_loop_stops_at_bad_slot env mods fuel c shots pre bad post s outs s1 :
  in_bounds c bad = false ->
  read_loop env mods fuel c shots 0 pre s = (Ok outs, s1) ->
  read_loop env mods fuel c shots 0 (pre ++ bad :: post) s
  = (Raise (out_of_bounds bad (length pre)), s1).
Proof.
  intros Hbad Hpre. rewrite read_loop_app, Hpre. cbn [Nat.add read_loop].
  unfold mbind, M_bind, bind.
  now rewrite read_item_out_of_bounds by exact Hbad.
Qed.

Lemma fits_int64_app xs ys :
  forallb fits_int64 (xs ++ ys) = true ->
  forallb fits_int64 xs = true /\ forallb fits_int64 ys = true.
Proof. rewrite forallb_app. apply andb_prop. Qed.

Lemma read_batch_stops_at_bad_slot env mods fuel c shots pre bad post s outs s1 :
  in_bounds c bad = false ->
  handle_present c = true ->
  read_loop env mods fuel c shots 0 pre s = (Ok outs, s1) ->
  read_batch env mods fuel c (pre ++ bad :: post) shots s
  = (Raise (out_of_bounds bad (length pre)), s1).
Proof.
  intros Hbad Hh Hpre. unfold read_batch, handle_present in *.
  destruct (is_gpu (backend_mode c)); cbn [negb andb] in *.
  - apply negb_true_iff in Hh. rewrite Hh. unfold mbind, M_bind, bind.
    now rewrite (read_loop_stops_at_bad_slot _ _ _ _ _ _ _ post _ _ _ Hbad Hpre).
  - apply negb_true_iff in Hh. rewrite Hh. unfold mbind, M_bind, bind.
    now rewrite (read_loop_stops_at_bad_slot _ _ _ _ _ _ _ post _ _ _ Hbad Hpre).
Qed.

Lemma write_batch_stops_at_bad_slot env c hidden pre bad post s s1 :
  in_bounds c bad = false ->
  t_rows hidden = length (pre ++ bad :: post) ->
  write_loop env c hidden 0 pre s = (Ok tt, s1) ->
  write_batch env c hidden (pre ++ bad :: post) s
  = (Raise (out_of_bounds bad (length pre)), s1).
Proof.
  intros Hbad Hrows Hpre. unfold write_batch. rewrite Hrows, Nat.eqb_refl.
  cbn [negb]. rewrite write_loop_app, Hpre. cbn [Nat.add write_loop].
  unfold mbind, M_bind, bind, write_item. now rewrite Hbad.
Qed.

Lemma read_batch_without_handle env mods fuel c idxs shots s :
  handle_present c = false ->
  exists t msg,
    read_batch env mods fuel c idxs shots s
    = (Ok t, with_trace s (EvRandn (length idxs) (classical_hidden_size c)
                           :: EvPrint msg :: trace s))
    /\ shape t = (length idxs, classical_hidden_size c).
Proof.
  intros Hh. unfold read_batch, handle_present in *.
  destruct (is_gpu (backend_mode c)); cbn [negb andb] in *;
    apply negb_false_iff in Hh; rewrite Hh;
    match goal with
    | |- context [print ?msg] =>
        destruct (print_then_randn env msg (length idxs)
                    (classical_hidden_size c) s) as [t [Ht [Hshape _]]];
        exists t, msg; split; [exact Ht | exact Hshape]
    end.
Qed.

(** C4, as the code behaves.  [write] and [read] first turn a slot list
    or an [int] into a tensor of 64-bit indices; an index that does not
    fit makes that conversion fail at once, with the state untouched.
    After it, the slot index is checked item by item.  When [read] (with
    the handle of its mode present) or [write] reaches an item whose slot
    index is outside [[0, memory_depth)], it raises the [ValueError]
    naming that slot and item, in the state the items before it left:
    nothing is done for that item or for the items after it, while the
    items before it have been processed, backend calls included.  With
    the out-of-range index first, or passed as an [int], the state is
    untouched.  With the handle of its mode absent, [read] checks no
    index: it prints a diagnostic and returns a random batch. *)
Theorem out_of_range_slot_raises_when_reached :
  forall env mods fuel c hidden shots pre bad post,
    in_bounds c bad = false ->
    forallb fits_int64 (pre ++ bad :: post) = true ->
    (forall slots s outs s1,
        slots = SlotSeq (pre ++ bad :: post)
        \/ slots = SlotList (pre ++ bad :: post) ->
        handle_present c = true ->
        read_loop env mods fuel c shots 0 pre s = (Ok outs, s1) ->
        read env mods fuel c slots shots s
        = (Raise (out_of_bounds bad (length pre)), s1))
    /\ (forall slots s s1,
          slots = SlotSeq (pre ++ bad :: post)
          \/ slots = SlotList (pre ++ bad :: post) ->
          t_rows hidden = length (pre ++ bad :: post) ->
          write_loop env c hidden 0 pre s = (Ok tt, s1) ->
          write env c hidden slots s
          = (Raise (out_of_bounds bad (length pre)), s1))
    /\ (forall s,
          handle_present c = true ->
          read env mods fuel c (SlotInt bad) shots s
          = (Raise (out_of_bounds bad 0), s))
    /\ (forall s,
          t_rows hidden <> 0%nat ->
          write env c hidden (SlotInt bad) s
          = (Raise (out_of_bounds bad 0), s))
    /\ (forall slots s,
          batch_of slots = pre ++ bad :: post ->
          handle_present c = false ->
          exists t msg,
            read env mods fuel c slots shots s
            = (Ok t,
               with_trace s
                 (EvRandn (length (pre ++ bad :: post)) (classical_hidden_size c)
                  :: EvPrint msg :: trace s))
            /\ shape t = (length (pre ++ bad :: post), classical_hidden_size c))
    /\ (forall l s,
          forallb fits_int64 l = false ->
          (exists e, read env mods fuel c (SlotList l) shots s = (Raise e, s))
          /\ (exists e, write env c hidden (SlotList l) s = (Raise e, s)))
    /\ (forall z s,
          fits_int64 z = false ->
          (exists e, read env mods fuel c (SlotInt z) shots s = (Raise e, s))
          /\ (t_rows hidden <> 0%nat ->
              exists e, write env c hidden (SlotInt z) s = (Raise e, s))).
Proof.
  intros env mods fuel c hidden shots pre bad post Hbad Hfit.
  assert (fits_int64 bad = true) as Hfb.
  { apply fits_int64_app in Hfit. destruct Hfit as [_ Hfit]. cbn in Hfit.
    now apply andb_prop in Hfit. }
  assert (forall slots,
            slots = SlotSeq (pre ++ bad :: post)
            \/ slots = SlotList (pre ++ bad :: post) ->
            read_indices slots = Returns (pre ++ bad :: post)
            /\ write_indices slots (t_rows hidden) = Returns (pre ++ bad :: post))
    as Hconv.
  { intros slots [-> | ->]; cbn [read_indices write_indices batch_of];
      [split; reflexivity |].
    now rewrite torch_tensor_fits by exact Hfit. }
  split; [| split; [| split; [| split; [| split; [| split]]]]].
  - intros slots s outs s1 Hslots Hh Hpre.
    destruct (Hconv slots Hslots) as [Hc _].
    rewrite (read_converted _ _ _ _ _ _ _ _ Hc).
    now apply read_batch_stops_at_bad_slot with (outs := outs).
  - intros slots s s1 Hslots Hrows Hpre.
    destruct (Hconv slots Hslots) as [_ Hc].
    rewrite (write_converted _ _ _ _ _ _ Hc).
    now apply write_batch_stops_at_bad_slot.
  - intros s Hh.
    rewrite (read_converted _ _ _ _ _ [bad]).
    2:{ cbn [read_indices batch_of]. apply torch_tensor_fits. cbn.
        now rewrite Hfb. }
    now apply (read_batch_stops_at_bad_slot env mods fuel c shots [] bad [] s []).
  - intros s Hrows.
    rewrite (write_converted _ _ _ _ (repeat bad (t_rows hidden))).
    2:{ cbn [write_indices]. apply torch_tensor_fits.
        apply forallb_forall. intros x Hx. apply repeat_spec in Hx. now subst x. }
    destruct (t_rows hidden) as [|n] eqn:Hn; [congruence |].
    apply (write_batch_stops_at_bad_slot env c hidden [] bad (repeat bad n));
      [exact Hbad | | reflexivity].
    rewrite Hn. cbn. now rewrite repeat_length.
  - intros slots s Hslots Hh.
    rewrite (read_converted _ _ _ _ _ (pre ++ bad :: post)).
    2:{ destruct slots as [z|l|l]; cbn [batch_of] in Hslots;
          cbn [read_indices batch_of]; rewrite ?Hslots; [| reflexivity |];
          now apply torch_tensor_fits. }
    now apply read_batch_without_handle.
  - intros l s Hl. split; exists int64_overflow.
    + apply read_not_converted. cbn [read_indices batch_of].
      now apply torch_tensor_overflow.
    + apply write_not_converted. cbn [write_indices].
      now apply torch_tensor_overflow.
  - intros z s Hz. split.
    + exists int64_overflow. apply read_not_converted.
      cbn [read_indices batch_of]. apply torch_tensor_overflow. cbn.
      now rewrite Hz.
    + intros Hrows. exists int64_overflow. apply write_not_converted.
      cbn [write_indices]. apply torch_tensor_overflow.
      destruct (t_rows hidden) as [|n]; [congruence |]. cbn. now rewrite Hz.
Qed.

Lemma out_of_range_slot_raises_when_reached_witness :
  match ex_cell (ex_env JobStatus.DONE ex_counts) ex_all 1 "cpu-qiskit"
                None None 5 300 with
  | (Ok c, s) =>
      exists outs s1,
        read_loop (ex_env JobStatus.DONE ex_counts) ex_all 10 c 100 0 [0] s
        = (Ok outs, s1)
        /\ read (ex_env JobStatus.DONE ex_counts) ex_all 10 c (SlotList [0; 7]) 100 s
           = (Raise (out_of_bounds 7 1), s1)
  | _ => False
  end.
Proof.
  build_cell.
  match goal with
  | |- exists outs s1, read_loop ?env ?mods ?fuel ?c ?shots 0 [0] ?s = _ /\ _ =>
      destruct (read_loop env mods fuel c shots 0 [0] s) as [[outs|e|] s1] eqn:R;
      try (vm_compute in R; discriminate R);
      exists outs, s1; split; [reflexivity |];
      exact (proj1 (out_of_range_slot_raises_when_reached env mods fuel c
                      (mkTensor 0 4 []) shots [0] 7 [] eq_refl eq_refl)
               (SlotList [0; 7]) s outs s1 (or_intror eq_refl) eq_refl R)
  end.
Defined.

(** C4 as stated fails in two ways.  In a batch whose second slot is out
    of range, the first item has already been submitted to the backend
    when the error is raised; and with the backend handle absent, [read]
    of an out-of-range slot raises nothing and returns the random batch. *)
Lemma out_of_range_slot_after_backend_call_or_without_error :
  match ex_cell (ex_env JobStatus.DONE ex_counts) ex_all 1 "cpu-qiskit"
                None None 5 300 with
  | (Ok c, s) =>
      exists s' qc,
        read (ex_env JobStatus.DONE ex_counts) ex_all 10 c (SlotSeq [0; 7]) 100 s
        = (Raise (out_of_bounds 7 1), s')
        /\ trace s' = EvGetCounts :: EvResult :: EvRun qc 100
                      :: EvTranspile qc
                      :: EvPrint (no_blueprint_warning c 0) :: trace s
  | _ => False
  end
  /\ match ex_cell (ex_env JobStatus.DONE ex_counts) ex_all 1 "qr-cloud"
                   (Some "token") (Some "user") 5 300 with
     | (Ok c, s) =>
         backend c = None
         /\ exists t s',
             read (ex_env JobStatus.DONE ex_counts) ex_all 10 c (SlotSeq [7]) 100 s
             = (Ok t, s')
     | _ => False
     end.
Proof.
  split.
  - build_cell. eexists _, _. split; vm_compute; reflexivity.
  - build_cell. split; [reflexivity |].
    eexists _, _. vm_compute. reflexivity.
Qed.

(** ** Reading a slot that was never written *)

(** C10, as the code behaves.  In the cpu-qiskit and qr-cloud modes,
    reading a valid slot that holds no blueprint is not an error of its
    own.  [read] prints the warning and goes on with an empty circuit: the
    measurement circuit wraps a definition with no rotation.  When the
    backend executes that circuit and returns counts that a measurement
    with [shots] shots can give (no negative count, at most [shots] in
    all), the item is the decoding of those counts, not a fallback row.
    When the execution raises, the item is the fallback row, as for a
    written slot.  The item raises nothing as long as the probabilities
    of the counts are in the range of a float. *)
Theorem unwritten_slot_reads_empty_circuit :
  forall env mods fuel c shots i slot_idx s,
    cell_ok mods c = true ->
    is_gpu (backend_mode c) = false ->
    in_bounds c slot_idx = true ->
    quantum_memory_states s !! Z.to_nat slot_idx = Some None ->
    let warned := with_trace s (EvPrint (no_blueprint_warning c slot_idx)
                                :: trace s) in
    let qc := measurement_circuit mods c i slot_idx
                (empty_blueprint c i slot_idx) in
    the_blueprint c i slot_idx s = (Ok (empty_blueprint c i slot_idx), warned)
    /\ data (empty_blueprint c i slot_idx) = []
    /\ (exists label qr cr, data qc = [gate label [] qr; measure qr cr])
    /\ (forall counts s2,
          execute env fuel c i slot_idx qc shots warned = (Ok counts, s2) ->
          Forall (fun kv => 0 <= snd kv) counts ->
          total_counts counts <= shots ->
          exists t,
            linear_forward (decoding_linear c)
              (unsqueeze0 (compute_probs (num_qubits c) counts shots))
            = Returns t
            /\ read_item env mods fuel c shots i slot_idx s = (Ok t, s2))
    /\ (forall e s2,
          execute env fuel c i slot_idx qc shots warned = (Raise e, s2) ->
          exists row,
            is_row (classical_hidden_size c) row
            /\ read_item env mods fuel c shots i slot_idx s
               = (Ok row,
                  with_trace s2
                    (EvRandn 1 (classical_hidden_size c)
                     :: EvPrint (item_error c i slot_idx e) :: trace s2)))
    /\ ((forall counts s2,
            execute env fuel c i slot_idx qc shots warned = (Ok counts, s2) ->
            probs_error (num_qubits c) counts shots = None) ->
        never_raises (read_item env mods fuel c shots i slot_idx) s).
Proof.
  intros env mods fuel c shots i slot_idx s Hok Hg Hb Hslot warned qc.
  pose proof (the_blueprint_lookup c i slot_idx s None Hslot) as Hbp.
  cbn iota in Hbp. fold warned in Hbp.
  split; [exact Hbp |]. split; [reflexivity |]. split.
  { subst qc. unfold measurement_circuit.
    rewrite (cell_ok_qiskit _ _ Hok Hg). cbn. eauto. }
  split; [| split].
  - intros counts s2 Hexec Hpos Htot.
    destruct (decode_row mods c counts shots s2 Hok) as [t [Ht [Hlin _]]].
    { now apply probs_error_measured. }
    exists t. split; [exact Hlin |].
    rewrite <- Ht.
    exact (read_item_decodes env mods fuel c shots i slot_idx s
             (empty_blueprint c i slot_idx) warned counts s2 Hg Hb Hbp Hexec).
  - intros e s2 Hexec.
    destruct (read_item_falls_back env mods fuel c shots i slot_idx s
                (empty_blueprint c i slot_idx) warned e s2 Hg Hb Hbp Hexec)
      as [row [_ [Hrow Hitem]]].
    exists row. split; [exact Hrow | exact Hitem].
  - intros Hrange e.
    destruct (execute env fuel c i slot_idx qc shots warned)
      as [[counts|e0|] s2] eqn:Hexec.
    + rewrite (read_item_decodes env mods fuel c shots i slot_idx s
                 (empty_blueprint c i slot_idx) warned counts s2 Hg Hb Hbp Hexec).
      destruct (decode_row mods c counts shots s2 Hok (Hrange _ _ eq_refl))
        as [t [Ht _]].
      rewrite Ht. discriminate.
    + destruct (read_item_falls_back env mods fuel c shots i slot_idx s
                  (empty_blueprint c i slot_idx) warned e0 s2 Hg Hb Hbp Hexec)
        as [row [_ [_ Hitem]]].
      rewrite Hitem. discriminate.
    + rewrite (read_item_hangs env mods fuel c shots i slot_idx s
                 (empty_blueprint c i slot_idx) warned s2 Hg Hb Hbp Hexec).
      discriminate.
Qed.

Lemma unwritten_slot_reads_empty_circuit_witness :
  match ex_cell (ex_env JobStatus.DONE ex_counts) ex_qiskit_only 1 "qr-cloud"
                None None 5 300 with
  | (Ok c, s) =>
      exists t s2,
        read_item (ex_env JobStatus.DONE ex_counts) ex_qiskit_only 10 c 100 0 0 s
        = (Ok t, s2)
        /\ linear_forward (decoding_linear c)
             (unsqueeze0 (compute_probs 2 [("00", 100)] 100)) = Returns t
  | _ => False
  end.
Proof.
  build_cell.
  match goal with
  | |- exists t s2, read_item ?env ?mods ?fuel ?c ?shots ?i ?slot ?s = _ /\ _ =>
      pose proof (unwritten_slot_reads_empty_circuit env mods fuel c shots i slot s
                    eq_refl eq_refl eq_refl eq_refl) as W;
      destruct W as [_ [_ [_ [W _]]]];
      edestruct (W [("00", 100)]) as [t [Ht Hread]];
        [vm_compute; reflexivity
        | repeat constructor; cbn; lia
        | vm_compute; discriminate |];
      exists t; eexists; split; [exact Hread | exact Ht]
  end.
Defined.

(** C10 as stated fails in two ways.  When the backend rejects the
    circuit of an unwritten slot (here the second of the batch), the item
    does take the fallback path: the diagnostic of the handler is printed
    and a random row drawn.  And when the backend returns a count too
    large for a float, [read] of an unwritten slot raises: the division
    sits after the handler. *)
Lemma unwritten_slot_falls_back_or_raises :
  match ex_cell (ex_env JobStatus.DONE ex_counts) ex_all 2 "cpu-qiskit"
                None None 5 300 with
  | (Ok c, s) =>
      (exists t s',
          read (ex_env_failing ex_counts) ex_all 10 c (SlotSeq [0; 1]) 100 s
          = (Ok t, s')
          /\ In (EvPrint (no_blueprint_warning c 1)) (trace s')
          /\ In (EvPrint (item_error c 1 1 ex_boom)) (trace s')
          /\ In (EvRandn 1 4) (trace s'))
      /\ (exists e s',
            read (ex_env JobStatus.DONE [("01", 10 ^ 400)]) ex_all 10 c
              (SlotSeq [0]) 100 s
            = (Raise e, s')
            /\ exn_cls e = OtherError "OverflowError")
  | _ => False
  end.
Proof.
  build_cell. split.
  - eexists _, _. split; [vm_compute; reflexivity |].
    split; [| split]; cbn; tauto.
  - eexists _, _. split; vm_compute; reflexivity.
Qed.

(** ** Writing *)


Lemma pairs_length n : forall l, length l = (n * 2)%nat -> length (pairs l) = n.
Proof.
  induction n as [|n IH]; intros l Hl.
  - now destruct l.
  - destruct l as [|a [|b l]]; try discriminate Hl.
    cbn in *. f_equal. apply IH. lia.
Qed.




Lemma encoded_angles_length c v : length (encoded_angles c v) = num_qubits c.
Proof.
  unfold encoded_angles. rewrite length_map.
  apply pairs_length. now rewrite length_map, length_seq.
Qed.


Lemma circuit_rotations_spec qr (ang : list (Q * Q)) :
  forall pre s,
    circuit_rotations qr (pre ++ ang) (seq (length pre) (length ang)) s
    = (Ok (concat (imap (fun q a => [ry (fst a) qr (length pre + q);
                                     rz (snd a) qr (length pre + q)]) ang)), s).
Proof.
  induction ang as [|a ang IH]; intros pre s; [reflexivity |].
  cbn [length seq circuit_rotations]. unfold index.
  rewrite Nat2Z.id, list_lookup_middle by reflexivity.
  unfold_monad.
  replace (pre ++ a :: ang) with ((pre ++ [a]) ++ ang) by now rewrite <- app_assoc.
  replace (S (length pre)) with (length (pre ++ [a]))
    by (rewrite length_app; cbn; lia).
  rewrite IH. cbn [imap concat app]. rewrite Nat.add_0_r.
  erewrite (imap_ext _ (_ ∘ S)); [reflexivity |].
  intros k x _. cbn. rewrite length_app. cbn.
  now replace (length pre + 1 + k)%nat with (length pre + S k)%nat by lia.
Qed.

Lemma get_angles_single_spec mods c v s :
  cell_ok mods c = true -> length v = classical_hidden_size c ->
  _get_angles_single c (single c v) s = (Ok (encoded_angles c v), s).
Proof.
  intros Hok Hv. destruct (cell_ok_encoder _ _ Hok) as [Hin Hout].
  unfold _get_angles_single, single, linear_forward.
  cbn [t_rows t_cols t_data Nat.eqb negb]. rewrite Hin, Nat.eqb_refl.
  unfold_monad. unfold view_pairs_times_pi. cbn [t_rows t_cols t_data].
  rewrite Hout, Nat.mul_1_l, Nat.eqb_refl. cbn [map concat].
  now rewrite app_nil_r.
Qed.

Lemma write_item_circuit env mods c hidden v i slot_idx s :
  cell_ok mods c = true -> is_gpu (backend_mode c) = false ->
  in_bounds c slot_idx = true -> store_ok c s = true ->
  t_data hidden !! i = Some v -> t_cols hidden = classical_hidden_size c ->
  length v = classical_hidden_size c ->
  write_item env c hidden i slot_idx s
  = (Ok tt, with_store s (<[Z.to_nat slot_idx := Some (blueprint_of c i slot_idx v)]>
                            (quantum_memory_states s))).
Proof.
  intros Hok Hg Hb Hs Hrow Hcols Hv. unfold write_item.
  rewrite Hb, Hg. cbn [negb].
  erewrite bind_Ok.
  2:{ unfold index. rewrite Nat2Z.id, Hrow. reflexivity. }
  erewrite bind_Ok.
  2:{ rewrite Hcols. apply (get_angles_single_spec mods); assumption. }
  erewrite bind_Ok.
  2:{ pose proof (circuit_rotations_spec (blueprint_register c i slot_idx)
                    (encoded_angles c v) [] s) as Hrot.
      cbn [app length Nat.add] in Hrot.
      rewrite encoded_angles_length in Hrot. exact Hrot. }
  unfold store_set. unfold_monad.
  unfold store_ok in Hs. apply Nat.eqb_eq in Hs.
  assert ((Z.to_nat slot_idx <? length (quantum_memory_states s))%nat = true) as ->.
  { apply Nat.ltb_lt. unfold in_bounds in Hb.
    apply andb_prop in Hb. destruct Hb. lia. }
  reflexivity.
Qed.




(** ** Job polling *)



Lemma poll_round env fuel c i slot_idx start job s :
  poll env (S fuel) c i slot_idx start job s
  = match job_status env job s with
    | (Ok sj, s1) =>
        if is_terminal (fst sj) then (Ok sj, s1)
        else if job_timeout c <? clock s1 - start
             then (Raise (timed_out i slot_idx (fst sj)), s1)
             else match time_sleep env (job_poll_interval c) s1 with
                  | (Ok _, s2) => poll env fuel c i slot_idx start (snd sj) s2
                  | (Raise e, s2) => (Raise e, s2)
                  | (Hang, s2) => (Hang, s2)
                  end
    | (Raise e, s1) => (Raise e, s1)
    | (Hang, s1) => (Hang, s1)
    end.
Proof.
  cbn [poll]. unfold mbind at 1, M_bind at 1, bind at 1.
  destruct (job_status env job s) as [[sj|e|] s1]; try reflexivity.
  destruct (is_terminal (fst sj)); [reflexivity |].
  unfold mbind at 1, M_bind at 1, bind at 1, time_time.
  destruct (job_timeout c <? clock s1 - start); [reflexivity |].
  unfold mbind, M_bind, bind.
  now destruct (time_sleep env (job_poll_interval c) s1) as [[[]|e|] s2].
Qed.





Lemma qr_cloud_is_not_cpu_qiskit mode :
  is_qr_cloud mode = true -> is_cpu_qiskit mode = false.
Proof.
  unfold is_qr_cloud, is_cpu_qiskit. intros H.
  apply String.eqb_eq in H. now subst.
Qed.

Lemma execute_qr_cloud env fuel c i slot_idx qc shots s job s1 :
  is_qr_cloud (backend_mode c) = true ->
  backend_run env c qc shots s = (Ok job, s1) ->
  execute env fuel c i slot_idx qc shots s
  = match poll env fuel c i slot_idx (clock s1) job s1 with
    | (Ok sj, s2) =>
        if negb (String.eqb (fst sj) JobStatus.DONE)
        then (Raise (job_failed i slot_idx (fst sj)), s2)
        else job_counts env (snd sj) s2
    | (Raise e, s2) => (Raise e, s2)
    | (Hang, s2) => (Hang, s2)
    end.
Proof.
  intros Hq Hrun. unfold execute.
  rewrite Hq, (qr_cloud_is_not_cpu_qiskit _ Hq).
  erewrite bind_Ok by reflexivity.
  erewrite bind_Ok by exact Hrun.
  unfold mbind at 1, M_bind at 1, bind at 1.
  unfold mbind at 1, M_bind at 1, bind at 1, time_time.
  unfold mbind at 1, M_bind at 1, bind at 1.
  destruct (poll env fuel c i slot_idx (clock s1) job s1) as [[sj|e|] s2];
    try reflexivity.
  destruct (negb (String.eqb (fst sj) JobStatus.DONE)); reflexivity.
Qed.



(** ** The invariants are those of every constructed cell *)

Lemma new_simulators_length env nq n :
  forall k s sims s',
    new_simulators env nq k n s = (Ok sims, s') -> length sims = n.
Proof.
  induction n as [|n IH]; intros k s sims s' H; cbn [new_simulators] in H.
  - now injection H as <- <-.
  - apply bind_inv_Ok in H. destruct H as [has [s1 [_ H]]].
    apply bind_inv_Ok in H. destruct H as [rest [s2 [Hrest H]]].
    injection H as <- <-. cbn. f_equal. eapply IH. exact Hrest.
Qed.

Lemma init_backend_spec env mods nq depth mode tok usr bname s sb s' :
  init_backend env mods nq depth mode tok usr bname s = (Ok sb, s') ->
  if is_gpu mode
  then exists sims, fst sb = Some sims /\ length sims = Z.to_nat depth
  else is_qr_cloud mode || is_cpu_qiskit mode = true.
Proof.
  unfold init_backend. intros H. destruct (is_gpu mode).
  - destruct (HAS_CUQUANTUM mods); [| discriminate H].
    apply bind_inv_Ok in H. destruct H as [[] [s1 [_ H]]].
    apply bind_inv_Ok in H. destruct H as [sims [s2 [Hsims H]]].
    injection H as <- <-. exists sims. split; [reflexivity |].
    eapply new_simulators_length. exact Hsims.
  - destruct (is_qr_cloud mode); [reflexivity |].
    destruct (is_cpu_qiskit mode); [reflexivity | discriminate H].
Qed.

(** A cell the constructor returns satisfies [cell_ok], and its store has
    one empty entry per slot. *)
Lemma init_establishes_invariants env mods nq depth hidden mode tok usr bname
    interval timeout ei di s c s' :
  __init__ env mods nq depth hidden mode tok usr bname interval timeout ei di s
  = (Ok c, s') ->
  cell_ok mods c = true /\ store_ok c s' = true
  /\ Forall (fun slot => slot = None) (quantum_memory_states s').
Proof.
  unfold __init__. intros H.
  destruct (negb (HAS_QISKIT mods) && negb (is_gpu mode)) eqn:Hq;
    [discriminate H |].
  apply bind_inv_Ok in H. destruct H as [[] [s1 [_ H]]].
  apply bind_inv_Ok in H. destruct H as [sb [s2 [Hsb H]]].
  apply bind_inv_Ok in H. destruct H as [[] [s3 [Hset H]]].
  apply bind_inv_Ok in H. destruct H as [[] [s4 [Hpr H]]].
  injection H as <- <-.
  unfold set_store in Hset. injection Hset as <-.
  unfold print, log in Hpr. injection Hpr as <-.
  pose proof (init_backend_spec _ _ _ _ _ _ _ _ _ _ _ Hsb) as Hspec.
  split; [| split].
  - unfold cell_ok.
    cbn [encoding_linear decoding_linear in_features out_features
         classical_hidden_size num_qubits backend_mode gpu_simulators
         memory_depth].
    rewrite !Nat.eqb_refl. cbn [andb].
    destruct (is_gpu mode) eqn:Hg.
    + destruct Hspec as [sims [-> Hlen]]. now apply Nat.eqb_eq.
    + rewrite andb_true_r in Hq. apply negb_false_iff in Hq.
      now rewrite Hq, Hspec.
  - unfold store_ok. cbn. rewrite repeat_length. apply Nat.eqb_refl.
  - cbn. apply Forall_forall. intros slot Hin.
    apply list_elem_of_In in Hin. now apply repeat_spec in Hin.
Qed.

Lemma keeps_of_preserves {A} c (m : M A) :
  preserves_store m -> keeps_store_ok c m.
Proof. intros Hm s Hs. now apply store_ok_preserved. Qed.

Lemma keeps_bind {A B} c (m : M A) (f : A -> M B) :
  keeps_store_ok c m -> (forall a, keeps_store_ok c (f a)) ->
  keeps_store_ok c (x ← m; f x).
Proof.
  intros Hm Hf s Hs. specialize (Hm s Hs). unfold_monad.
  destruct (m s) as [[a|e|] s1]; cbn in *; try assumption.
  now apply Hf.
Qed.

Lemma keeps_store_set c slot_idx v : keeps_store_ok c (store_set slot_idx v).
Proof.
  intros s Hs. unfold store_set. unfold_monad.
  destruct (Z.to_nat slot_idx <? length (quantum_memory_states s))%nat;
    cbn; [| exact Hs].
  unfold store_ok in *. cbn. now rewrite length_insert.
Qed.

Lemma preserves_gpu_rotations env sim angles qs :
  preserves_store (gpu_rotations env sim angles qs).
Proof. induction qs as [|q qs IH]; cbn [gpu_rotations]; preserves_tac. Qed.

Lemma preserves_circuit_rotations qr angles qs :
  preserves_store (circuit_rotations qr angles qs).
Proof. induction qs as [|q qs IH]; cbn [circuit_rotations]; preserves_tac. Qed.

Lemma preserves_get_angles_single c item :
  preserves_store (_get_angles_single c item).
Proof. unfold _get_angles_single. preserves_tac. Qed.

Lemma keeps_write_item env c hidden i slot_idx :
  keeps_store_ok c (write_item env c hidden i slot_idx).
Proof.
  unfold write_item, the_simulators.
  pose proof preserves_gpu_rotations. pose proof preserves_circuit_rotations.
  pose proof preserves_get_angles_single.
  repeat first
    [ progress intros
    | apply keeps_store_set
    | apply keeps_bind
    | solve [apply keeps_of_preserves; auto with preserves]
    | match goal with
      | |- keeps_store_ok _ (if ?b then _ else _) => destruct b
      | |- keeps_store_ok _ (match ?x with _ => _ end) => destruct x
      end ].
Qed.

(** [write] keeps one store entry per slot, whether it returns or raises
    midway. *)
Lemma write_keeps_store_ok env c hidden slots :
  keeps_store_ok c (write env c hidden slots).
Proof.
  unfold write.
  apply keeps_bind; [apply keeps_of_preserves, preserves_lift |].
  intros idxs. unfold write_batch.
  destruct (negb _); [apply keeps_of_preserves, preserves_raise |].
  generalize 0%nat.
  induction idxs as [|x idxs IH]; intros i; cbn [write_loop].
  - apply keeps_of_preserves, preserves_ret.
  - apply keeps_bind; [apply keeps_write_item | intros _; apply IH].
Qed.

(** [read] leaves the store as it found it. *)
Lemma read_preserves_store env mods fuel c slots shots :
  preserves_store (read env mods fuel c slots shots).
Proof.
  unfold read, read_batch. pose proof (preserves_read_loop env mods fuel c shots).
  preserves_tac.
Qed.

(** * Further properties *)

(** ** Counting outcomes *)

(** X1.  The probabilities do not depend on the order in which the counts
    table is traversed; entries whose key has not exactly [num_qubits]
    characters contribute nothing; and one entry contributes its count to
    qubit [q] exactly when the character [q] places from the right end of
    its key is ['1']. *)
Theorem probabilities_ignore_order_and_foreign_keys :
  forall nq (counts : Counts) shots,
    (forall counts', Permutation counts counts' ->
       compute_probs nq counts shots = compute_probs nq counts' shots)
    /\ (forall junk q,
          Forall (fun kv => String.length (fst kv) <> nq) junk ->
          count_ones nq (counts ++ junk) q = count_ones nq counts q)
    /\ (forall key n q,
          count_ones nq ((key, n) :: counts) q
          = (if Nat.eqb (String.length key) nq
                && bool_decide (String.get (nq - 1 - q) key = Some "1"%char)
             then n else 0)
            + count_ones nq counts q).
Proof.
  intros nq counts shots. split; [| split].
  - intros counts' Hperm. unfold compute_probs.
    destruct counts as [|kv counts].
    + apply Permutation_nil in Hperm. now subst.
    + destruct counts' as [|kv' counts'].
      * symmetry in Hperm. apply Permutation_nil in Hperm. discriminate.
      * apply map_ext. intros q.
        now rewrite (count_ones_perm nq _ _ q Hperm).
  - intros junk q Hjunk. rewrite count_ones_app.
    assert (count_ones nq junk q = 0) as ->; [| lia].
    induction Hjunk as [|kv l Hkv _ IH]; [reflexivity |].
    destruct kv as [key n]. rewrite count_ones_cons, IH.
    rewrite count_ones_single. cbn [fst] in Hkv.
    apply Nat.eqb_neq in Hkv. now rewrite Hkv.
  - intros key n q. now rewrite count_ones_cons, count_ones_single.
Qed.

Lemma probabilities_ignore_order_and_foreign_keys_witness :
  compute_probs 2 ex_counts 100
  = compute_probs 2 [("10", 20); ("00", 50); ("01", 30)] 100
  /\ count_ones 2 (ex_counts ++ [("0 1", 7); ("1", 9)]) 0
     = count_ones 2 ex_counts 0.
Proof.
  split.
  - apply (proj1 (probabilities_ignore_order_and_foreign_keys 2 ex_counts 100)).
    symmetry.
    exact (Permutation_cons_append [("00", 50); ("01", 30)] ("10", 20)).
  - apply (proj1 (proj2 (probabilities_ignore_order_and_foreign_keys
                           2 ex_counts 100))).
    repeat constructor; cbn; lia.
Defined.

(** X2.  For a counts table with no negative count whose values sum to at
    most [shots], every probability [read] computes lies between 0 and
    1. *)
Theorem probabilities_lie_between_zero_and_one :
  forall nq (counts : Counts) shots,
    Forall (fun kv => 0 <= snd kv) counts ->
    total_counts counts <= shots ->
    Forall (fun p => 0 <= p /\ p <= 1)%Q (compute_probs nq counts shots).
Proof.
  intros nq counts shots Hpos Htot. unfold compute_probs, torch_zeros.
  destruct counts as [|kv counts].
  - apply Forall_forall. intros p Hp. apply list_elem_of_In in Hp.
    apply repeat_spec in Hp. subst p. split; discriminate.
  - apply Forall_forall. intros p Hp. apply list_elem_of_In in Hp.
    apply in_map_iff in Hp. destruct Hp as [q [<- _]].
    destruct (0 <? shots) eqn:Hs; [| split; discriminate].
    apply Z.ltb_lt in Hs.
    pose proof (count_ones_between nq (kv :: counts) q Hpos) as [Hlo Hhi].
    assert (0 < inject_Z shots)%Q as Hsq.
    { change 0%Q with (inject_Z 0). now rewrite <- Zlt_Qlt. }
    split.
    + apply Qle_shift_div_l; [exact Hsq |].
      rewrite Qmult_0_l. change 0%Q with (inject_Z 0). now rewrite <- Zle_Qle.
    + apply Qle_shift_div_r; [exact Hsq |].
      rewrite Qmult_1_l. rewrite <- Zle_Qle. lia.
Qed.

Lemma probabilities_lie_between_zero_and_one_witness :
  Forall (fun p => 0 <= p /\ p <= 1)%Q (compute_probs 2 ex_counts 100).
Proof.
  apply probabilities_lie_between_zero_and_one.
  - repeat constructor; cbn; lia.
  - cbn. lia.
Defined.

(** ** Encoding one row *)

(** X3.  [_get_angles_single] of a well-formed cell accepts exactly the
    inputs of shape [(1, classical_hidden_size)]: another row count raises
    the [ValueError] of the function, another width the shape error of the
    linear layer, and for the right shape the result has one angle pair
    per qubit.  The state is left as it was in every case. *)
Theorem get_angles_single_checks_shape :
  forall mods c item s,
    cell_ok mods c = true ->
    (t_rows item <> 1%nat ->
     _get_angles_single c item s
     = (Raise (mk_exn ValueError
                 "_get_angles_single expects input of shape (1, classical_hidden_size)"),
        s))
    /\ (t_rows item = 1%nat -> t_cols item <> classical_hidden_size c ->
        _get_angles_single c item s
        = (Raise (mk_exn RuntimeError "mat1 and mat2 shapes cannot be multiplied"), s))
    /\ (t_rows item = 1%nat -> t_cols item = classical_hidden_size c ->
        tensor_wf item = true ->
        exists angles,
          _get_angles_single c item s = (Ok angles, s)
          /\ length angles = num_qubits c).
Proof.
  intros mods c item s Hok. destruct (cell_ok_encoder _ _ Hok) as [Hin Hout].
  unfold _get_angles_single. split; [| split].
  - intros Hrows. apply Nat.eqb_neq in Hrows. now rewrite Hrows.
  - intros Hrows Hcols. rewrite Hrows. cbn [Nat.eqb negb].
    unfold linear_forward. rewrite Hin.
    apply Nat.eqb_neq in Hcols. now rewrite Hcols.
  - intros Hrows Hcols Hwf. destruct item as [r w d]. cbn in Hrows, Hcols.
    subst r w. unfold tensor_wf in Hwf. cbn in Hwf.
    apply andb_prop in Hwf. destruct Hwf as [Hlen Hall].
    apply Nat.eqb_eq in Hlen.
    destruct d as [|v [|v' d]]; try discriminate Hlen.
    cbn in Hall. rewrite andb_true_r in Hall. apply Nat.eqb_eq in Hall.
    exists (encoded_angles c v). split; [| apply encoded_angles_length].
    exact (get_angles_single_spec mods c v s Hok Hall).
Qed.

Lemma get_angles_single_checks_shape_witness :
  match ex_cell (ex_env JobStatus.DONE ex_counts) ex_all 1 "cpu-qiskit"
                None None 5 300 with
  | (Ok c, s) =>
      exists angles,
        _get_angles_single c (mkTensor 1 4 [[1; 0; 0; 0]%Q]) s = (Ok angles, s)
        /\ length angles = 2%nat
  | _ => False
  end.
Proof.
  build_cell.
  match goal with
  | |- exists angles, _get_angles_single ?c ?item ?s = _ /\ _ =>
      exact (proj2 (proj2 (get_angles_single_checks_shape ex_all c item s eq_refl))
               eq_refl eq_refl eq_refl)
  end.
Defined.

(** ** What the constructor guarantees *)

Lemma new_simulators_ids env nq n :
  forall k s sims s',
    new_simulators env nq k n s = (Ok sims, s') ->
    forall j sim, sims !! j = Some sim -> sim_id sim = (k + j)%nat.
Proof.
  induction n as [|n IH]; intros k s sims s' H j sim Hj;
    cbn [new_simulators] in H.
  - injection H as <- <-. discriminate Hj.
  - apply bind_inv_Ok in H. destruct H as [has [s1 [_ H]]].
    apply bind_inv_Ok in H. destruct H as [rest [s2 [Hrest H]]].
    injection H as <- <-. destruct j as [|j].
    + cbn in Hj. injection Hj as <-. cbn. lia.
    + cbn in Hj. rewrite (IH _ _ _ _ Hrest j sim Hj). lia.
Qed.

(** X4.  A cell the constructor returns records its arguments, has layers
    of the sizes its methods rely on, and starts with one empty store
    entry per slot.  In the gpu mode it owns one simulator per slot, the
    simulator of slot [k] being the [k]-th built, and no backend; in the
    cpu-qiskit mode its backend is the Aer simulator; so the handle of the
    mode is present in both.  In the qr-cloud mode without QuantumRingsLib
    the backend is the stand-in. *)
Theorem constructor_postconditions :
  forall env mods nq depth hidden mode tok usr bname interval timeout ei di
         s c s',
    __init__ env mods nq depth hidden mode tok usr bname interval timeout ei di s
    = (Ok c, s') ->
    cell_ok mods c = true
    /\ store_ok c s' = true
    /\ quantum_memory_states s' = repeat None (Z.to_nat depth)
    /\ (num_qubits c, memory_depth c, classical_hidden_size c, backend_mode c,
        job_poll_interval c, job_timeout c)
       = (nq, depth, hidden, mode, interval, timeout)
    /\ (is_gpu mode = true ->
        backend c = None /\ handle_present c = true
        /\ exists sims,
            gpu_simulators c = Some sims
            /\ length sims = Z.to_nat depth
            /\ forall k sim, sims !! k = Some sim -> sim_id sim = k)
    /\ (is_gpu mode = false -> gpu_simulators c = None)
    /\ (is_cpu_qiskit mode = true ->
        backend c = Some AerSimulator /\ handle_present c = true)
    /\ (is_qr_cloud mode = true -> HAS_QUANTUM_RINGS mods = false ->
        backend c = Some (DummyBackendV2 nq) /\ handle_present c = true).
Proof.
  intros env mods nq depth hidden mode tok usr bname interval timeout ei di
         s c s' Hinit.
  destruct (init_establishes_invariants _ _ _ _ _ _ _ _ _ _ _ _ _ _ _ _ Hinit)
    as [Hok [Hst _]].
  split; [exact Hok |]. split; [exact Hst |].
  unfold __init__ in Hinit.
  destruct (negb (HAS_QISKIT mods) && negb (is_gpu mode)) eqn:Hq;
    [discriminate Hinit |].
  apply bind_inv_Ok in Hinit. destruct Hinit as [[] [s1 [_ H]]].
  apply bind_inv_Ok in H. destruct H as [sb [s2 [Hsb H]]].
  apply bind_inv_Ok in H. destruct H as [[] [s3 [Hset H]]].
  apply bind_inv_Ok in H. destruct H as [[] [s4 [Hpr H]]].
  injection H as <- <-.
  unfold set_store in Hset. injection Hset as <-.
  unfold print, log in Hpr. injection Hpr as <-.
  split; [reflexivity |]. split; [reflexivity |].
  unfold handle_present. cbn [backend gpu_simulators backend_mode].
  unfold init_backend in Hsb.
  split; [| split; [| split]].
  - intros Hg. rewrite Hg in Hsb |- *.
    destruct (HAS_CUQUANTUM mods); [| discriminate Hsb].
    apply bind_inv_Ok in Hsb. destruct Hsb as [[] [s5 [_ Hsb]]].
    apply bind_inv_Ok in Hsb. destruct Hsb as [sims [s6 [Hsims Hsb]]].
    injection Hsb as <- <-. cbn. repeat split.
    exists sims. split; [reflexivity |].
    split; [eapply new_simulators_length; exact Hsims |].
    intros k sim Hk.
    now rewrite (new_simulators_ids _ _ _ _ _ _ _ Hsims k sim Hk).
  - intros Hg. rewrite Hg in Hsb.
    destruct (is_qr_cloud mode).
    { destruct (HAS_QUANTUM_RINGS mods && truthy_str tok && truthy_str usr).
      - apply bind_inv_Ok in Hsb. destruct Hsb as [bk [s5 [_ Hsb]]].
        now injection Hsb as <- <-.
      - apply bind_inv_Ok in Hsb. destruct Hsb as [[] [s5 [_ Hsb]]].
        apply bind_inv_Ok in Hsb. destruct Hsb as [b [s6 [_ Hsb]]].
        now injection Hsb as <- <-. }
    destruct (is_cpu_qiskit mode); [| discriminate Hsb].
    destruct (HAS_QISKIT mods).
    + apply bind_inv_Ok in Hsb. destruct Hsb as [[] [s5 [_ Hsb]]].
      apply bind_inv_Ok in Hsb. destruct Hsb as [[] [s6 [_ Hsb]]].
      now injection Hsb as <- <-.
    + apply bind_inv_Ok in Hsb. destruct Hsb as [[] [s5 [_ Hsb]]].
      discriminate Hsb.
  - intros Hcpu.
    assert (is_gpu mode = false /\ is_qr_cloud mode = false) as [Hg Hqr].
    { unfold is_gpu, is_qr_cloud, is_cpu_qiskit in *.
      apply String.eqb_eq in Hcpu. now subst. }
    rewrite Hg, Hqr, Hcpu in Hsb. rewrite Hg.
    destruct (HAS_QISKIT mods).
    + apply bind_inv_Ok in Hsb. destruct Hsb as [[] [s5 [_ Hsb]]].
      apply bind_inv_Ok in Hsb. destruct Hsb as [[] [s6 [_ Hsb]]].
      injection Hsb as <- <-. split; reflexivity.
    + apply bind_inv_Ok in Hsb. destruct Hsb as [[] [s5 [_ Hsb]]].
      discriminate Hsb.
  - intros Hqr Hlib.
    assert (is_gpu mode = false) as Hg.
    { unfold is_gpu, is_qr_cloud in *. apply String.eqb_eq in Hqr. now subst. }
    rewrite Hg, Hqr, Hlib in Hsb. rewrite Hg. cbn [andb] in Hsb.
    unfold BackendV2 in Hsb. rewrite Hlib in Hsb.
    apply bind_inv_Ok in Hsb. destruct Hsb as [[] [s5 [_ Hsb]]].
    apply bind_inv_Ok in Hsb. destruct Hsb as [b [s6 [Hb Hsb]]].
    apply bind_inv_Ok in Hb. destruct Hb as [[] [s7 [_ Hb]]].
    injection Hb as <- <-. injection Hsb as <- <-. split; reflexivity.
Qed.

Lemma constructor_postconditions_witness :
  exists c s',
    ex_cell (ex_env JobStatus.DONE ex_counts) ex_all 3 "gpu" None None 5 300
    = (Ok c, s')
    /\ cell_ok ex_all c = true
    /\ store_ok c s' = true
    /\ quantum_memory_states s' = [None; None; None].
Proof.
  destruct (ex_cell (ex_env JobStatus.DONE ex_counts) ex_all 3 "gpu"
              None None 5 300) as [[c|e|] s'] eqn:E;
    try (vm_compute in E; discriminate E).
  exists c, s'. split; [reflexivity |].
  destruct (constructor_postconditions _ _ _ _ _ _ _ _ _ _ _ _ _ _ _ _ E)
    as [Hok [Hst [Hstore _]]].
  auto.
Defined.

(** ** Writing a batch *)

Lemma in_bounds_to_nat c x y :
  in_bounds c x = true -> in_bounds c y = true -> x <> y ->
  Z.to_nat x <> Z.to_nat y.
Proof.
  unfold in_bounds. intros Hx Hy Hne.
  apply andb_prop in Hx. apply andb_prop in Hy. lia.
Qed.

Lemma forallb_lookup {A} (f : A -> bool) (l : list A) i x :
  forallb f l = true -> l !! i = Some x -> f x = true.
Proof.
  intros Hall Hx. rewrite forallb_forall in Hall. apply Hall.
  apply list_elem_of_In. eapply list_elem_of_lookup_2. exact Hx.
Qed.

Lemma with_store_same s : with_store s (quantum_memory_states s) = s.
Proof. now destruct s. Qed.

Lemma write_loop_last_write_wins env mods c hidden :
  cell_ok mods c = true -> is_gpu (backend_mode c) = false ->
  t_cols hidden = classical_hidden_size c ->
  forall idxs i0 s,
    (forall i, (i < length idxs)%nat ->
       exists v, t_data hidden !! (i0 + i)%nat = Some v
                 /\ length v = classical_hidden_size c) ->
    forallb (in_bounds c) idxs = true ->
    store_ok c s = true ->
    exists st',
      write_loop env c hidden i0 idxs s = (Ok tt, with_store s st')
      /\ length st' = length (quantum_memory_states s)
      /\ (forall i slot v,
            idxs !! i = Some slot -> t_data hidden !! (i0 + i)%nat = Some v ->
            (forall j, (i < j)%nat -> idxs !! j <> Some slot) ->
            st' !! Z.to_nat slot = Some (Some (blueprint_of c (i0 + i) slot v)))
      /\ (forall k,
            (forall i slot, idxs !! i = Some slot -> Z.to_nat slot <> k) ->
            st' !! k = quantum_memory_states s !! k).
Proof.
  intros Hok Hg Hcols. induction idxs as [|x xs IH]; intros i0 s Hrows Hall Hs.
  - exists (quantum_memory_states s). cbn [write_loop]. unfold ret.
    rewrite with_store_same. repeat split; try reflexivity.
    intros i slot v Hi. discriminate Hi.
  - cbn [forallb] in Hall. apply andb_prop in Hall. destruct Hall as [Hx Hall].
    destruct (Hrows 0%nat) as [v0 [Hv0 Hlen0]]; [cbn; lia |].
    rewrite Nat.add_0_r in Hv0.
    pose proof (write_item_circuit env mods c hidden v0 i0 x s
                  Hok Hg Hx Hs Hv0 Hcols Hlen0) as Hitem.
    set (s1 := with_store s
                 (<[Z.to_nat x := Some (blueprint_of c i0 x v0)]>
                    (quantum_memory_states s))) in *.
    assert (store_ok c s1 = true) as Hs1.
    { unfold store_ok in *. subst s1. cbn. now rewrite length_insert. }
    destruct (IH (S i0) s1) as [st' [Hloop [Hlen [Hlast Hother]]]];
      [| exact Hall | exact Hs1 |].
    { intros i Hi. destruct (Hrows (S i)) as [v Hv]; [cbn; lia |].
      exists v. now replace (S i0 + i)%nat with (i0 + S i)%nat by lia. }
    assert (Z.to_nat x < length (quantum_memory_states s))%nat as Hxlt.
    { unfold store_ok in Hs. apply Nat.eqb_eq in Hs.
      unfold in_bounds in Hx. apply andb_prop in Hx. lia. }
    exists st'. split; [| split; [| split]].
    + cbn [write_loop]. erewrite bind_Ok by exact Hitem. exact Hloop.
    + rewrite Hlen. subst s1. cbn. apply length_insert.
    + intros i slot v Hi Hv Hlater. destruct i as [|i].
      * cbn in Hi. injection Hi as <-. rewrite Nat.add_0_r in *.
        rewrite Hv0 in Hv. injection Hv as <-.
        rewrite Hother.
        { subst s1. cbn. now apply list_lookup_insert_eq. }
        intros j slot' Hj. apply in_bounds_to_nat with (c := c).
        -- eapply forallb_lookup; eassumption.
        -- exact Hx.
        -- intros ->. apply (Hlater (S j)); [lia | exact Hj].
      * replace (i0 + S i)%nat with (S i0 + i)%nat in * by lia.
        apply Hlast; [exact Hi | exact Hv |].
        intros j Hj. apply (Hlater (S j)). lia.
    + intros k Hk. rewrite Hother.
      * subst s1. cbn. apply list_lookup_insert_ne.
        apply (Hk 0%nat x). reflexivity.
      * intros i slot Hi. apply (Hk (S i) slot). exact Hi.
Qed.

(** X5.  In the cpu-qiskit and qr-cloud modes, a batch write with valid
    slot indices and rows of the right width succeeds and changes only the
    store, which keeps its length.  A slot targeted by several items holds
    the blueprint of the last of them (last write wins); a slot that no
    item targets keeps its content. *)
Theorem batch_write_last_write_wins :
  forall env mods c hidden idxs s,
    cell_ok mods c = true ->
    is_gpu (backend_mode c) = false ->
    store_ok c s = true ->
    tensor_wf hidden = true ->
    t_cols hidden = classical_hidden_size c ->
    length idxs = t_rows hidden ->
    forallb (in_bounds c) idxs = true ->
    exists st',
      write env c hidden (SlotSeq idxs) s = (Ok tt, with_store s st')
      /\ length st' = length (quantum_memory_states s)
      /\ (forall i slot v,
            idxs !! i = Some slot -> t_data hidden !! i = Some v ->
            (forall j, (i < j)%nat -> idxs !! j <> Some slot) ->
            st' !! Z.to_nat slot = Some (Some (blueprint_of c i slot v)))
      /\ (forall k,
            (forall i slot, idxs !! i = Some slot -> Z.to_nat slot <> k) ->
            st' !! k = quantum_memory_states s !! k).
Proof.
  intros env mods c hidden idxs s Hok Hg Hs Hwf Hcols Hlen Hall.
  rewrite write_tensor. unfold write_batch.
  rewrite Hlen, Nat.eqb_refl. cbn [negb].
  apply (write_loop_last_write_wins env mods c hidden Hok Hg Hcols idxs 0%nat s);
    try assumption.
  intros i Hi. unfold tensor_wf in Hwf. apply andb_prop in Hwf.
  destruct Hwf as [Hrows Hwidth]. apply Nat.eqb_eq in Hrows.
  destruct (lookup_lt_is_Some_2 (t_data hidden) i) as [v Hv]; [lia |].
  exists v. split; [exact Hv |].
  rewrite <- Hcols. apply Nat.eqb_eq.
  eapply (forallb_lookup (fun r => Nat.eqb (length r) (t_cols hidden)));
    eassumption.
Qed.

Lemma batch_write_last_write_wins_witness :
  match ex_cell (ex_env JobStatus.DONE ex_counts) ex_all 2 "cpu-qiskit"
                None None 5 300 with
  | (Ok c, s) =>
      exists st',
        write (ex_env JobStatus.DONE ex_counts) c
          (mkTensor 3 4 [[1; 0; 0; 0]; [0; 1; 0; 0]; [0; 0; 1; 0]]%Q)
          (SlotSeq [1; 0; 1]) s
        = (Ok tt, with_store s st')
        /\ st' !! 1%nat = Some (Some (blueprint_of c 2 1 [0; 0; 1; 0]%Q))
  | _ => False
  end.
Proof.
  build_cell.
  match goal with
  | |- exists st', write ?env ?c ?hidden (SlotSeq ?idxs) ?s = _ /\ _ =>
      destruct (batch_write_last_write_wins env ex_all c hidden idxs s
                  eq_refl eq_refl eq_refl eq_refl eq_refl eq_refl eq_refl)
        as [st' [Hw [_ [Hlast _]]]];
      exists st'; split; [exact Hw |];
      apply (Hlast 2%nat 1 [0; 0; 1; 0]%Q eq_refl eq_refl)
  end.
  intros j Hj. destruct j as [|[|[|j]]]; try lia; discriminate.
Defined.

Lemma get_angles_single_wrong_width mods c v w s :
  cell_ok mods c = true -> w <> classical_hidden_size c ->
  exists e,
    _get_angles_single c (mkTensor 1 w [v]) s = (Raise e, s)
    /\ exn_cls e = RuntimeError.
Proof.
  intros Hok Hw. destruct (cell_ok_encoder _ _ Hok) as [Hin _].
  unfold _get_angles_single, linear_forward. cbn [t_rows t_cols Nat.eqb negb].
  rewrite Hin. apply Nat.eqb_neq in Hw. rewrite Hw.
  eexists. split; reflexivity.
Qed.

(** X6.  How [write] treats its arguments before it touches anything.  A
    Python list with an element outside the 64-bit range, or an [int]
    outside it with a non-empty batch, fails in the conversion to a
    tensor, before the length is looked at.  A list that converts is
    treated like the tensor of the same indices, an [int] that converts
    like that index once per row.  A tensor, or a list that converts,
    whose length differs from the batch size is rejected with the
    [ValueError] of [write].  An empty batch with an [int] index succeeds
    without any effect, whatever the index.  A first row of the wrong
    width is rejected by the encoding layer with a [RuntimeError].  The
    state is untouched in each of these cases. *)
Theorem write_argument_checks :
  forall env mods c hidden s,
    (forall idxs slots,
        slots = SlotSeq idxs
        \/ (slots = SlotList idxs /\ forallb fits_int64 idxs = true) ->
        length idxs <> t_rows hidden ->
        write env c hidden slots s
        = (Raise (mk_exn ValueError
                    "memory_slot_indices_batch must be an int or a list/tensor of length batch_size."),
           s))
    /\ (forall idxs,
          forallb fits_int64 idxs = false ->
          exists e, write env c hidden (SlotList idxs) s = (Raise e, s))
    /\ (forall idxs,
          forallb fits_int64 idxs = true ->
          write env c hidden (SlotList idxs) s
          = write env c hidden (SlotSeq idxs) s)
    /\ (forall z,
          fits_int64 z = true ->
          write env c hidden (SlotInt z) s
          = write env c hidden (SlotSeq (repeat z (t_rows hidden))) s)
    /\ (forall z,
          fits_int64 z = false -> t_rows hidden <> 0%nat ->
          exists e, write env c hidden (SlotInt z) s = (Raise e, s))
    /\ (forall z, t_rows hidden = 0%nat ->
          write env c hidden (SlotInt z) s = (Ok tt, s))
    /\ (forall slot_idx idxs v,
          cell_ok mods c = true ->
          length (slot_idx :: idxs) = t_rows hidden ->
          in_bounds c slot_idx = true ->
          t_data hidden !! 0%nat = Some v ->
          t_cols hidden <> classical_hidden_size c ->
          exists e,
            write env c hidden (SlotSeq (slot_idx :: idxs)) s = (Raise e, s)
            /\ exn_cls e = RuntimeError).
Proof.
  intros env mods c hidden s.
  split; [| split; [| split; [| split; [| split; [| split]]]]].
  - intros idxs slots Hslots Hlen.
    rewrite (write_converted _ _ _ _ idxs).
    + unfold write_batch. apply Nat.eqb_neq in Hlen. now rewrite Hlen.
    + destruct Hslots as [-> | [-> Hfit]]; cbn [write_indices];
        [reflexivity | now apply torch_tensor_fits].
  - intros idxs Hfit. exists int64_overflow. apply write_not_converted.
    cbn [write_indices]. now apply torch_tensor_overflow.
  - intros idxs Hfit. rewrite write_tensor. apply write_converted.
    cbn [write_indices]. now apply torch_tensor_fits.
  - intros z Hfit. rewrite write_tensor. apply write_converted.
    cbn [write_indices]. apply torch_tensor_fits.
    apply forallb_forall. intros x Hx. apply repeat_spec in Hx. now subst x.
  - intros z Hfit Hrows. exists int64_overflow. apply write_not_converted.
    cbn [write_indices]. apply torch_tensor_overflow.
    destruct (t_rows hidden) as [|n]; [congruence |]. cbn. now rewrite Hfit.
  - intros z Hrows. rewrite (write_converted _ _ _ _ []).
    + unfold write_batch. rewrite Hrows. reflexivity.
    + cbn [write_indices]. rewrite Hrows. reflexivity.
  - intros slot_idx idxs v Hok Hlen Hb Hrow Hcols.
    destruct (get_angles_single_wrong_width mods c v (t_cols hidden) s Hok Hcols)
      as [e [He Hcls]].
    exists e. split; [| exact Hcls].
    rewrite write_tensor. unfold write_batch.
    rewrite Hlen, Nat.eqb_refl. cbn [negb write_loop].
    apply bind_Raise. unfold write_item. rewrite Hb. cbn [negb].
    erewrite bind_Ok.
    2:{ unfold index. rewrite Nat2Z.id, Hrow. reflexivity. }
    apply bind_Raise. exact He.
Qed.

Lemma write_argument_checks_witness :
  match ex_cell (ex_env JobStatus.DONE ex_counts) ex_all 2 "cpu-qiskit"
                None None 5 300 with
  | (Ok c, s) =>
      write (ex_env JobStatus.DONE ex_counts) c
        (mkTensor 1 4 [[1; 0; 0; 0]%Q]) (SlotList [0; 1]) s
      = (Raise (mk_exn ValueError
                  "memory_slot_indices_batch must be an int or a list/tensor of length batch_size."),
         s)
  | _ => False
  end.
Proof.
  build_cell.
  match goal with
  | |- write ?env ?c ?hidden (SlotList ?idxs) ?s = _ =>
      apply (proj1 (write_argument_checks env ex_all c hidden s) idxs
               (SlotList idxs) (or_intror (conj eq_refl eq_refl)))
  end.
  cbn. lia.
Defined.

(** ** The GPU branch *)

Lemma gpu_rotations_spec env sim (ang : list (Q * Q)) :
  (forall tr, env_unit env tr = Returns tt) ->
  forall pre s,
    gpu_rotations env sim (pre ++ ang) (seq (length pre) (length ang)) s
    = (Ok tt,
       with_trace s
         (rev (concat (imap (fun q a =>
                               [EvSimRy (sim_id sim) (fst a) (length pre + q);
                                EvSimRz (sim_id sim) (snd a) (length pre + q)])
                            ang))
          ++ trace s)).
Proof.
  intros Hunit. induction ang as [|a ang IH]; intros pre s.
  - cbn. unfold ret, with_trace. now destruct s.
  - cbn [length seq gpu_rotations]. unfold index.
    rewrite Nat2Z.id, list_lookup_middle by reflexivity.
    unfold_monad. cbn. rewrite !Hunit. cbn.
    replace (pre ++ a :: ang) with ((pre ++ [a]) ++ ang) by now rewrite <- app_assoc.
    replace (S (length pre)) with (length (pre ++ [a]))
      by (rewrite length_app; cbn; lia).
    rewrite IH. unfold with_trace. cbn. f_equal. f_equal.
    rewrite Nat.add_0_r.
    erewrite (imap_ext _ ((fun q a0 =>
                [EvSimRy (sim_id sim) (fst a0) (length pre + q);
                 EvSimRz (sim_id sim) (snd a0) (length pre + q)]) ∘ S)).
    2:{ intros k x _. cbn. rewrite length_app. cbn.
        now replace (length pre + 1 + k)%nat with (length pre + S k)%nat by lia. }
    now rewrite <- !app_assoc.
Qed.

(** X7.  In the gpu mode, writing the row [v] to a valid slot drives the
    simulator of that slot and nothing else: when the simulator calls
    return, the events are one reset followed, for each qubit in index
    order, by an [ry] and an [rz] with the encoded angles, and the store
    entry of the slot is set to [None].  [write] has no handler: when the
    reset raises, the exception leaves [write] before any rotation and
    with the store untouched. *)
Theorem gpu_write_resets_then_rotates :
  forall env mods c hidden i slot_idx v sims sim s,
    cell_ok mods c = true ->
    is_gpu (backend_mode c) = true ->
    in_bounds c slot_idx = true ->
    store_ok c s = true ->
    gpu_simulators c = Some sims ->
    sims !! Z.to_nat slot_idx = Some sim ->
    t_data hidden !! i = Some v ->
    t_cols hidden = classical_hidden_size c ->
    length v = classical_hidden_size c ->
    ((forall tr, env_unit env tr = Returns tt) ->
     write_item env c hidden i slot_idx s
     = (Ok tt,
        mkState (<[Z.to_nat slot_idx := None]> (quantum_memory_states s))
                (clock s)
                (gpu_write_events (sim_id sim) (encoded_angles c v) ++ trace s)))
    /\ (forall e,
          env_unit env (EvSimReset (sim_id sim) :: trace s) = Raises e ->
          write_item env c hidden i slot_idx s
          = (Raise e, with_trace s (EvSimReset (sim_id sim) :: trace s))).
Proof.
  intros env mods c hidden i slot_idx v sims sim s
         Hok Hg Hb Hs Hsims Hsim Hrow Hcols Hv.
  assert (write_item env c hidden i slot_idx s
            = (sims0 ← the_simulators c;
               sim0 ← index sims0 slot_idx;
               _ ← call (EvSimReset (sim_id sim0)) (env_unit env);
               _ ← gpu_rotations env sim0 (encoded_angles c v)
                     (seq 0 (num_qubits c));
               store_set slot_idx None) s) as Hstart.
  { unfold write_item. rewrite Hb, Hg. cbn [negb].
    erewrite bind_Ok.
    2:{ unfold index. rewrite Nat2Z.id, Hrow. reflexivity. }
    erewrite bind_Ok.
    2:{ rewrite Hcols. apply (get_angles_single_spec mods); assumption. }
    reflexivity. }
  rewrite Hstart. clear Hstart.
  erewrite bind_Ok.
  2:{ unfold the_simulators. rewrite Hsims. reflexivity. }
  erewrite bind_Ok.
  2:{ unfold index. rewrite Hsim. reflexivity. }
  split.
  - intros Hunit.
    erewrite bind_Ok.
    2:{ unfold call, lift. rewrite Hunit. reflexivity. }
    erewrite bind_Ok.
    2:{ pose proof (gpu_rotations_spec env sim (encoded_angles c v) Hunit [])
          as Hrot.
        cbn [app length Nat.add] in Hrot.
        rewrite encoded_angles_length in Hrot. apply Hrot. }
    unfold store_set, with_trace. unfold_monad.
    cbn [quantum_memory_states clock trace].
    assert ((Z.to_nat slot_idx <? length (quantum_memory_states s))%nat = true) as ->.
    { apply Nat.ltb_lt. unfold store_ok in Hs. apply Nat.eqb_eq in Hs.
      unfold in_bounds in Hb. apply andb_prop in Hb. destruct Hb. lia. }
    unfold gpu_write_events. cbn [rev]. now rewrite <- app_assoc.
  - intros e He. apply bind_Raise.
    unfold call, lift. cbn. rewrite He. reflexivity.
Qed.

Lemma gpu_write_resets_then_rotates_witness :
  match ex_cell (ex_env JobStatus.DONE ex_counts) ex_all 2 "gpu"
                None None 5 300 with
  | (Ok c, s) =>
      exists s',
        write_item (ex_env JobStatus.DONE ex_counts) c
          (mkTensor 1 4 [[1; 0; 0; 0]%Q]) 0 1 s = (Ok tt, s')
        /\ trace s' = gpu_write_events 1 (encoded_angles c [1; 0; 0; 0]%Q)
                      ++ trace s
  | _ => False
  end.
Proof.
  build_cell. eexists. split.
  - match goal with
    | |- write_item ?env ?c ?hidden ?i ?slot ?s = _ =>
        apply (proj1 (gpu_write_resets_then_rotates env ex_all c hidden i slot
                        [1; 0; 0; 0]%Q [mkSim 0 true; mkSim 1 true]
                        (mkSim 1 true) s
                        eq_refl eq_refl eq_refl eq_refl eq_refl eq_refl
                        eq_refl eq_refl eq_refl))
    end.
    intros tr. reflexivity.
  - reflexivity.
Defined.

Lemma gpu_read_item env mods fuel c shots i slot_idx sims sim counts s :
  cell_ok mods c = true -> is_gpu (backend_mode c) = true ->
  in_bounds c slot_idx = true ->
  gpu_simulators c = Some sims -> sims !! Z.to_nat slot_idx = Some sim ->
  env_counts env (EvMeasureShots (sim_id sim) (seq 0 (num_qubits c)) shots
                  :: trace s) = Returns counts ->
  probs_error (num_qubits c) counts shots = None ->
  exists row,
    read_item env mods fuel c shots i slot_idx s
    = (Ok row,
       with_trace s (EvMeasureShots (sim_id sim) (seq 0 (num_qubits c)) shots
                     :: trace s))
    /\ linear_forward (decoding_linear c)
         (unsqueeze0 (compute_probs (num_qubits c) counts shots)) = Returns row.
Proof.
  intros Hok Hg Hb Hsims Hsim Hcounts Herr.
  destruct (decode_row mods c counts shots
              (with_trace s (EvMeasureShots (sim_id sim) (seq 0 (num_qubits c)) shots
                             :: trace s)) Hok Herr) as [row [Hdec [Hlin _]]].
  exists row. split; [| exact Hlin].
  unfold read_item. rewrite Hb, Hg. cbn [negb].
  erewrite bind_Ok.
  2:{ unfold gpu_measure.
      erewrite bind_Ok.
      2:{ unfold the_simulators. rewrite Hsims. reflexivity. }
      erewrite bind_Ok.
      2:{ unfold index. rewrite Hsim. reflexivity. }
      erewrite bind_Ok.
      2:{ unfold call, lift. cbn. rewrite Hcounts. reflexivity. }
      reflexivity. }
  exact Hdec.
Qed.

(** X8.  In the gpu mode, [read] of a batch of valid slots measures each
    item once, in batch order, on the simulator of its slot, over all the
    qubits and with the requested shots; when the measurements return
    counts whose probabilities a float holds, it returns a tensor, makes
    no other call, prints nothing and leaves the clock and the store
    alone. *)
Theorem gpu_read_measures_each_item_once :
  forall env mods fuel c shots sims idxs s,
    cell_ok mods c = true ->
    is_gpu (backend_mode c) = true ->
    gpu_simulators c = Some sims ->
    (forall k sim, sims !! k = Some sim -> sim_id sim = k) ->
    forallb (in_bounds c) idxs = true ->
    (forall tr, exists counts,
        env_counts env tr = Returns counts
        /\ probs_error (num_qubits c) counts shots = None) ->
    exists t,
      read env mods fuel c (SlotSeq idxs) shots s
      = (Ok t,
         with_trace s
           (rev (map (fun slot_idx =>
                        EvMeasureShots (Z.to_nat slot_idx)
                          (seq 0 (num_qubits c)) shots) idxs)
            ++ trace s)).
Proof.
  intros env mods fuel c shots sims idxs s Hok Hg Hsims Hids Hall Hret.
  assert (forall idxs i s,
            forallb (in_bounds c) idxs = true ->
            exists outs,
              read_loop env mods fuel c shots i idxs s
              = (Ok outs,
                 with_trace s
                   (rev (map (fun slot_idx =>
                                EvMeasureShots (Z.to_nat slot_idx)
                                  (seq 0 (num_qubits c)) shots) idxs)
                    ++ trace s))) as Hloop.
  { clear idxs s Hall. induction idxs as [|x xs IH]; intros i s Hall.
    - exists []. cbn. unfold ret, with_trace. now destruct s.
    - cbn [forallb] in Hall. apply andb_prop in Hall. destruct Hall as [Hx Hall].
      assert (exists sim, sims !! Z.to_nat x = Some sim) as [sim Hsim].
      { apply lookup_lt_is_Some_2.
        unfold cell_ok in Hok. rewrite Hg, Hsims in Hok.
        apply andb_prop in Hok. destruct Hok as [_ Hlen].
        apply Nat.eqb_eq in Hlen.
        unfold in_bounds in Hx. apply andb_prop in Hx. destruct Hx. lia. }
      destruct (Hret (EvMeasureShots (sim_id sim) (seq 0 (num_qubits c)) shots
                      :: trace s)) as [counts [Hcounts Herr]].
      destruct (gpu_read_item env mods fuel c shots i x sims sim counts s
                  Hok Hg Hx Hsims Hsim Hcounts Herr) as [row [Hitem _]].
      rewrite (Hids _ _ Hsim) in Hitem.
      destruct (IH (S i)
                  (with_trace s (EvMeasureShots (Z.to_nat x)
                                   (seq 0 (num_qubits c)) shots :: trace s))
                  Hall) as [outs Houts].
      exists (row :: outs). cbn [read_loop].
      erewrite bind_Ok by exact Hitem.
      erewrite bind_Ok by exact Houts.
      unfold ret, with_trace. cbn. now rewrite <- app_assoc. }
  destruct (Hloop idxs 0%nat s Hall) as [outs Houts].
  pose proof (read_loop_rows _ _ _ _ _ _ Hok _ _ _ _ Houts) as [Hlen Hrows].
  rewrite read_tensor. unfold read_batch.
  rewrite Hg, Hsims. cbn [negb andb is_None].
  erewrite bind_Ok by exact Houts.
  destruct outs as [|row outs].
  - eexists. reflexivity.
  - destruct (torch_cat_rows (classical_hidden_size c) (row :: outs))
      as [t [Ht _]]; [discriminate | exact Hrows |].
    exists t. now rewrite Ht.
Qed.

Lemma gpu_read_measures_each_item_once_witness :
  match ex_cell (ex_env JobStatus.DONE ex_counts) ex_all 3 "gpu"
                None None 5 300 with
  | (Ok c, s) =>
      exists t,
        read (ex_env JobStatus.DONE ex_counts) ex_all 0 c (SlotSeq [2; 0]) 100 s
        = (Ok t, with_trace s (EvMeasureShots 0 [0; 1]%nat 100
                               :: EvMeasureShots 2 [0; 1]%nat 100 :: trace s))
  | _ => False
  end.
Proof.
  build_cell.
  match goal with
  | |- exists t, read ?env ?mods ?fuel ?c (SlotSeq ?idxs) ?shots ?s = _ =>
      apply (gpu_read_measures_each_item_once env mods fuel c shots
               [mkSim 0 true; mkSim 1 true; mkSim 2 true] idxs s
               eq_refl eq_refl eq_refl)
  end.
  - intros [|[|[|k]]] sim H; try discriminate H; now injection H as <-.
  - reflexivity.
  - intros tr. eexists. split; reflexivity.
Defined.

(** ** The stand-in backend *)

Lemma str_repeat_zero_get n : forall k,
  String.get k (str_repeat "0" n) <> Some "1"%char.
Proof.
  induction n as [|n IH]; intros k; [now destruct k |].
  cbn [str_repeat]. destruct k as [|k]; [discriminate | apply IH].
Qed.

Lemma count_ones_dummy nq nq' shots q :
  count_ones nq (dummy_counts nq' shots) q = 0.
Proof.
  unfold dummy_counts. rewrite count_ones_single.
  rewrite bool_decide_eq_false_2 by apply str_repeat_zero_get.
  now rewrite andb_false_r.
Qed.

Lemma dummy_backend_first_status env mods fuel c shots i slot_idx qc nq' s :
  is_qr_cloud (backend_mode c) = true ->
  backend c = Some (DummyBackendV2 nq') ->
  let printed := EvPrint ("Dummy QR BackendV2: Running circuit with "
                          +:+ str_Z shots +:+ " shots.") :: trace s in
  let waited := Z.of_N (env_latency env printed) in
  let s1 := mkState (quantum_memory_states s) (clock s + waited) printed in
  execute env (S fuel) c i slot_idx (measurement_circuit mods c i slot_idx qc)
    shots s
  = if job_timeout c <? waited
    then (Raise (timed_out i slot_idx JobStatus.RUNNING), s1)
    else match time_sleep env (job_poll_interval c) s1 with
         | (Ok _, s2) =>
             match poll env fuel c i slot_idx (clock s)
                     (DummyJob (measurement_circuit mods c i slot_idx qc) shots
                        JobStatus.RUNNING None) s2 with
             | (Ok sj, s3) =>
                 if negb (String.eqb (fst sj) JobStatus.DONE)
                 then (Raise (job_failed i slot_idx (fst sj)), s3)
                 else job_counts env (snd sj) s3
             | (Raise e, s3) => (Raise e, s3)
             | (Hang, s3) => (Hang, s3)
             end
         | (Raise e, s2) => (Raise e, s2)
         | (Hang, s2) => (Hang, s2)
         end.
Proof.
  intros Hq Hb printed waited s1.
  erewrite execute_qr_cloud; [| exact Hq |].
  2:{ unfold backend_run. rewrite Hb. unfold_monad. reflexivity. }
  rewrite poll_round. cbn [job_status]. unfold_monad.
  cbn [DummyJob_status fst snd String.eqb Ascii.eqb Bool.eqb JobStatus.QUEUED
       JobStatus.RUNNING JobStatus.DONE trace clock quantum_memory_states].
  change (is_terminal JobStatus.RUNNING) with false. cbn iota.
  fold printed. fold waited.
  replace (clock s + waited - clock s) with waited by lia.
  fold s1.
  destruct (job_timeout c <? waited); [reflexivity |].
  now destruct (time_sleep env (job_poll_interval c) s1) as [[[]|e|] s2].
Qed.

(** X9.  On the module's stand-in backend in the qr-cloud mode, the first
    status a job reports is [RUNNING] and the second [DONE].  When the
    first status call returns within [job_timeout] and the poll interval
    is not negative, the [try] block of [read] completes after exactly one
    sleep, with the counts table that maps the all-zero bitstring of
    [num_qubits] characters to [shots], whatever blueprint the slot holds.
    When the first status call takes longer than [job_timeout] (with a
    timeout of 0: any time at all), the item times out into the fallback.
    No bit is ever 1 in the counts of the stand-in, so every probability
    [read] derives from them is zero. *)
Theorem dummy_backend_reads_zero_counts :
  forall env mods fuel c shots i slot_idx qc nq' s,
    is_qr_cloud (backend_mode c) = true ->
    backend c = Some (DummyBackendV2 nq') ->
    (2 <= fuel)%nat ->
    let printed := EvPrint ("Dummy QR BackendV2: Running circuit with "
                            +:+ str_Z shots +:+ " shots.") :: trace s in
    let waited := Z.of_N (env_latency env printed) in
    (waited <= job_timeout c ->
     0 <= job_poll_interval c ->
     exists s',
       run_blueprint env mods fuel c shots i slot_idx qc s
       = (Ok (inr (dummy_counts (num_qubits c) shots)), s')
       /\ trace s' = EvSleep (job_poll_interval c) :: printed
       /\ clock s + job_poll_interval c <= clock s'
       /\ quantum_memory_states s' = quantum_memory_states s)
    /\ (job_timeout c < waited ->
        run_blueprint env mods fuel c shots i slot_idx qc s
        = item_fallback env c i slot_idx
            (timed_out i slot_idx JobStatus.RUNNING)
            (mkState (quantum_memory_states s) (clock s + waited) printed))
    /\ (forall q,
          count_ones (num_qubits c) (dummy_counts (num_qubits c) shots) q = 0)
    /\ Forall (fun p => p == 0)%Q
         (compute_probs (num_qubits c) (dummy_counts (num_qubits c) shots) shots).
Proof.
  intros env mods fuel c shots i slot_idx qc nq' s Hq Hb Hfuel printed waited.
  destruct fuel as [|[|fuel]]; try lia.
  pose proof (dummy_backend_first_status env mods (S fuel) c shots i slot_idx qc
                nq' s Hq Hb) as Hexec.
  cbv zeta in Hexec. fold printed in Hexec. fold waited in Hexec.
  split; [| split; [| split]].
  - intros Hto Hiv. rewrite run_blueprint_cases, Hexec.
    assert ((job_timeout c <? waited) = false) as -> by lia.
    unfold time_sleep.
    assert ((job_poll_interval c <? 0) = false) as -> by lia.
    unfold_monad. cbn [trace clock quantum_memory_states].
    rewrite poll_round. cbn [job_status]. unfold_monad.
    cbn [DummyJob_status fst snd]. cbn.
    eexists. split; [unfold dummy_counts; now rewrite Nat.add_0_r |].
    cbn. repeat split. lia.
  - intros Hto. rewrite run_blueprint_cases, Hexec.
    now assert ((job_timeout c <? waited) = true) as -> by lia.
  - intros q. apply count_ones_dummy.
  - unfold compute_probs, dummy_counts. cbn [map].
    apply Forall_forall. intros p Hp. apply list_elem_of_In in Hp.
    apply in_map_iff in Hp. destruct Hp as [q [<- _]].
    destruct (0 <? shots); [| reflexivity].
    fold (dummy_counts (num_qubits c) shots). rewrite count_ones_dummy.
    unfold Qdiv. apply Qmult_0_l.
Qed.

Lemma dummy_backend_reads_zero_counts_witness :
  match ex_cell (ex_env JobStatus.ERROR ex_counts) ex_qiskit_only 1 "qr-cloud"
                None None 5 300 with
  | (Ok c, s) =>
      exists s',
        run_blueprint (ex_env JobStatus.ERROR ex_counts) ex_qiskit_only 2 c 100 0 0
          (blueprint_of c 0 0 [1; 0; 0; 0]%Q) s
        = (Ok (inr [("00", 100)]), s')
        /\ 5 <= clock s'
  | _ => False
  end.
Proof.
  build_cell.
  match goal with
  | |- exists s', run_blueprint ?env ?mods ?fuel ?c ?shots ?i ?slot ?qc ?s = _ /\ _ =>
      destruct (proj1 (dummy_backend_reads_zero_counts env mods fuel c shots i
                         slot qc 2%nat s eq_refl eq_refl (le_n 2)))
        as [s' [Hrun [_ [Hclk _]]]]; [vm_compute; discriminate | discriminate |];
      exists s'; split; [exact Hrun | exact Hclk]
  end.
Defined.

(** X10.  Degenerate polling settings in the qr-cloud mode.  When the
    first status of a submitted job is not terminal, a timeout that has
    already elapsed (in particular a negative [job_timeout]) makes the
    item fall back on the [TimeoutError] after that single poll; otherwise
    a negative [job_poll_interval] makes [time.sleep] raise its
    [ValueError], and the item falls back on it, the job having been
    polled once. *)
Theorem degenerate_polling_settings_fall_back :
  forall env mods fuel c shots i slot_idx qc s job s1 sj s2,
    is_qr_cloud (backend_mode c) = true ->
    (1 <= fuel)%nat ->
    backend_run env c (measurement_circuit mods c i slot_idx qc) shots s
    = (Ok job, s1) ->
    job_status env job s1 = (Ok sj, s2) ->
    is_terminal (fst sj) = false ->
    (job_timeout c < clock s2 - clock s1 ->
     run_blueprint env mods fuel c shots i slot_idx qc s
     = item_fallback env c i slot_idx (timed_out i slot_idx (fst sj)) s2)
    /\ (job_timeout c >= clock s2 - clock s1 ->
        job_poll_interval c < 0 ->
        run_blueprint env mods fuel c shots i slot_idx qc s
        = item_fallback env c i slot_idx
            (mk_exn ValueError "sleep length must be non-negative") s2).
Proof.
  intros env mods fuel c shots i slot_idx qc s job s1 sj s2
         Hq Hfuel Hrun Hst Hterm.
  destruct fuel as [|fuel]; [lia |].
  rewrite run_blueprint_cases.
  rewrite (execute_qr_cloud env (S fuel) c i slot_idx _ shots s job s1 Hq Hrun).
  rewrite poll_round, Hst, Hterm.
  split.
  - intros Hto. apply Z.ltb_lt in Hto. now rewrite Hto.
  - intros Hto Hiv.
    assert ((job_timeout c <? clock s2 - clock s1) = false) as -> by lia.
    unfold time_sleep.
    assert ((job_poll_interval c <? 0) = true) as -> by lia.
    reflexivity.
Qed.

Lemma degenerate_polling_settings_fall_back_witness :
  match ex_cell (ex_env JobStatus.DONE ex_counts) ex_qiskit_only 1 "qr-cloud"
                None None (-1) 300 with
  | (Ok c, s) =>
      exists s2,
        run_blueprint (ex_env JobStatus.DONE ex_counts) ex_qiskit_only 3 c 100 0 0
          (empty_blueprint c 0 0) s
        = item_fallback (ex_env JobStatus.DONE ex_counts) c 0 0
            (mk_exn ValueError "sleep length must be non-negative") s2
  | _ => False
  end.
Proof.
  build_cell. eexists.
  match goal with
  | |- run_blueprint ?env ?mods ?fuel ?c ?shots ?i ?slot ?qc ?s = _ =>
      eapply (proj2 (degenerate_polling_settings_fall_back env mods fuel c shots
                       i slot qc s _ _ _ _ eq_refl ltac:(lia) eq_refl eq_refl
                       eq_refl))
  end.
  - cbn. lia.
  - reflexivity.
Defined.

(** ** Batches *)

Lemma read_with_handle_present env mods fuel c idxs shots s :
  handle_present c = true ->
  read_batch env mods fuel c idxs shots s
  = match read_loop env mods fuel c shots 0 idxs s with
    | (Ok [], s') => (Ok (torch_empty0 (classical_hidden_size c)), s')
    | (Ok outs, s') => lift (torch_cat outs) s'
    | (Raise e, s') => (Raise e, s')
    | (Hang, s') => (Hang, s')
    end.
Proof.
  intros Hh. unfold read_batch, handle_present in *.
  destruct (is_gpu (backend_mode c)); cbn [negb andb];
    apply negb_true_iff in Hh; rewrite Hh; unfold_monad;
    destruct (read_loop _ _ _ _ _ _ _ _) as [[[|row outs]|e|] s']; reflexivity.
Qed.

Lemma row_data hidden row :
  is_row hidden row -> exists r, t_data row = [r] /\ length r = hidden.
Proof.
  intros [Hshape Hwf]. destruct row as [n w d]. unfold shape in Hshape.
  cbn in Hshape. injection Hshape as -> ->.
  unfold tensor_wf in Hwf. cbn in Hwf. apply andb_prop in Hwf.
  destruct Hwf as [Hlen Hall]. apply Nat.eqb_eq in Hlen.
  destruct d as [|r [|r' d]]; try discriminate Hlen.
  exists r. split; [reflexivity |]. cbn in Hall.
  rewrite andb_true_r in Hall. now apply Nat.eqb_eq.
Qed.

Lemma concat_rows_lookup hidden (outs : list Tensor) :
  Forall (is_row hidden) outs ->
  forall k row, outs !! k = Some row ->
    concat (map t_data outs) !! k = t_data row !! 0%nat.
Proof.
  induction 1 as [|out outs Hout _ IH]; intros k row Hk; [discriminate Hk |].
  destruct (row_data _ _ Hout) as [r [Hr _]].
  cbn [map concat]. rewrite Hr. cbn [app]. destruct k as [|k].
  - cbn in Hk. injection Hk as <-. now rewrite Hr.
  - cbn in Hk. cbn. now apply IH.
Qed.

Lemma torch_cat_data (outs : list Tensor) t :
  torch_cat outs = Returns t -> t_data t = concat (map t_data outs).
Proof.
  unfold torch_cat. destruct outs as [|o outs]; [discriminate |].
  destruct (forallb _ _); [| discriminate]. now intros [= <-].
Qed.

(** X11.  The rows of the tensor [read] returns follow the batch: for a
    batch [pre ++ x :: post], row number [length pre] is the row that the
    loop body produced for [x], run in the state the items of [pre] left,
    and the tensor has one row per item. *)
Theorem read_rows_follow_batch_order :
  forall env mods fuel c shots pre x post s t s',
    cell_ok mods c = true ->
    handle_present c = true ->
    read env mods fuel c (SlotSeq (pre ++ x :: post)) shots s = (Ok t, s') ->
    length (t_data t) = length (pre ++ x :: post)
    /\ exists outs1 s1 row s2,
        read_loop env mods fuel c shots 0 pre s = (Ok outs1, s1)
        /\ read_item env mods fuel c shots (length pre) x s1 = (Ok row, s2)
        /\ t_data t !! length pre = t_data row !! 0%nat.
Proof.
  intros env mods fuel c shots pre x post s t s' Hok Hh Hread.
  rewrite read_tensor, read_with_handle_present in Hread by exact Hh.
  destruct (read_loop env mods fuel c shots 0 (pre ++ x :: post) s)
    as [[outs|e|] s0] eqn:Hloop; try discriminate Hread.
  destruct (read_loop_rows _ _ _ _ _ _ Hok _ _ _ _ Hloop) as [Hlen Hrows].
  assert (torch_cat outs = Returns t) as Hcat.
  { destruct outs as [|o outs].
    - rewrite length_app in Hlen. cbn in Hlen. lia.
    - unfold lift in Hread. destruct (torch_cat (o :: outs)) as [t0|e0];
        [| discriminate Hread].
      now injection Hread as <- <-. }
  pose proof (torch_cat_data _ _ Hcat) as Hdata.
  destruct (torch_cat_rows (classical_hidden_size c) outs) as [t0 [Ht0 [Hshape Hwf]]];
    [| exact Hrows |].
  { intros ->. rewrite length_app in Hlen. cbn in Hlen. lia. }
  rewrite Hcat in Ht0. injection Ht0 as <-.
  split.
  { unfold tensor_wf in Hwf. apply andb_prop in Hwf. destruct Hwf as [Hl _].
    apply Nat.eqb_eq in Hl. unfold shape in Hshape. injection Hshape as Hr _.
    now rewrite Hl, Hr, Hlen. }
  rewrite read_loop_app in Hloop.
  destruct (read_loop env mods fuel c shots 0 pre s) as [[outs1|e|] s1] eqn:Hpre;
    try discriminate Hloop.
  cbn [Nat.add read_loop] in Hloop. unfold mbind, M_bind, bind in Hloop.
  destruct (read_item env mods fuel c shots (length pre) x s1)
    as [[row|e|] s2] eqn:Hitem; try discriminate Hloop.
  destruct (read_loop env mods fuel c shots (S (length pre)) post s2)
    as [[outs3|e|] s3]; try discriminate Hloop.
  unfold ret in Hloop. injection Hloop as <- <-.
  exists outs1, s1, row, s2. split; [reflexivity |]. split; [exact Hitem |].
  rewrite Hdata.
  apply (concat_rows_lookup _ _ Hrows).
  destruct (read_loop_rows _ _ _ _ _ _ Hok _ _ _ _ Hpre) as [Hlen1 _].
  apply list_lookup_middle. now rewrite Hlen1.
Qed.

Lemma read_rows_follow_batch_order_witness :
  match ex_cell (ex_env JobStatus.DONE ex_counts) ex_all 3 "cpu-qiskit"
                None None 5 300 with
  | (Ok c, s) =>
      exists t s',
        read (ex_env_failing ex_counts) ex_all 10 c (SlotSeq [2; 0; 1]) 100 s
        = (Ok t, s')
        /\ length (t_data t) = 3%nat
  | _ => False
  end.
Proof.
  build_cell.
  match goal with
  | |- exists t s', read ?env ?mods ?fuel ?c ?slots ?shots ?s = _ /\ _ =>
      destruct (read env mods fuel c slots shots s) as [[t|e|] s'] eqn:R;
      try (vm_compute in R; discriminate R);
      exists t, s'; split; [reflexivity |];
      exact (proj1 (read_rows_follow_batch_order env mods fuel c shots
                      [2] 0 [1] s t s' eq_refl eq_refl R))
  end.
Defined.

(** ** Write then read *)

Lemma read_shape env mods fuel c slots shots s t s' :
  cell_ok mods c = true ->
  read env mods fuel c slots shots s = (Ok t, s') ->
  shape t = (length (batch_of slots), classical_hidden_size c).
Proof.
  intros Hok H. apply read_inv_Ok in H. unfold read_batch in H.
  destruct (negb (is_gpu (backend_mode c)) && is_None (backend c)).
  { destruct (print_then_randn env
                ("ERROR: Qiskit-based backend not available for mode '"
                 +:+ backend_mode c +:+ "'.")
                (length (batch_of slots)) (classical_hidden_size c) s)
      as [t' [Ht' [Hshape _]]].
    rewrite Ht' in H. now injection H as <- <-. }
  destruct (is_gpu (backend_mode c) && is_None (gpu_simulators c)).
  { destruct (print_then_randn env
                "ERROR: GPU simulators not available for mode 'gpu'."
                (length (batch_of slots)) (classical_hidden_size c) s)
      as [t' [Ht' [Hshape _]]].
    rewrite Ht' in H. now injection H as <- <-. }
  apply bind_inv_Ok in H. destruct H as [outs [s1 [Hloop H]]].
  destruct (read_loop_rows _ _ _ _ _ _ Hok _ _ _ _ Hloop) as [Hlen Hall].
  destruct outs as [|row outs].
  - injection H as <- <-. now rewrite <- Hlen.
  - destruct (torch_cat_rows (classical_hidden_size c) (row :: outs))
      as [t' [Ht' [Hshape _]]]; [discriminate | exact Hall |].
    rewrite Ht' in H. injection H as <- <-. now rewrite <- Hlen.
Qed.

(** X12.  [forward] is [write] followed by [read] on the same slot
    argument.  When [write] raises, [forward] raises the same exception in
    the same state and nothing is read.  With a slot sequence the result
    has one row per input row.  With an [int] slot index [write] stores
    every row of the batch in that slot, but [read] takes the index as a
    batch of one: the result has a single row, whatever the batch size. *)
Theorem forward_is_write_then_read :
  forall env mods fuel c hidden shots s,
    cell_ok mods c = true ->
    (forall slots e s1,
        write env c hidden slots s = (Raise e, s1) ->
        forward env mods fuel c hidden slots shots s = (Raise e, s1))
    /\ (forall slots s1,
          write env c hidden slots s = (Ok tt, s1) ->
          forward env mods fuel c hidden slots shots s
          = read env mods fuel c slots shots s1)
    /\ (forall idxs t s',
          forward env mods fuel c hidden (SlotSeq idxs) shots s = (Ok t, s') ->
          shape t = (t_rows hidden, classical_hidden_size c))
    /\ (forall z t s',
          forward env mods fuel c hidden (SlotInt z) shots s = (Ok t, s') ->
          shape t = (1%nat, classical_hidden_size c)).
Proof.
  intros env mods fuel c hidden shots s Hok. unfold forward.
  split; [| split; [| split]].
  - intros slots e s1 Hw. now apply bind_Raise.
  - intros slots s1 Hw. now erewrite bind_Ok by exact Hw.
  - intros idxs t s' H. apply bind_inv_Ok in H.
    destruct H as [[] [s1 [Hw Hr]]].
    rewrite (read_shape _ _ _ _ _ _ _ _ _ Hok Hr). cbn [batch_of].
    rewrite write_tensor in Hw. unfold write_batch in Hw.
    destruct (Nat.eqb (length idxs) (t_rows hidden)) eqn:Hlen;
      [| discriminate Hw].
    apply Nat.eqb_eq in Hlen. now rewrite Hlen.
  - intros z t s' H. apply bind_inv_Ok in H.
    destruct H as [[] [s1 [_ Hr]]].
    now rewrite (read_shape _ _ _ _ _ _ _ _ _ Hok Hr).
Qed.

Lemma forward_is_write_then_read_witness :
  match ex_cell (ex_env JobStatus.DONE ex_counts) ex_all 2 "cpu-qiskit"
                None None 5 300 with
  | (Ok c, s) =>
      exists t s',
        forward (ex_env JobStatus.DONE ex_counts) ex_all 10 c
          (mkTensor 3 4 [[1; 0; 0; 0]; [0; 1; 0; 0]; [0; 0; 1; 0]]%Q)
          (SlotInt 1) 100 s
        = (Ok t, s')
        /\ shape t = (1%nat, 4%nat)
  | _ => False
  end.
Proof.
  build_cell.
  match goal with
  | |- exists t s', forward ?env ?mods ?fuel ?c ?hidden (SlotInt ?z) ?shots ?s = _ /\ _ =>
      destruct (forward env mods fuel c hidden (SlotInt z) shots s)
        as [[t|e|] s'] eqn:R;
      try (vm_compute in R; discriminate R);
      exists t, s'; split; [reflexivity |];
      exact (proj2 (proj2 (proj2 (forward_is_write_then_read env mods fuel c
                                    hidden shots s eq_refl))) z t s' R)
  end.
Defined.

(** ** Effect bounds *)

Section Steps.

Context (R : state -> state -> Prop) (hg : bool).
Hypothesis Rrefl : forall s, R s s.
Hypothesis Rtrans : forall a b c, R a b -> R b c -> R a c.

Lemma steps_ret {A} (a : A) : steps R hg (ret a).
Proof. intros s. split; [apply Rrefl | discriminate]. Qed.

Lemma steps_raise {A} e : steps R hg (@raise A e).
Proof. intros s. split; [apply Rrefl | discriminate]. Qed.

Lemma steps_lift {A} (r : reply A) : steps R hg (lift r).
Proof. intros s. destruct r; split; try apply Rrefl; discriminate. Qed.

Lemma steps_bind {A B} (m : M A) (f : A -> M B) :
  steps R hg m -> (forall a, steps R hg (f a)) -> steps R hg (x ← m; f x).
Proof.
  intros Hm Hf s. destruct (Hm s) as [H1 H2]. unfold_monad.
  destruct (m s) as [[a|e|] s1]; cbn in *.
  - destruct (Hf a s1) as [H3 H4]. split; [eapply Rtrans; eassumption | exact H4].
  - split; [exact H1 | discriminate].
  - split; [exact H1 | intros Hh; exfalso; now apply (H2 Hh)].
Qed.

Lemma steps_try {A} (m : M A) (handler : exn -> M A) :
  steps R hg m -> (forall e, steps R hg (handler e)) ->
  steps R hg (try_except m handler).
Proof.
  intros Hm Hh s. destruct (Hm s) as [H1 H2]. unfold_monad.
  destruct (m s) as [[a|e|] s1]; cbn in *.
  - split; [exact H1 | discriminate].
  - destruct (Hh e s1) as [H3 H4]. split; [eapply Rtrans; eassumption | exact H4].
  - split; [exact H1 | exact H2].
Qed.

Lemma steps_get_store : steps R hg get_store.
Proof. intros s. split; [apply Rrefl | discriminate]. Qed.

Lemma steps_time_time : steps R hg time_time.
Proof. intros s. split; [apply Rrefl | discriminate]. Qed.

Lemma steps_trace : steps R hg (fun s => (Ok (trace s), s)).
Proof. intros s. split; [apply Rrefl | discriminate]. Qed.

Lemma steps_index {A} (l : list A) z : steps R hg (index l z).
Proof.
  intros s. unfold index. destruct (l !! _); split; try apply Rrefl; discriminate.
Qed.

End Steps.

Lemma steps_hang R (Rrefl : forall s, R s s) {A} : steps R true (@hang A).
Proof. intros s. split; [apply Rrefl | discriminate]. Qed.

Lemma emitted_refl P s : emitted P s s.
Proof. exists []. split; reflexivity. Qed.

Lemma emitted_trans P a b c : emitted P a b -> emitted P b c -> emitted P a c.
Proof.
  intros [e1 [H1 F1]] [e2 [H2 F2]]. exists (e2 ++ e1). split.
  - now rewrite H2, H1, app_assoc.
  - now rewrite forallb_app, F2, F1.
Qed.

Lemma emitted_weaken (P Q : event -> bool) s s' :
  (forall e, P e = true -> Q e = true) -> emitted P s s' -> emitted Q s s'.
Proof.
  intros HPQ [evs [H F]]. exists evs. split; [exact H |].
  apply forallb_forall. intros e He. apply HPQ.
  rewrite forallb_forall in F. now apply F.
Qed.

Lemma emitted_log P hg ev : P ev = true -> steps (emitted P) hg (log ev).
Proof.
  intros HP s. split; [| discriminate]. exists [ev]. cbn. now rewrite HP.
Qed.

Lemma emitted_call P hg {A} ev (oracle : trace_t -> reply A) :
  P ev = true -> steps (emitted P) hg (call ev oracle).
Proof.
  intros HP s. unfold call, lift. cbn.
  destruct (oracle _); (split; [| discriminate]); exists [ev]; cbn;
    now rewrite HP.
Qed.

Lemma emitted_randn P hg env r c :
  P (EvRandn r c) = true -> steps (emitted P) hg (torch_randn env r c).
Proof.
  intros HP s. split; [| discriminate]. exists [EvRandn r c]. cbn.
  now rewrite HP.
Qed.

Lemma emitted_advance P hg d : steps (emitted P) hg (advance d).
Proof. intros s. split; [exists []; split; reflexivity | discriminate]. Qed.

Lemma emitted_set_store P hg l : steps (emitted P) hg (set_store l).
Proof. intros s. split; [exists []; split; reflexivity | discriminate]. Qed.

Lemma same_clock_refl s : same_clock s s.
Proof. reflexivity. Qed.

Lemma same_clock_trans a b c : same_clock a b -> same_clock b c -> same_clock a c.
Proof. unfold same_clock. congruence. Qed.

Lemma same_clock_log hg ev : steps same_clock hg (log ev).
Proof. intros s. split; [reflexivity | discriminate]. Qed.

Lemma same_clock_call hg {A} ev (oracle : trace_t -> reply A) :
  steps same_clock hg (call ev oracle).
Proof.
  intros s. unfold call, lift. cbn.
  destruct (oracle _); split; try reflexivity; discriminate.
Qed.

Lemma same_clock_randn hg env r c : steps same_clock hg (torch_randn env r c).
Proof. intros s. split; [reflexivity | discriminate]. Qed.

Lemma same_clock_set_store hg l : steps same_clock hg (set_store l).
Proof. intros s. split; [reflexivity | discriminate]. Qed.

(** Walk through a computation, given the relation's two laws and a
    tactic for the primitive effects. *)
Ltac steps_go Rrefl Rtrans prim :=
  repeat first
    [ progress intros
    | prim
    | apply (steps_bind _ _ Rtrans)
    | apply (steps_try _ _ Rtrans)
    | apply (steps_ret _ _ Rrefl)
    | apply (steps_raise _ _ Rrefl)
    | apply (steps_lift _ _ Rrefl)
    | apply (steps_get_store _ _ Rrefl)
    | apply (steps_time_time _ _ Rrefl)
    | apply (steps_trace _ _ Rrefl)
    | apply (steps_index _ _ Rrefl)
    | match goal with
      | |- steps _ _ (if ?b then _ else _) => destruct b
      | |- steps _ _ (match ?x with _ => _ end) => destruct x
      end ].

Section Effects.

Context (env : environment) (mods : imports).
Context (R : state -> state -> Prop) (hg : bool) (allowed : event -> bool).
Hypothesis Rrefl : forall s, R s s.
Hypothesis Rtrans : forall a b c, R a b -> R b c -> R a c.
Hypothesis Hlog : forall ev, allowed ev = true -> steps R hg (log ev).
Hypothesis Hcall :
  forall A ev (oracle : trace_t -> reply A),
    allowed ev = true -> steps R hg (call ev oracle).
Hypothesis Hrandn :
  forall r c, allowed (EvRandn r c) = true -> steps R hg (torch_randn env r c).
Hypothesis Hset : forall l, steps R hg (set_store l).

Ltac effect_prim Hsub :=
  first
    [ assumption
    | apply Hset
    | apply Hcall; apply Hsub; reflexivity
    | unfold print; apply Hlog; apply Hsub; reflexivity
    | apply Hrandn; apply Hsub; reflexivity ].

Lemma steps_execute_direct fuel c i slot_idx qc shots :
  (forall ev, is_direct_read_event ev = true -> allowed ev = true) ->
  is_qr_cloud (backend_mode c) = false ->
  steps R hg (execute env fuel c i slot_idx qc shots).
Proof.
  intros Hsub Hq. unfold execute, backend_run, job_counts. rewrite Hq.
  steps_go Rrefl Rtrans ltac:(effect_prim Hsub).
Qed.

Lemma steps_read_item fuel c shots i slot_idx :
  (forall ev, is_direct_read_event ev = true -> allowed ev = true) ->
  (forall qc, steps R hg (execute env fuel c i slot_idx qc shots)) ->
  steps R hg (read_item env mods fuel c shots i slot_idx).
Proof.
  intros Hsub Hexec.
  unfold read_item, gpu_measure, the_blueprint, run_blueprint, item_fallback,
    the_simulators, decode.
  steps_go Rrefl Rtrans ltac:(first [effect_prim Hsub | apply Hexec]).
Qed.

Lemma steps_read fuel c slots shots :
  (forall ev, is_direct_read_event ev = true -> allowed ev = true) ->
  (forall i slot_idx qc, steps R hg (execute env fuel c i slot_idx qc shots)) ->
  steps R hg (read env mods fuel c slots shots).
Proof.
  intros Hsub Hexec.
  assert (forall idxs i, steps R hg (read_loop env mods fuel c shots i idxs))
    as Hloop.
  { induction idxs as [|x idxs IH]; intros i; cbn [read_loop].
    - apply (steps_ret _ _ Rrefl).
    - pose proof (steps_read_item fuel c shots i x Hsub (Hexec i x)).
      steps_go Rrefl Rtrans ltac:(first [assumption | apply IH]). }
  unfold read, read_batch.
  steps_go Rrefl Rtrans ltac:(first [effect_prim Hsub | apply Hloop]).
Qed.

Lemma steps_write c hidden slots :
  (forall ev, is_gpu (backend_mode c) = true ->
              is_simulator_write ev = true -> allowed ev = true) ->
  steps R hg (write env c hidden slots).
Proof.
  intros Hsub.
  assert (forall sim angles qs, is_gpu (backend_mode c) = true ->
            steps R hg (gpu_rotations env sim angles qs)) as Hrot.
  { intros sim angles qs Hg. induction qs as [|q qs IH]; cbn [gpu_rotations].
    - apply (steps_ret _ _ Rrefl).
    - steps_go Rrefl Rtrans
        ltac:(first [assumption | apply Hcall; apply Hsub; [exact Hg | reflexivity]]). }
  assert (forall qr angles qs, steps R hg (circuit_rotations qr angles qs))
    as Hcirc.
  { intros qr angles qs. induction qs as [|q qs IH]; cbn [circuit_rotations].
    - apply (steps_ret _ _ Rrefl).
    - steps_go Rrefl Rtrans ltac:(assumption). }
  assert (forall i slot_idx, steps R hg (write_item env c hidden i slot_idx))
    as Hitem.
  { intros i slot_idx.
    unfold write_item, _get_angles_single, the_simulators, store_set.
    destruct (negb (in_bounds c slot_idx)); [apply (steps_raise _ _ Rrefl) |].
    apply (steps_bind _ _ Rtrans); [apply (steps_index _ _ Rrefl) |].
    intros row. apply (steps_bind _ _ Rtrans).
    { steps_go Rrefl Rtrans ltac:(assumption). }
    intros angles. destruct (is_gpu (backend_mode c)) eqn:Hg.
    - steps_go Rrefl Rtrans
        ltac:(first [ apply Hset | apply Hrot; reflexivity
                    | apply Hcall; apply Hsub; reflexivity ]).
    - steps_go Rrefl Rtrans ltac:(first [apply Hset | apply Hcirc]). }
  unfold write.
  apply (steps_bind _ _ Rtrans); [apply (steps_lift _ _ Rrefl) |].
  intros idxs. unfold write_batch.
  destruct (negb _); [apply (steps_raise _ _ Rrefl) |].
  generalize 0%nat.
  induction idxs as [|x idxs IH]; intros i; cbn [write_loop].
  - apply (steps_ret _ _ Rrefl).
  - apply (steps_bind _ _ Rtrans); [apply Hitem | intros _; apply IH].
Qed.

End Effects.

Lemma emitted_nothing (P : event -> bool) s s' :
  (forall e, P e = false) -> emitted P s s' -> trace s' = trace s.
Proof.
  intros HP [evs [H F]]. destruct evs as [|e evs]; [exact H |].
  cbn in F. now rewrite HP in F.
Qed.

Lemma read_events_poll env fuel c i slot_idx start job :
  steps (emitted is_read_event) true (poll env fuel c i slot_idx start job).
Proof.
  revert job. induction fuel as [|fuel IH]; intros job; cbn [poll].
  - apply steps_hang, emitted_refl.
  - unfold job_status, time_sleep.
    steps_go (emitted_refl is_read_event) (emitted_trans is_read_event)
      ltac:(first [ apply IH | apply emitted_call; reflexivity
                  | apply emitted_log; reflexivity | apply emitted_advance ]).
Qed.

Lemma read_events_execute env fuel c i slot_idx qc shots :
  steps (emitted is_read_event) true (execute env fuel c i slot_idx qc shots).
Proof.
  unfold execute, backend_run, job_counts.
  steps_go (emitted_refl is_read_event) (emitted_trans is_read_event)
    ltac:(first [ apply read_events_poll | apply emitted_call; reflexivity
                | unfold print; apply emitted_log; reflexivity ]).
Qed.

Lemma direct_read_event_is_read_event ev :
  is_direct_read_event ev = true -> is_read_event ev = true.
Proof. unfold is_direct_read_event. now intros [H _]%andb_prop. Qed.

(** X13.  Whatever the mode, the batch, the fuel and the answers of the
    engines, and whether it returns, raises or is cut off while polling,
    [read] adds to the trace only diagnostics, random draws and the calls
    that execute a measurement (transpile, run, status, result,
    get_counts, sleep, measure_shots): it never resets, rotates, creates
    or releases a simulator and never builds a backend; and it leaves the
    blueprint store as it found it. *)
Theorem read_only_measures :
  forall env mods fuel c slots shots s,
    emitted is_read_event s (snd (read env mods fuel c slots shots s))
    /\ quantum_memory_states (snd (read env mods fuel c slots shots s))
       = quantum_memory_states s.
Proof.
  intros env mods fuel c slots shots s. split.
  - apply (steps_read env mods (emitted is_read_event) true is_read_event
             (emitted_refl _) (emitted_trans _)).
    + intros ev H. now apply emitted_log.
    + intros A ev oracle H. now apply emitted_call.
    + intros r k H. now apply emitted_randn.
    + apply direct_read_event_is_read_event.
    + intros i slot_idx qc. apply read_events_execute.
  - apply read_preserves_store.
Qed.

(** X14.  Outside qr-cloud mode [read] does not poll: for every amount
    of fuel (none included) it comes back, returning or raising; it never
    asks for a job status and never sleeps; and the clock and the store
    are as before. *)
Theorem read_outside_qr_cloud_never_waits :
  forall env mods fuel c slots shots s,
    is_qr_cloud (backend_mode c) = false ->
    fst (read env mods fuel c slots shots s) <> Hang
    /\ emitted is_direct_read_event s (snd (read env mods fuel c slots shots s))
    /\ clock (snd (read env mods fuel c slots shots s)) = clock s
    /\ quantum_memory_states (snd (read env mods fuel c slots shots s))
       = quantum_memory_states s.
Proof.
  intros env mods fuel c slots shots s Hq.
  assert (steps (emitted is_direct_read_event) false
            (read env mods fuel c slots shots)) as Hev.
  { apply (steps_read env mods _ false is_direct_read_event
             (emitted_refl _) (emitted_trans _)).
    - intros ev H. now apply emitted_log.
    - intros A ev oracle H. now apply emitted_call.
    - intros r k H. now apply emitted_randn.
    - auto.
    - intros i slot_idx qc.
      apply (steps_execute_direct env _ false is_direct_read_event
               (emitted_refl _) (emitted_trans _)); auto.
      + intros ev H. now apply emitted_log.
      + intros A ev oracle H. now apply emitted_call. }
  assert (steps same_clock false (read env mods fuel c slots shots)) as Hck.
  { apply (steps_read env mods _ false (fun _ => true)
             same_clock_refl same_clock_trans).
    - intros ev _. apply same_clock_log.
    - intros A ev oracle _. apply same_clock_call.
    - intros r k _. apply same_clock_randn.
    - reflexivity.
    - intros i slot_idx qc.
      apply (steps_execute_direct env _ false (fun _ => true)
               same_clock_refl same_clock_trans); auto.
      + intros ev _. apply same_clock_log.
      + intros A ev oracle _. apply same_clock_call. }
  destruct (Hev s) as [H1 H2]. destruct (Hck s) as [H3 _].
  split; [now apply H2 |]. split; [exact H1 |]. split; [exact H3 |].
  apply read_preserves_store.
Qed.

Lemma read_outside_qr_cloud_never_waits_witness :
  match ex_cell (ex_env JobStatus.DONE ex_counts) ex_all 2 "cpu-qiskit"
                None None 5 300 with
  | (Ok c, s) =>
      fst (read (ex_env_failing ex_counts) ex_all 0 c (SlotSeq [0; 1; 0]) 100 s)
      <> Hang
      /\ clock (snd (read (ex_env_failing ex_counts) ex_all 0 c
                       (SlotSeq [0; 1; 0]) 100 s)) = clock s
  | _ => False
  end.
Proof.
  build_cell.
  match goal with
  | |- fst (read ?env ?mods ?fuel ?c ?slots ?shots ?s) <> _ /\ _ =>
      destruct (read_outside_qr_cloud_never_waits env mods fuel c slots shots s
                  eq_refl) as [H1 [_ [H2 _]]];
      split; [exact H1 | exact H2]
  end.
Defined.

(** X15.  [write] never waits and never measures: on every input, and
    also when it raises part-way through a batch, it comes back, the
    clock is unchanged, and the only events it adds are the reset and
    rotation calls on a GPU simulator; in the circuit modes it adds no
    event at all, so it performs no call, prints nothing and draws no
    random number. *)
Theorem write_effects :
  forall env c hidden slots s,
    fst (write env c hidden slots s) <> Hang
    /\ clock (snd (write env c hidden slots s)) = clock s
    /\ emitted is_simulator_write s (snd (write env c hidden slots s))
    /\ (is_gpu (backend_mode c) = false ->
        trace (snd (write env c hidden slots s)) = trace s).
Proof.
  intros env c hidden slots s.
  set (allowed := fun ev => is_gpu (backend_mode c) && is_simulator_write ev).
  assert (steps (emitted allowed) false (write env c hidden slots)) as Hev.
  { apply (steps_write env _ false allowed (emitted_refl _) (emitted_trans _)).
    - intros A ev oracle H. now apply emitted_call.
    - intros l. apply emitted_set_store.
    - intros ev Hg Hw. unfold allowed. now rewrite Hg, Hw. }
  assert (steps same_clock false (write env c hidden slots)) as Hck.
  { apply (steps_write env _ false (fun _ => true)
             same_clock_refl same_clock_trans).
    - intros A ev oracle _. apply same_clock_call.
    - intros l. apply same_clock_set_store.
    - reflexivity. }
  destruct (Hev s) as [H1 H2]. destruct (Hck s) as [H3 _].
  split; [now apply H2 |]. split; [exact H3 |]. split.
  - apply (emitted_weaken allowed); [| exact H1].
    unfold allowed. now intros e [_ H]%andb_prop.
  - intros Hg. apply (emitted_nothing allowed); [| exact H1].
    intros e. unfold allowed. now rewrite Hg.
Qed.

Lemma write_effects_witness :
  match ex_cell (ex_env JobStatus.DONE ex_counts) ex_all 2 "cpu-qiskit"
                None None 5 300 with
  | (Ok c, s) =>
      trace (snd (write (ex_env JobStatus.DONE ex_counts) c
                    (mkTensor 2 4 [[1; 0; 0; 0]; [0; 1; 0; 0]]%Q)
                    (SlotSeq [1; 7]) s)) = trace s
  | _ => False
  end.
Proof.
  build_cell.
  match goal with
  | |- trace (snd (write ?env ?c ?hidden ?slots ?s)) = _ =>
      exact (proj2 (proj2 (proj2 (write_effects env c hidden slots s))) eq_refl)
  end.
Defined.

(** ** The surrounding model *)

Lemma linear_forward_shape l x t :
  linear_forward l x = Returns t ->
  t_cols x = in_features l /\ shape t = (t_rows x, out_features l).
Proof.
  unfold linear_forward. destruct (Nat.eqb _ _) eqn:E; [| discriminate].
  intros [= <-]. apply Nat.eqb_eq in E. now split.
Qed.

Lemma linear_forward_wrong_width l x :
  t_cols x <> in_features l ->
  exists e, linear_forward l x = Raises e /\ exn_cls e = RuntimeError.
Proof.
  intros H. unfold linear_forward. apply Nat.eqb_neq in H. rewrite H.
  eexists. split; reflexivity.
Qed.

Lemma relu_shape t : shape (relu t) = shape t.
Proof. reflexivity. Qed.

Lemma relu_nonneg t : Forall (Forall (fun q => (0 <= q)%Q)) (t_data (relu t)).
Proof.
  unfold relu. cbn. induction (t_data t) as [|r rows IH]; cbn; constructor;
    [| exact IH].
  clear IH. induction r as [|q r IH]; cbn; constructor; [| exact IH].
  destruct (Qle_bool 0 q) eqn:E.
  - now apply Qle_bool_iff.
  - apply Qle_refl.
Qed.

Lemma lift_inv_Ok {A} (r : reply A) s a s' :
  lift r s = (Ok a, s') -> r = Returns a /\ s' = s.
Proof. destruct r; cbn; unfold ret, raise; intros [= <- <-]; now split. Qed.

Lemma torch_cat1_shape a b t :
  torch_cat1 a b = Returns t ->
  t_rows b = t_rows a /\ shape t = (t_rows a, (t_cols a + t_cols b)%nat).
Proof.
  unfold torch_cat1. destruct (Nat.eqb _ _) eqn:E; [| discriminate].
  intros [= <-]. apply Nat.eqb_eq in E. now split.
Qed.

Lemma init_records_sizes env mods nq depth hidden mode tok usr bname
    interval timeout ei di s c s' :
  __init__ env mods nq depth hidden mode tok usr bname interval timeout ei di s
  = (Ok c, s') ->
  num_qubits c = nq /\ memory_depth c = depth /\ classical_hidden_size c = hidden.
Proof.
  intros Hinit. unfold __init__ in Hinit.
  destruct (negb (HAS_QISKIT mods) && negb (is_gpu mode)); [discriminate Hinit |].
  apply bind_inv_Ok in Hinit. destruct Hinit as [[] [s1 [_ H]]].
  apply bind_inv_Ok in H. destruct H as [sb [s2 [_ H]]].
  apply bind_inv_Ok in H. destruct H as [[] [s3 [_ H]]].
  apply bind_inv_Ok in H. destruct H as [[] [s4 [_ H]]].
  injection H as <- <-. now repeat split.
Qed.

(** X16.  The model constructor builds exactly the memory cell that
    [QuantumMemoryCell(num_qubits_per_slot, num_memory_slots, hidden_size,
    ...)] builds, in the same state, and fails exactly as that constructor
    fails; the layers of the model it returns have the sizes [forward]
    relies on, the cell has [num_memory_slots] slots, and the argument
    [memory_depth_per_slot] has no influence on the result. *)
Theorem hybrid_constructor :
  forall env mods input hidden output slots nq d mode tok usr bname iv tmo w s,
    (forall m s',
        HybridCTM.__init__ env mods input hidden output slots nq d mode tok usr
          bname iv tmo w s = (Ok m, s') ->
        __init__ env mods nq slots hidden mode tok usr bname iv tmo
          (HybridCTM.w_encoding w) (HybridCTM.w_decoding w) s
        = (Ok (HybridCTM.quantum_memory m), s')
        /\ HybridCTM.model_ok mods m = true
        /\ memory_depth (HybridCTM.quantum_memory m) = slots
        /\ num_qubits (HybridCTM.quantum_memory m) = nq
        /\ store_ok (HybridCTM.quantum_memory m) s' = true
        /\ (HybridCTM.input_size m, HybridCTM.hidden_size m,
            HybridCTM.output_size m) = (input, hidden, output))
    /\ (forall e s',
          __init__ env mods nq slots hidden mode tok usr bname iv tmo
            (HybridCTM.w_encoding w) (HybridCTM.w_decoding w) s
          = (Raise e, s') ->
          HybridCTM.__init__ env mods input hidden output slots nq d mode tok
            usr bname iv tmo w s = (Raise e, s'))
    /\ (forall d',
          HybridCTM.__init__ env mods input hidden output slots nq d' mode tok
            usr bname iv tmo w s
          = HybridCTM.__init__ env mods input hidden output slots nq d mode tok
              usr bname iv tmo w s).
Proof.
  intros env mods input hidden output slots nq d mode tok usr bname iv tmo w s.
  split; [| split].
  - intros m s' H. unfold HybridCTM.__init__ in H.
    apply bind_inv_Ok in H. destruct H as [c [s1 [Hc H]]].
    injection H as <- <-. cbn [HybridCTM.quantum_memory].
    destruct (init_establishes_invariants _ _ _ _ _ _ _ _ _ _ _ _ _ _ _ _ Hc)
      as [Hok [Hst _]].
    destruct (init_records_sizes _ _ _ _ _ _ _ _ _ _ _ _ _ _ _ _ Hc)
      as [Hnq [Hd Hh]].
    split; [exact Hc |]. split.
    { unfold HybridCTM.model_ok. cbn.
      rewrite Hok, Hh. now rewrite !Nat.eqb_refl. }
    repeat split; assumption.
  - intros e s' H. unfold HybridCTM.__init__. now apply bind_Raise.
  - reflexivity.
Qed.

Lemma hybrid_constructor_witness :
  match ex_model (ex_env JobStatus.DONE ex_counts) ex_all "gpu" with
  | (Ok m, s') =>
      HybridCTM.model_ok ex_all m = true
      /\ memory_depth (HybridCTM.quantum_memory m) = 2
  | _ => False
  end.
Proof.
  destruct (ex_model (ex_env JobStatus.DONE ex_counts) ex_all "gpu")
    as [[m|e|] s'] eqn:E; try (vm_compute in E; discriminate E).
  unfold ex_model in E.
  destruct (proj1 (hybrid_constructor _ _ _ _ _ _ _ _ _ _ _ _ _ _ _ _) m s' E)
    as [_ [H1 [H2 _]]].
  split; [exact H1 | exact H2].
Defined.

(** X17.  When [forward] of a model with consistent layer sizes returns,
    the input batch had [input_size] columns and one slot index per row (a
    single row when the index is an [int]); the final output has shape
    [(batch, output_size)] and the hidden batch [(batch, hidden_size)],
    and no entry of the hidden batch is negative. *)
Theorem hybrid_forward_shapes :
  forall env mods fuel m x slots s out hid s',
    HybridCTM.model_ok mods m = true ->
    HybridCTM.forward env mods fuel m x slots s = (Ok (out, hid), s') ->
    t_cols x = HybridCTM.input_size m
    /\ length (batch_of slots) = t_rows x
    /\ shape out = (t_rows x, HybridCTM.output_size m)
    /\ shape hid = (t_rows x, HybridCTM.hidden_size m)
    /\ Forall (Forall (fun q => (0 <= q)%Q)) (t_data hid).
Proof.
  intros env mods fuel m x slots s out hid s' Hm H.
  unfold HybridCTM.model_ok in Hm.
  do 7 (apply andb_prop in Hm; destruct Hm as [Hm ?]).
  repeat match goal with
         | E : Nat.eqb _ _ = true |- _ => apply Nat.eqb_eq in E
         end.
  unfold HybridCTM.forward in H.
  apply bind_inv_Ok in H. destruct H as [p [s1 [Hp H]]].
  apply lift_inv_Ok in Hp. destruct Hp as [Hp ->].
  apply bind_inv_Ok in H. destruct H as [mem [s2 [Hmem H]]].
  apply bind_inv_Ok in H. destruct H as [comb [s3 [Hcat H]]].
  apply lift_inv_Ok in Hcat. destruct Hcat as [Hcat ->].
  apply bind_inv_Ok in H. destruct H as [g [s4 [Hg H]]].
  apply lift_inv_Ok in Hg. destruct Hg as [Hg ->].
  apply bind_inv_Ok in H. destruct H as [o [s5 [Ho H]]].
  apply lift_inv_Ok in Ho. destruct Ho as [Ho ->].
  injection H as <- <- <-.
  apply linear_forward_shape in Hp. destruct Hp as [Hx Hps].
  apply torch_cat1_shape in Hcat. destruct Hcat as [Hrows Hcs].
  apply linear_forward_shape in Hg. destruct Hg as [_ Hgs].
  apply linear_forward_shape in Ho. destruct Ho as [_ Hos].
  unfold forward in Hmem. apply bind_inv_Ok in Hmem.
  destruct Hmem as [[] [s6 [_ Hr]]].
  apply (read_shape _ _ _ _ _ _ _ _ _ Hm) in Hr.
  unfold shape in *. cbn [relu t_rows t_cols] in *.
  injection Hps as Hp1 Hp2. injection Hcs as Hc1 Hc2.
  injection Hgs as Hg1 Hg2. injection Hos as Ho1 Ho2.
  injection Hr as Hr1 Hr2.
  split; [congruence |]. split; [congruence |].
  split; [f_equal; congruence |]. split; [f_equal; congruence |].
  apply relu_nonneg.
Qed.

Lemma hybrid_forward_shapes_witness :
  match ex_model (ex_env JobStatus.DONE ex_counts) ex_all "cpu-qiskit" with
  | (Ok m, s) =>
      exists out hid s',
        HybridCTM.forward (ex_env JobStatus.DONE ex_counts) ex_all 10 m
          (mkTensor 2 3 [[1; 0; 2]; [0; 1; 1]]%Q) (SlotSeq [0; 1]) s
        = (Ok (out, hid), s')
        /\ shape out = (2%nat, 2%nat) /\ shape hid = (2%nat, 4%nat)
  | _ => False
  end.
Proof.
  destruct (ex_model (ex_env JobStatus.DONE ex_counts) ex_all "cpu-qiskit")
    as [[m|e|] s] eqn:E; try (vm_compute in E; discriminate E).
  vm_compute in E. injection E as <- <-.
  match goal with
  | |- exists out hid s', HybridCTM.forward ?env ?mods ?fuel ?m ?x ?slots ?s = _ /\ _ =>
      destruct (HybridCTM.forward env mods fuel m x slots s)
        as [[[out hid]|e|] s'] eqn:R;
      try (vm_compute in R; discriminate R);
      exists out, hid, s'; split; [reflexivity |];
      destruct (hybrid_forward_shapes env mods fuel m x slots s out hid s'
                  eq_refl R) as [_ [_ [H1 [H2 _]]]];
      split; [exact H1 | exact H2]
  end.
Defined.

(** X18.  [forward] of the model fails with a [RuntimeError] in two
    situations the signature does not rule out.  An input batch whose
    width is not [input_size] is rejected by the input layer before the
    memory is touched: the state is unchanged.  And an [int] slot index,
    which the memory cell accepts, only works for a batch of one row: for
    any other batch size the memory is written and read (all rows into
    that one slot, one row read back), and the concatenation of the hidden
    batch with the single row read then fails, the effects of the memory
    operations remaining. *)
Theorem hybrid_forward_rejects :
  forall env mods fuel m x s,
    HybridCTM.model_ok mods m = true ->
    (forall slots,
        t_cols x <> HybridCTM.input_size m ->
        exists e,
          HybridCTM.forward env mods fuel m x slots s = (Raise e, s)
          /\ exn_cls e = RuntimeError)
    /\ (forall z p mem s1,
          t_rows x <> 1%nat ->
          linear_forward (HybridCTM.input_layer m) x = Returns p ->
          forward env mods fuel (HybridCTM.quantum_memory m) (relu p)
            (SlotInt z) 1024 s = (Ok mem, s1) ->
          exists e,
            HybridCTM.forward env mods fuel m x (SlotInt z) s = (Raise e, s1)
            /\ exn_cls e = RuntimeError).
Proof.
  intros env mods fuel m x s Hm.
  unfold HybridCTM.model_ok in Hm.
  do 7 (apply andb_prop in Hm; destruct Hm as [Hm ?]).
  repeat match goal with
         | E : Nat.eqb _ _ = true |- _ => apply Nat.eqb_eq in E
         end.
  split.
  - intros slots Hw.
    destruct (linear_forward_wrong_width (HybridCTM.input_layer m) x)
      as [e [He Hcls]]; [congruence |].
    exists e. split; [| exact Hcls].
    unfold HybridCTM.forward. rewrite He. now apply bind_Raise.
  - intros z p mem s1 Hrows Hp Hmem.
    unfold HybridCTM.forward. rewrite Hp.
    erewrite bind_Ok. 2:{ reflexivity. }
    erewrite bind_Ok. 2:{ exact Hmem. }
    pose proof Hmem as Hr. unfold forward in Hr. apply bind_inv_Ok in Hr.
    destruct Hr as [[] [s2 [_ Hr]]].
    apply (read_shape _ _ _ _ _ _ _ _ _ Hm) in Hr.
    apply linear_forward_shape in Hp. destruct Hp as [_ Hps].
    unfold shape in Hr, Hps. injection Hr as Hr1 _. injection Hps as Hp1 _.
    cbn [batch_of length] in Hr1.
    unfold torch_cat1. cbn [relu t_rows].
    rewrite Hp1, Hr1. apply Nat.eqb_neq in Hrows. rewrite Hrows.
    eexists. split.
    { apply bind_Raise. reflexivity. }
    reflexivity.
Qed.

Lemma hybrid_forward_rejects_witness :
  match ex_model (ex_env JobStatus.DONE ex_counts) ex_all "cpu-qiskit" with
  | (Ok m, s) =>
      exists e s1,
        HybridCTM.forward (ex_env JobStatus.DONE ex_counts) ex_all 10 m
          (mkTensor 2 3 [[1; 0; 2]; [0; 1; 1]]%Q) (SlotInt 1) s
        = (Raise e, s1)
        /\ exn_cls e = RuntimeError
  | _ => False
  end.
Proof.
  destruct (ex_model (ex_env JobStatus.DONE ex_counts) ex_all "cpu-qiskit")
    as [[m|e|] s] eqn:E; try (vm_compute in E; discriminate E).
  vm_compute in E. injection E as <- <-.
  match goal with
  | |- exists e s1, HybridCTM.forward ?env ?mods ?fuel ?m ?x (SlotInt ?z) ?s = _ /\ _ =>
      destruct (linear_forward (HybridCTM.input_layer m) x) as [p|e0] eqn:Hp;
        [| vm_compute in Hp; discriminate Hp];
      pose proof Hp as Hp'; vm_compute in Hp; injection Hp as <-;
      match type of Hp' with
      | _ = Returns ?p =>
          destruct (forward env mods fuel (HybridCTM.quantum_memory m) (relu p)
                      (SlotInt z) 1024 s) as [[mem|e0|] s1] eqn:Hmem;
            try (vm_compute in Hmem; discriminate Hmem);
          destruct (proj2 (hybrid_forward_rejects env mods fuel m x s eq_refl)
                      z p mem s1) as [e [He Hcls]];
            [discriminate | exact Hp' | exact Hmem |];
          exists e, s1; split; [exact He | exact Hcls]
      end
  end.
Defined.
